(** * Arduboy core library: a shallow embedding of [src/Arduboy.cpp]

    The development models the frame scheduler ([setFrameRate], [newFrame],
    [nextFrame], [cpuLoad]), the packed frame buffer ([drawPixel],
    [getPixel], [fillScreen]), the rasterisers of lines, rectangles,
    circles, rounded rectangles and triangles, the two bitmap blitters
    ([drawBitmap], [drawSlowXYBitmap]), the glyph renderer ([drawChar]) and
    the text cursor ([write]) and proves properties of them.

    The target is an 8-bit AVR: [int] is 16 bits wide, [long] 32 bits.
    Machine integers are values of [Z] with the wrap-around written out. *)

From Stdlib Require Import ZArith Lia Bool.
From stdpp Require Import base list.

Local Open Scope Z_scope.

(** ** Machine integers *)

Module Int.

(** Conversion to an unsigned type of [bits] bits. *)
Definition unsigned (bits z : Z) : Z := z mod 2 ^ bits.

(** Conversion to a signed two's-complement type of [bits] bits. *)
Definition signed (bits z : Z) : Z :=
  (z + 2 ^ (bits - 1)) mod 2 ^ bits - 2 ^ (bits - 1).

Definition u8 (z : Z) : Z := unsigned 8 z.
Definition u16 (z : Z) : Z := unsigned 16 z.
Definition i8 (z : Z) : Z := signed 8 z.
Definition i16 (z : Z) : Z := signed 16 z.
Definition i32 (z : Z) : Z := signed 32 z.

(** [_BV(bit)], that is [1 << bit]. *)
Definition _BV (bit : Z) : Z := Z.shiftl 1 bit.

(** C's truth value of an integer used as a condition. *)
Definition truthy (z : Z) : bool := negb (z =? 0).

End Int.
Import Int.

(** ** Results of running a drawing operation

    [Fault] is undefined behaviour of the C code: an access outside
    [sBuffer] or a division by zero.  [Timeout] is a loop or a recursion
    that used up its fuel. *)

Inductive result (A : Type) : Type :=
| Ok (a : A)
| Fault
| Timeout.

Arguments Ok {A} a.
Arguments Fault {A}.
Arguments Timeout {A}.

Definition bind {A B : Type} (r : result A) (k : A -> result B) : result B :=
  match r with
  | Ok a => k a
  | Fault => Fault
  | Timeout => Timeout
  end.

Notation "'let*' x := r 'in' k" := (bind r (fun x => k))
  (at level 10, x name, r at level 100, k at level 200).

(** ** Frame management *)

(** The frame-management members of [ArduboyBase].  The class is declared
    in the header; the widths used below are those the code itself shows
    ([uint8_t rate], [long now], an [uint8_t] for the remaining time) and,
    for the members, 8 bits for the two durations, 16 bits for the frame
    count and [long] for the two time stamps. *)
Record ArduboyBase : Type := mkBase {
  frameRate : Z;
  frameCount : Z;
  eachFrameMillis : Z;
  lastFrameStart : Z;
  nextFrameStart : Z;
  post_render : bool;
  lastFrameDurationMs : Z
}.

Definition setFrameRate (rate : Z) (s : ArduboyBase) : result ArduboyBase :=
  if rate =? 0 then Fault
  else Ok {| frameRate := rate;
             frameCount := frameCount s;
             eachFrameMillis := u8 (Z.quot 1000 rate);
             lastFrameStart := lastFrameStart s;
             nextFrameStart := nextFrameStart s;
             post_render := post_render s;
             lastFrameDurationMs := lastFrameDurationMs s |}.

(** The constructor, run on an object whose storage is zero-initialised
    (the members it does not assign, [lastFrameStart] among them, are 0). *)
Definition ArduboyBase_zero : ArduboyBase :=
  mkBase 0 0 0 0 0 false 0.

Definition ArduboyBase_new : result ArduboyBase :=
  let* s := setFrameRate 60 ArduboyBase_zero in
  Ok {| frameRate := frameRate s;
        frameCount := 0;
        eachFrameMillis := eachFrameMillis s;
        lastFrameStart := lastFrameStart s;
        nextFrameStart := 0;
        post_render := false;
        lastFrameDurationMs := lastFrameDurationMs s |}.

(** What one call of [newFrame] yields: the value returned, whether
    [idle()] was called, and the members afterwards. *)
Record frame : Type := mkFrame {
  due : bool;
  idled : bool;
  after : ArduboyBase
}.

(** [newFrame], with the value [millis()] returns as an argument. *)
Definition newFrame (millis : Z) (s : ArduboyBase) : frame :=
  let now := i32 millis in
  (* post render *)
  let s :=
    if post_render s
    then {| frameRate := frameRate s;
            frameCount := u16 (frameCount s + 1);
            eachFrameMillis := eachFrameMillis s;
            lastFrameStart := lastFrameStart s;
            nextFrameStart := nextFrameStart s;
            post_render := false;
            lastFrameDurationMs := u8 (now - lastFrameStart s) |}
    else s in
  (* if it's not time for the next frame yet *)
  if now <? nextFrameStart s then
    let remaining := u8 (nextFrameStart s - now) in
    mkFrame false (remaining >? 1) s
  else
    (* pre-render *)
    let next := i32 (lastFrameStart s + eachFrameMillis s) in
    let next := if next <? now then now else next in
    mkFrame true false
      {| frameRate := frameRate s;
         frameCount := frameCount s;
         eachFrameMillis := eachFrameMillis s;
         lastFrameStart := now;
         nextFrameStart := next;
         post_render := true;
         lastFrameDurationMs := lastFrameDurationMs s |}.

(** [nextFrame], the deprecated scheduler step: as [newFrame], but the
    next frame is due one period after the time of the call. *)
Definition nextFrame (millis : Z) (s : ArduboyBase) : frame :=
  let now := i32 millis in
  let s :=
    if post_render s
    then {| frameRate := frameRate s;
            frameCount := u16 (frameCount s + 1);
            eachFrameMillis := eachFrameMillis s;
            lastFrameStart := lastFrameStart s;
            nextFrameStart := nextFrameStart s;
            post_render := false;
            lastFrameDurationMs := u8 (now - lastFrameStart s) |}
    else s in
  if now <? nextFrameStart s then
    let remaining := u8 (nextFrameStart s - now) in
    mkFrame false (remaining >? 1) s
  else
    mkFrame true false
      {| frameRate := frameRate s;
         frameCount := frameCount s;
         eachFrameMillis := eachFrameMillis s;
         lastFrameStart := now;
         nextFrameStart := i32 (now + eachFrameMillis s);
         post_render := true;
         lastFrameDurationMs := lastFrameDurationMs s |}.

(** [cpuLoad]: [lastFrameDurationMs*100 / eachFrameMillis] in [int]
    arithmetic. *)
Definition cpuLoad (s : ArduboyBase) : result Z :=
  if eachFrameMillis s =? 0 then Fault
  else Ok (i16 (Z.quot (i16 (lastFrameDurationMs s * 100)) (eachFrameMillis s))).

(** The members after a run of calls of a scheduler step. *)
Fixpoint after_run (step : Z -> ArduboyBase -> frame) (nows : list Z)
  (s : ArduboyBase) : ArduboyBase :=
  match nows with
  | [] => s
  | now :: rest => after_run step rest (after (step now s))
  end.

(** The number of calls of a run that returned true. *)
Fixpoint frames_due (step : Z -> ArduboyBase -> frame) (nows : list Z)
  (s : ArduboyBase) : Z :=
  match nows with
  | [] => 0
  | now :: rest =>
      Z.b2z (due (step now s)) + frames_due step rest (after (step now s))
  end.

(** The frames of a run: [newFrame] called once for each time of the
    list, each call on the members the call before left. *)
Fixpoint run (nows : list Z) (s : ArduboyBase) : list (ArduboyBase * Z * frame) :=
  match nows with
  | [] => []
  | now :: rest =>
      let f := newFrame now s in
      (s, now, f) :: run rest (after f)
  end.

(** Times that grow strictly. *)
Fixpoint increasing (nows : list Z) : Prop :=
  match nows with
  | a :: (b :: _) as rest => a < b /\ increasing rest
  | _ => True
  end.

(** The schedule without drift, as the specification states it: in every
    run of the freshly constructed object at rate [R] over increasing
    times in which no accepted frame comes more than one period after it
    became eligible, each accepted frame moves [nextFrameStart] forward by
    exactly [1000 / R]. *)
Definition drift_free : Prop :=
  forall (R : Z) (nows : list Z) (s0 s : ArduboyBase),
    0 < R <= 255 ->
    ArduboyBase_new = Ok s0 -> setFrameRate R s0 = Ok s ->
    increasing nows ->
    Forall (fun '(before, now, f) =>
              due f = true -> now <= nextFrameStart before + 1000 / R)
      (run nows s) ->
    Forall (fun '(before, now, f) =>
              due f = true ->
              nextFrameStart (after f) = nextFrameStart before + 1000 / R)
      (run nows s).

(** ** The screen and its buffer *)

(** [WIDTH] and [HEIGHT] are macros of the header, which is not part of the
    sources at hand; [fillScreen] documents the buffer as 128*64 pixels in
    1024 bytes and stores exactly 4 * 256 bytes. *)
Definition WIDTH : Z := 128.
Definition HEIGHT : Z := 64.

Definition BLACK : Z := 0.
Definition WHITE : Z := 1.
Definition INVERT : Z := 2.

(** [sBuffer]: one byte for each column of each band of eight scanlines. *)
Abbreviation Buf := (list Z).

Definition buf_size : Z := WIDTH * HEIGHT / 8.

Definition blank : Buf := replicate (Z.to_nat buf_size) 0.

(** A drawing operation: it transforms the buffer or goes wrong. *)
Definition cmd : Type := Buf -> result Buf.

Definition skip : cmd := fun b => Ok b.

Definition seq (c1 c2 : cmd) : cmd := fun b => let* b1 := c1 b in c2 b1.

Infix ">>" := seq (at level 62, right associativity).

(** [sBuffer[i]] as an rvalue. *)
Definition load (i : Z) (b : Buf) : result Z :=
  if i <? 0 then Fault
  else match b !! Z.to_nat i with
       | Some v => Ok v
       | None => Fault
       end.

(** [sBuffer[i] = v]; the stored value is converted to [uint8_t]. *)
Definition store (i v : Z) : cmd := fun b =>
  if (0 <=? i) && (i <? Z.of_nat (length b))
  then Ok (<[Z.to_nat i := u8 v]> b)
  else Fault.

(** The compound assignments [sBuffer[i] |= m], [&= m] and [^= m]. *)
Definition modify (f : Z -> Z) (i : Z) : cmd := fun b =>
  let* v := load i b in store i (f v) b.

Definition or_assign (i m : Z) : cmd := modify (fun v => Z.lor v m) i.
Definition and_assign (i m : Z) : cmd := modify (fun v => Z.land v m) i.
Definition xor_assign (i m : Z) : cmd := modify (fun v => Z.lxor v m) i.

(** [pgm_read_byte(p + i)]: program memory is a total map from offsets
    (relative to the pointer [p]) to bytes. *)
Definition pgm : Type := Z -> Z.

Definition pgm_read_byte (p : pgm) (i : Z) : Z := u8 (p i).

Definition pgm_of_list (l : list Z) : pgm :=
  fun i => if i <? 0 then 0 else default 0 (l !! Z.to_nat i).

Section Graphics.

(** Whether the library is compiled with [PIXEL_SAFE_MODE] defined. *)
Variable PIXEL_SAFE_MODE : bool.

(** The glyph table of [glcdfont.c], five bytes for each character. *)
Variable font : pgm.

Definition drawPixel (x y color : Z) : cmd := fun b =>
  if PIXEL_SAFE_MODE &&
     ((x <? 0) || (x >? WIDTH - 1) || (y <? 0) || (y >? HEIGHT - 1))
  then Ok b
  else
    let row := u8 (u8 y / 8) in
    if truthy color
    then or_assign (row * WIDTH + u8 x) (_BV (u8 y mod 8)) b
    else and_assign (row * WIDTH + u8 x) (Z.lnot (_BV (u8 y mod 8))) b.

Definition getPixel (x y : Z) (b : Buf) : result Z :=
  let x := u8 x in
  let y := u8 y in
  let row := u8 (y / 8) in
  let bit_position := u8 (y mod 8) in
  let* v := load (row * WIDTH + x) b in
  Ok (u8 (Z.shiftr (Z.land v (_BV bit_position)) bit_position)).

(** [fillScreen]: the assembly loop stores the byte 4 * 256 times from
    the start of [sBuffer]. *)
Definition fillScreen (color : Z) : cmd := fun b =>
  if Z.of_nat (length b) <? 4 * 256 then Fault
  else
    let v := if truthy color then 255 else 0 in
    Ok (replicate (Z.to_nat (4 * 256)) v ++ drop (Z.to_nat (4 * 256)) b).

Definition clear : cmd := fillScreen BLACK.

(** [swap(a, b)] on two [int16_t] references. *)
Definition swap (ab : Z * Z) : Z * Z :=
  let temp := fst ab in (snd ab, temp).

(** [while (w--) { *pBuf++ op= mask; }] *)
Fixpoint hline_loop (assign : Z -> Z -> cmd) (mask : Z) (w : nat) (pBuf : Z)
  : cmd :=
  match w with
  | O => skip
  | S w' => assign pBuf mask >> hline_loop assign mask w' (pBuf + 1)
  end.

Definition drawFastHLine (x y w color : Z) : cmd :=
  if (y <? 0) || (y >=? HEIGHT) then skip
  else
    (* if (x < 0) { w += x; x = 0; } with w an uint8_t *)
    let '(w, x) := if x <? 0 then (u8 (w + x), 0) else (w, x) in
    (* if ((x + w) > WIDTH) w = (WIDTH - x); *)
    let w := if i16 (x + w) >? WIDTH then u8 (WIDTH - x) else w in
    if w <=? 0 then skip
    else
      let pBuf := (y / 8) * WIDTH + x in
      let mask := u8 (Z.shiftl 1 (Z.land y 7)) in
      if color =? WHITE then hline_loop or_assign mask (Z.to_nat w) pBuf
      else if color =? BLACK
           then hline_loop and_assign (u8 (Z.lnot mask)) (Z.to_nat w) pBuf
           else skip.

(** Division of two [int16_t] values; the quotient truncates towards
    zero. *)
Definition div16 (a b : Z) : result Z :=
  if b =? 0 then Fault else Ok (i16 (Z.quot a b)).

(** The two scanline loops of [fillTriangle] have one shape,
    [for (; y <= last; y++) { a = xa + sa / dya; b = xb + sb / dyb;
    sa += dxa; sb += dxb; if (a > b) swap(a,b);
    drawFastHLine(a, y, b-a+1, color); }]; the loop returns the final
    values of [y], [sa], [sb] with the buffer. *)
Fixpoint scanlines (fuel : nat) (xa dxa dya xb dxb dyb last color : Z)
  (y sa sb : Z) (buf : Buf) : result (Z * Buf) :=
  if y <=? last then
    match fuel with
    | O => Timeout
    | S fuel' =>
        let* qa := div16 sa dya in
        let a := i16 (xa + qa) in
        let* qb := div16 sb dyb in
        let b := i16 (xb + qb) in
        let sa := i16 (sa + dxa) in
        let sb := i16 (sb + dxb) in
        let '(a, b) := if a >? b then swap (a, b) else (a, b) in
        let* buf := drawFastHLine a y (u8 (b - a + 1)) color buf in
        scanlines fuel' xa dxa dya xb dxb dyb last color
          (i16 (y + 1)) sa sb buf
    end
  else Ok (y, buf).

(** The part of [fillTriangle] after the three sorting statements. *)
Definition fillTriangle_sorted (fuel : nat) (x0 y0 x1 y1 x2 y2 color : Z)
  : cmd := fun buf =>
  if y0 =? y2 then
    let a := x0 in
    let b := x0 in
    let '(a, b) := if x1 <? a then (x1, b)
                   else if x1 >? b then (a, x1) else (a, b) in
    let '(a, b) := if x2 <? a then (x2, b)
                   else if x2 >? b then (a, x2) else (a, b) in
    drawFastHLine a y0 (u8 (b - a + 1)) color buf
  else
    let dx01 := i16 (x1 - x0) in
    let dy01 := i16 (y1 - y0) in
    let dx02 := i16 (x2 - x0) in
    let dy02 := i16 (y2 - y0) in
    let dx12 := i16 (x2 - x1) in
    let dy12 := i16 (y2 - y1) in
    let last := if y1 =? y2 then y1 else i16 (y1 - 1) in
    let* r := scanlines fuel x0 dx01 dy01 x0 dx02 dy02 last color
                y0 0 0 buf in
    let '(y, buf) := r in
    let sa := i16 (dx12 * i16 (y - y1)) in
    let sb := i16 (dx02 * i16 (y - y0)) in
    let* r := scanlines fuel x1 dx12 dy12 x0 dx02 dy02 y2 color
                y sa sb buf in
    Ok (snd r).

(** [fillTriangle].  The sorting statements are written
    [if (y0 > y1) swap(y0, y1); swap(x0, x1);] without braces: only the
    swap of the y coordinates is guarded by the comparison, the swap of
    the x coordinates is a statement of its own. *)
Definition fillTriangle (fuel : nat) (x0 y0 x1 y1 x2 y2 color : Z) : cmd :=
  let '(y0, y1) := if y0 >? y1 then swap (y0, y1) else (y0, y1) in
  let '(x0, x1) := swap (x0, x1) in
  let '(y2, y1) := if y1 >? y2 then swap (y2, y1) else (y2, y1) in
  let '(x2, x1) := swap (x2, x1) in
  let '(y0, y1) := if y0 >? y1 then swap (y0, y1) else (y0, y1) in
  let '(x0, x1) := swap (x0, x1) in
  fillTriangle_sorted fuel x0 y0 x1 y1 x2 y2 color.

(** The test both blitters start with,
    [x+w < 0 || x > WIDTH-1 || y+h < 0 || y > HEIGHT-1]. *)
Definition offscreen (x y w h : Z) : bool :=
  (i16 (x + w) <? 0) || (x >? WIDTH - 1) ||
  (i16 (y + h) <? 0) || (y >? HEIGHT - 1).

(** One of the three write modes of [drawBitmap] applied to
    [sBuffer[i]] with the shifted source byte [v]. *)
Definition blit (color i v : Z) : cmd :=
  if color =? WHITE then or_assign i v
  else if color =? BLACK then and_assign i (Z.lnot v)
       else xor_assign i v.

(** The loop over [iCol] of [drawBitmap]; [n] iterations are left. *)
Fixpoint bitmap_cols (n : nat) (x : Z) (bitmap : pgm) (w color : Z)
  (yOffset a bRow : Z) (iCol : Z) : cmd :=
  match n with
  | O => skip
  | S n' =>
      if iCol + x >? WIDTH - 1 then skip (* break *)
      else
        (if iCol + x >=? 0 then
           (if bRow >=? 0
            then blit color (bRow * WIDTH + x + iCol)
                   (Z.shiftl (pgm_read_byte bitmap (a * w + iCol)) yOffset)
            else skip) >>
           (if truthy yOffset && (bRow <? HEIGHT / 8 - 1) && (bRow >? -2)
            then blit color ((bRow + 1) * WIDTH + x + iCol)
                   (Z.shiftr (pgm_read_byte bitmap (a * w + iCol))
                      (8 - yOffset))
            else skip)
         else skip) >>
        bitmap_cols n' x bitmap w color yOffset a bRow (iCol + 1)
  end.

(** The loop over [a] of [drawBitmap]; [n] iterations are left. *)
Fixpoint bitmap_rows (n : nat) (x : Z) (bitmap : pgm) (w color : Z)
  (yOffset sRow : Z) (a : Z) : cmd :=
  match n with
  | O => skip
  | S n' =>
      let bRow := sRow + a in
      if bRow >? HEIGHT / 8 - 1 then skip (* break *)
      else
        (if bRow >? -2
         then bitmap_cols (Z.to_nat w) x bitmap w color yOffset a bRow 0
         else skip) >>
        bitmap_rows n' x bitmap w color yOffset sRow (a + 1)
  end.

Definition drawBitmap (x y : Z) (bitmap : pgm) (w h color : Z) : cmd :=
  if offscreen x y w h then skip
  else
    let yOffset := Z.rem (Z.abs y) 8 in
    let sRow := Z.quot y 8 in
    let '(sRow, yOffset) :=
      if y <? 0 then (sRow - 1, 8 - yOffset) else (sRow, yOffset) in
    let rows := Z.quot h 8 in
    let rows := if negb (Z.rem h 8 =? 0) then rows + 1 else rows in
    bitmap_rows (Z.to_nat rows) x bitmap w color yOffset sRow 0.

(** The loop over [xi] of [drawSlowXYBitmap]. *)
Fixpoint slow_cols (n : nat) (x y : Z) (bitmap : pgm) (color : Z)
  (byteWidth yi : Z) (xi : Z) : cmd :=
  match n with
  | O => skip
  | S n' =>
      (if truthy (Z.land (pgm_read_byte bitmap (yi * byteWidth + Z.quot xi 8))
                    (Z.shiftr 128 (Z.land xi 7)))
       then drawPixel (x + xi) (y + yi) color
       else skip) >>
      slow_cols n' x y bitmap color byteWidth yi (xi + 1)
  end.

(** The loop over [yi] of [drawSlowXYBitmap]. *)
Fixpoint slow_rows (n : nat) (x y : Z) (bitmap : pgm) (w color : Z)
  (byteWidth : Z) (yi : Z) : cmd :=
  match n with
  | O => skip
  | S n' =>
      slow_cols (Z.to_nat w) x y bitmap color byteWidth yi 0 >>
      slow_rows n' x y bitmap w color byteWidth (yi + 1)
  end.

Definition drawSlowXYBitmap (x y : Z) (bitmap : pgm) (w h color : Z) : cmd :=
  if offscreen x y w h then skip
  else
    let byteWidth := Z.quot (w + 7) 8 in
    slow_rows (Z.to_nat h) x y bitmap w color byteWidth 0.

(** The loops over [b] and [a] of [drawChar]: a square of [size] by
    [size] pixels. *)
Fixpoint char_b (n : nat) (px y j size draw_color : Z) (b : Z) : cmd :=
  match n with
  | O => skip
  | S n' =>
      drawPixel px (y + j * size + b) draw_color >>
      char_b n' px y j size draw_color (b + 1)
  end.

Fixpoint char_a (n : nat) (x y i j size draw_color : Z) (a : Z) : cmd :=
  match n with
  | O => skip
  | S n' =>
      char_b (Z.to_nat size) (x + i * size + a) y j size draw_color 0 >>
      char_a n' x y i j size draw_color (a + 1)
  end.

(** The loop over [j] of [drawChar]: the eight cells of one glyph column,
    [line] shifted right after each cell. *)
Fixpoint char_j (n : nat) (x y i color bg size : Z) (draw_background : bool)
  (line : Z) (j : Z) : cmd :=
  match n with
  | O => skip
  | S n' =>
      let draw_color := if truthy (Z.land line 1) then color else bg in
      (if truthy draw_color || draw_background
       then char_a (Z.to_nat size) x y i j size draw_color 0
       else skip) >>
      char_j n' x y i color bg size draw_background (Z.shiftr line 1) (j + 1)
  end.

(** The loop over [i] of [drawChar]: five glyph columns and a blank one. *)
Fixpoint char_i (n : nat) (x y c color bg size : Z) (draw_background : bool)
  (i : Z) : cmd :=
  match n with
  | O => skip
  | S n' =>
      let line := if i =? 5 then 0 else pgm_read_byte font (5 * c + i) in
      char_j 8 x y i color bg size draw_background line 0 >>
      char_i n' x y c color bg size draw_background (i + 1)
  end.

Definition drawChar (x y c color bg size : Z) : cmd :=
  let draw_background := negb (bg =? color) in
  if (x >=? WIDTH) || (y >=? HEIGHT) ||
     (i16 (x + 5 * size - 1) <? 0) || (i16 (y + 8 * size - 1) <? 0)
  then skip
  else char_i 6 x y c color bg size draw_background 0.

(** *** Text cursor *)

(** The class [Arduboy]: its base, the (static) screen buffer and the
    text members.  The cursor is a pair of [int16_t], the text size an
    [uint8_t]. *)
Record Arduboy : Type := mkArduboy {
  base : ArduboyBase;
  sBuffer : Buf;
  cursor_x : Z;
  cursor_y : Z;
  textColor : Z;
  textBackground : Z;
  textSize : Z;
  textWrap : bool
}.

Definition set_buffer (s : Arduboy) (b : Buf) : Arduboy :=
  mkArduboy (base s) b (cursor_x s) (cursor_y s) (textColor s)
    (textBackground s) (textSize s) (textWrap s).

Definition set_cursor (s : Arduboy) (x y : Z) : Arduboy :=
  mkArduboy (base s) (sBuffer s) x y (textColor s)
    (textBackground s) (textSize s) (textWrap s).

Definition newline_char : Z := 10.
Definition return_char : Z := 13.

(** [write]; [depth] bounds the nesting of the call [write('\n')] the
    function makes on itself. *)
Fixpoint write_rec (depth : nat) (c : Z) (s : Arduboy) : result Arduboy :=
  match depth with
  | O => Timeout
  | S depth' =>
      if c =? newline_char then
        Ok (set_cursor s 0 (i16 (cursor_y s + textSize s * 8)))
      else if c =? return_char then Ok s (* skip carriage returns *)
      else
        let* b := drawChar (cursor_x s) (cursor_y s) c (textColor s)
                    (textBackground s) (textSize s) (sBuffer s) in
        let s := set_buffer s b in
        let s := set_cursor s (i16 (cursor_x s + textSize s * 6))
                   (cursor_y s) in
        if textWrap s && (cursor_x s >? WIDTH - textSize s * 6)
        then write_rec depth' newline_char s
        else Ok s
  end.

Definition write (c : Z) (s : Arduboy) : result Arduboy := write_rec 2 c s.

(** [Arduboy::clear]: the screen is cleared and the cursor goes back to
    the origin. *)
Definition Arduboy_clear (s : Arduboy) : result Arduboy :=
  let* b := clear (sBuffer s) in
  Ok (set_cursor (set_buffer s b) 0 0).

Definition setCursor (x y : Z) (s : Arduboy) : Arduboy := set_cursor s x y.

(** [setTextSize]: [textSize = max(1, s)]. *)
Definition setTextSize (size : Z) (s : Arduboy) : Arduboy :=
  mkArduboy (base s) (sBuffer s) (cursor_x s) (cursor_y s) (textColor s)
    (textBackground s) (u8 (Z.max 1 size)) (textWrap s).

(** *** More of the rasteriser *)

(** The loop of [drawFastVLine]; [n] iterations are left. *)
Fixpoint vline_loop (n : nat) (x color : Z) (a : Z) : cmd :=
  match n with
  | O => skip
  | S n' => drawPixel x a color >> vline_loop n' x color (a + 1)
  end.

(** [drawFastVLine]: [int end = y+h;
    for (int a = max(0,y); a < min(end,HEIGHT); a++) drawPixel(x,a,color);] *)
Definition drawFastVLine (x y h color : Z) : cmd :=
  let end_ := i16 (y + h) in
  let a := Z.max 0 y in
  vline_loop (Z.to_nat (Z.min end_ HEIGHT - a)) x color a.

(** The loop of [fillRect]; [n] iterations are left. *)
Fixpoint rect_loop (n : nat) (y h color : Z) (i : Z) : cmd :=
  match n with
  | O => skip
  | S n' => drawFastVLine i y h color >> rect_loop n' y h color (i + 1)
  end.

(** [fillRect]: [for (int16_t i=x; i<x+w; i++) drawFastVLine(i, y, h, color);] *)
Definition fillRect (x y w h color : Z) : cmd :=
  rect_loop (Z.to_nat (i16 (x + w) - x)) y h color x.

Definition drawRect (x y w h color : Z) : cmd :=
  drawFastHLine x y w color >>
  drawFastHLine x (i16 (y + h - 1)) w color >>
  drawFastVLine x y h color >>
  drawFastVLine (i16 (x + w - 1)) y h color.

(** The macro [abs] applied to an [int]. *)
Definition abs_int (z : Z) : Z := i16 (Z.abs z).

(** The loop of [drawLine],
    [for (; x0 <= x1; x0++) { if (steep) drawPixel(y0, x0, color);
    else drawPixel(x0, y0, color); err -= dy;
    if (err < 0) { y0 += ystep; err += dx; } }]. *)
Fixpoint line_loop (fuel : nat) (steep : bool) (x1 dx dy ystep color : Z)
  (x0 y0 err : Z) : cmd :=
  if x0 <=? x1 then
    match fuel with
    | O => fun _ => Timeout
    | S fuel' =>
        (if steep then drawPixel y0 x0 color else drawPixel x0 y0 color) >>
        (let err := i16 (err - dy) in
         let '(y0, err) :=
           if err <? 0 then (i16 (y0 + ystep), i16 (err + dx))
           else (y0, err) in
         line_loop fuel' steep x1 dx dy ystep color (i16 (x0 + 1)) y0 err)
    end
  else skip.

(** [drawLine], Bresenham's algorithm. *)
Definition drawLine (fuel : nat) (x0 y0 x1 y1 color : Z) : cmd :=
  let steep := abs_int (i16 (y1 - y0)) >? abs_int (i16 (x1 - x0)) in
  let '(x0, y0) := if steep then swap (x0, y0) else (x0, y0) in
  let '(x1, y1) := if steep then swap (x1, y1) else (x1, y1) in
  let '(xs, ys) :=
    if x0 >? x1 then (swap (x0, x1), swap (y0, y1))
    else ((x0, x1), (y0, y1)) in
  let '(x0, x1) := xs in
  let '(y0, y1) := ys in
  let dx := i16 (x1 - x0) in
  let dy := i16 (abs_int (i16 (y1 - y0))) in
  let err := i16 (Z.quot dx 2) in
  let ystep := if y0 <? y1 then 1 else -1 in
  line_loop fuel steep x1 dx dy ystep color x0 y0 err.

Definition drawTriangle (fuel : nat) (x0 y0 x1 y1 x2 y2 color : Z) : cmd :=
  drawLine fuel x0 y0 x1 y1 color >>
  drawLine fuel x1 y1 x2 y2 color >>
  drawLine fuel x2 y2 x0 y0 color.

(** The loop of [drawCircle]: the midpoint algorithm, eight pixels for
    each step. *)
Fixpoint circle_loop (fuel : nat) (x0 y0 color : Z) (f ddF_x ddF_y x y : Z)
  : cmd :=
  if x <? y then
    match fuel with
    | O => fun _ => Timeout
    | S fuel' =>
        let '(y, ddF_y, f) :=
          if f >=? 0
          then (i16 (y - 1), i16 (ddF_y + 2), i16 (f + i16 (ddF_y + 2)))
          else (y, ddF_y, f) in
        let x := i16 (x + 1) in
        let ddF_x := i16 (ddF_x + 2) in
        let f := i16 (f + ddF_x) in
        drawPixel (i16 (x0 + x)) (i16 (y0 + y)) color >>
        drawPixel (i16 (x0 - x)) (i16 (y0 + y)) color >>
        drawPixel (i16 (x0 + x)) (i16 (y0 - y)) color >>
        drawPixel (i16 (x0 - x)) (i16 (y0 - y)) color >>
        drawPixel (i16 (x0 + y)) (i16 (y0 + x)) color >>
        drawPixel (i16 (x0 - y)) (i16 (y0 + x)) color >>
        drawPixel (i16 (x0 + y)) (i16 (y0 - x)) color >>
        drawPixel (i16 (x0 - y)) (i16 (y0 - x)) color >>
        circle_loop fuel' x0 y0 color f ddF_x ddF_y x y
    end
  else skip.

(** [drawCircle]; the radius is an [uint8_t], so the loop, in which [x]
    grows up to [y <= r], ends within 256 steps. *)
Definition drawCircle (x0 y0 r color : Z) : cmd :=
  drawPixel x0 (i16 (y0 + r)) color >>
  drawPixel x0 (i16 (y0 - r)) color >>
  drawPixel (i16 (x0 + r)) y0 color >>
  drawPixel (i16 (x0 - r)) y0 color >>
  circle_loop 256 x0 y0 color (i16 (1 - r)) 1 (i16 (-2 * r)) 0 r.

(** The loop of [drawCircleHelper]: the loop of [drawCircle] with each
    pair of pixels drawn only if the bit of its quadrant is set in
    [cornername]. *)
Fixpoint corner_loop (fuel : nat) (x0 y0 cornername color : Z)
  (f ddF_x ddF_y x y : Z) : cmd :=
  if x <? y then
    match fuel with
    | O => fun _ => Timeout
    | S fuel' =>
        let '(y, ddF_y, f) :=
          if f >=? 0
          then (i16 (y - 1), i16 (ddF_y + 2), i16 (f + i16 (ddF_y + 2)))
          else (y, ddF_y, f) in
        let x := i16 (x + 1) in
        let ddF_x := i16 (ddF_x + 2) in
        let f := i16 (f + ddF_x) in
        (if truthy (Z.land cornername 4)
         then drawPixel (i16 (x0 + x)) (i16 (y0 + y)) color >>
              drawPixel (i16 (x0 + y)) (i16 (y0 + x)) color
         else skip) >>
        (if truthy (Z.land cornername 2)
         then drawPixel (i16 (x0 + x)) (i16 (y0 - y)) color >>
              drawPixel (i16 (x0 + y)) (i16 (y0 - x)) color
         else skip) >>
        (if truthy (Z.land cornername 8)
         then drawPixel (i16 (x0 - y)) (i16 (y0 + x)) color >>
              drawPixel (i16 (x0 - x)) (i16 (y0 + y)) color
         else skip) >>
        (if truthy (Z.land cornername 1)
         then drawPixel (i16 (x0 - y)) (i16 (y0 - x)) color >>
              drawPixel (i16 (x0 - x)) (i16 (y0 - y)) color
         else skip) >>
        corner_loop fuel' x0 y0 cornername color f ddF_x ddF_y x y
    end
  else skip.

Definition drawCircleHelper (x0 y0 r cornername color : Z) : cmd :=
  corner_loop 256 x0 y0 cornername color (i16 (1 - r)) 1 (i16 (-2 * r)) 0 r.

(** The loop of [fillCircleHelper]: columns in place of pixels; the
    height [2*y+1+delta], an [int], becomes the [uint8_t] parameter of
    [drawFastVLine]. *)
Fixpoint fill_loop (fuel : nat) (x0 y0 cornername delta color : Z)
  (f ddF_x ddF_y x y : Z) : cmd :=
  if x <? y then
    match fuel with
    | O => fun _ => Timeout
    | S fuel' =>
        let '(y, ddF_y, f) :=
          if f >=? 0
          then (i16 (y - 1), i16 (ddF_y + 2), i16 (f + i16 (ddF_y + 2)))
          else (y, ddF_y, f) in
        let x := i16 (x + 1) in
        let ddF_x := i16 (ddF_x + 2) in
        let f := i16 (f + ddF_x) in
        (if truthy (Z.land cornername 1)
         then drawFastVLine (i16 (x0 + x)) (i16 (y0 - y))
                (u8 (i16 (2 * y + 1 + delta))) color >>
              drawFastVLine (i16 (x0 + y)) (i16 (y0 - x))
                (u8 (i16 (2 * x + 1 + delta))) color
         else skip) >>
        (if truthy (Z.land cornername 2)
         then drawFastVLine (i16 (x0 - x)) (i16 (y0 - y))
                (u8 (i16 (2 * y + 1 + delta))) color >>
              drawFastVLine (i16 (x0 - y)) (i16 (y0 - x))
                (u8 (i16 (2 * x + 1 + delta))) color
         else skip) >>
        fill_loop fuel' x0 y0 cornername delta color f ddF_x ddF_y x y
    end
  else skip.

Definition fillCircleHelper (x0 y0 r cornername delta color : Z) : cmd :=
  fill_loop 256 x0 y0 cornername delta color
    (i16 (1 - r)) 1 (i16 (-2 * r)) 0 r.

Definition fillCircle (x0 y0 r color : Z) : cmd :=
  drawFastVLine x0 (i16 (y0 - r)) (u8 (i16 (2 * r + 1))) color >>
  fillCircleHelper x0 y0 r 3 0 color.

Definition drawRoundRect (x y w h r color : Z) : cmd :=
  drawFastHLine (i16 (x + r)) y (u8 (i16 (w - 2 * r))) color >>
  drawFastHLine (i16 (x + r)) (i16 (y + h - 1)) (u8 (i16 (w - 2 * r)))
    color >>
  drawFastVLine x (i16 (y + r)) (u8 (i16 (h - 2 * r))) color >>
  drawFastVLine (i16 (x + w - 1)) (i16 (y + r)) (u8 (i16 (h - 2 * r)))
    color >>
  drawCircleHelper (i16 (x + r)) (i16 (y + r)) r 1 color >>
  drawCircleHelper (i16 (x + w - r - 1)) (i16 (y + r)) r 2 color >>
  drawCircleHelper (i16 (x + w - r - 1)) (i16 (y + h - r - 1)) r 4 color >>
  drawCircleHelper (i16 (x + r)) (i16 (y + h - r - 1)) r 8 color.

Definition fillRoundRect (x y w h r color : Z) : cmd :=
  fillRect (i16 (x + r)) y (u8 (i16 (w - 2 * r))) h color >>
  fillCircleHelper (i16 (x + w - r - 1)) (i16 (y + r)) r 1
    (i16 (h - 2 * r - 1)) color >>
  fillCircleHelper (i16 (x + r)) (i16 (y + r)) r 2
    (i16 (h - 2 * r - 1)) color.

(** *** Vocabulary of the statements *)

Definition on_screen (x y : Z) : Prop :=
  0 <= x < WIDTH /\ 0 <= y < HEIGHT.

(** The byte of [sBuffer] that holds pixel [(x, y)]. *)
Definition byte_index (x y : Z) : Z := (y / 8) * WIDTH + x.

(** A pixel [drawPixel] can be given: any at all when the bounds test
    is compiled in, one of the screen otherwise. *)
Definition drawable (x y : Z) : Prop :=
  PIXEL_SAFE_MODE = true \/ on_screen x y.

(** A drawing operation that returns on every buffer of the screen's
    size, with a buffer of that size. *)
Definition total (c : cmd) : Prop :=
  forall b : Buf, Z.of_nat (length b) = buf_size ->
    exists b', c b = Ok b' /\ Z.of_nat (length b') = buf_size.

(** The glyph cell of a character drawn at [(x, y)] lies on the screen. *)
Definition cell_on_screen (x y size : Z) : Prop :=
  0 <= x /\ x + 6 * size <= WIDTH /\ 0 <= y /\ y + 8 * size <= HEIGHT.

(** The bounding box [[x, x+w)] by [[y, y+h)] has no pixel on the
    screen. *)
Definition box_misses_screen (x y w h : Z) : Prop :=
  forall px py, x <= px < x + w -> y <= py < y + h -> ~ on_screen px py.

(** The sort the specification describes: the three vertices ordered by
    ascending y with a stable three-element sort, each x staying with its
    y. *)
Definition sort_by_y (v0 v1 v2 : Z * Z) : (Z * Z) * (Z * Z) * (Z * Z) :=
  let '(v0, v1) := if snd v0 >? snd v1 then (v1, v0) else (v0, v1) in
  let '(v1, v2) := if snd v1 >? snd v2 then (v2, v1) else (v1, v2) in
  let '(v0, v1) := if snd v0 >? snd v1 then (v1, v0) else (v0, v1) in
  (v0, v1, v2).

(** The fill the specification describes: sort the vertices, then scan. *)
Definition fillTriangle_paired (fuel : nat) (x0 y0 x1 y1 x2 y2 color : Z)
  : cmd :=
  let '(v0, v1, v2) := sort_by_y (x0, y0) (x1, y1) (x2, y2) in
  fillTriangle_sorted fuel (fst v0) (snd v0) (fst v1) (snd v1)
    (fst v2) (snd v2) color.

(** The pixel [(x, y)] of the buffer an operation returns. *)
Definition pixel_after (c : cmd) (x y : Z) (b : Buf) : result Z :=
  let* b' := c b in getPixel x y b'.

(** The source byte of row [a] and column [i] of a bitmap [w] wide. *)
Definition src_byte (bitmap : pgm) (w a i : Z) : Z :=
  pgm_read_byte bitmap (a * w + i).

(** The value of the byte of band [t] and column [c] after a [WHITE]
    [drawBitmap] of [rows] source rows on a buffer of zeros: the low
    bits of the source byte of band [t - sRow], shifted up, and the high
    bits of the one above, shifted down. *)
Definition blit_value (x : Z) (bitmap : pgm) (w rows yOffset sRow : Z)
  (t c : Z) : Z :=
  Z.lor
    (if (0 <=? t - sRow) && (t - sRow <? rows)
     then if (0 <=? c - x) && (c - x <? w)
          then u8 (Z.shiftl (src_byte bitmap w (t - sRow) (c - x)) yOffset)
          else 0
     else 0)
    (if (0 <=? t - sRow - 1) && (t - sRow - 1 <? rows)
     then if (0 <=? c - x) && (c - x <? w) && truthy yOffset
          then u8 (Z.shiftr (src_byte bitmap w (t - sRow - 1) (c - x))
                     (8 - yOffset))
          else 0
     else 0).

(** Every element of the buffer is a byte. *)
Definition bytes (b : Buf) : Prop :=
  forall (k : nat) v, b !! k = Some v -> 0 <= v < 256.

(** [b'] is [b] with [C k] or-ed into the element of index [k]. *)
Definition ored (C : Z -> Z) (b b' : Buf) : Prop :=
  length b' = length b /\
  forall (k : nat) v,
    b !! k = Some v -> b' !! k = Some (Z.lor v (C (Z.of_nat k))).

(** An operation that, on a buffer of bytes of the screen's size, or-s
    [C k] into the element of index [k]. *)
Definition ors (c : cmd) (C : Z -> Z) : Prop :=
  forall b : Buf, Z.of_nat (length b) = buf_size -> bytes b ->
    exists b', c b = Ok b' /\ ored C b b' /\ bytes b'.

(** [F i k | F (i+1) k | ... | F (i+n-1) k] *)
Fixpoint bigor (F : Z -> Z -> Z) (i : Z) (n : nat) (k : Z) : Z :=
  match n with
  | O => 0
  | S n' => Z.lor (F i k) (bigor F (i + 1) n' k)
  end.

(** What iteration [iCol] of the column loop of a [WHITE] [drawBitmap]
    or-s into the element of index [k]. *)
Definition col_hit (x : Z) (bitmap : pgm) (w yOffset a bRow : Z)
  (iCol k : Z) : Z :=
  if iCol + x >? WIDTH - 1 then 0
  else if iCol + x >=? 0 then
    Z.lor
      (if bRow >=? 0
       then if k =? bRow * WIDTH + x + iCol
            then u8 (Z.shiftl (pgm_read_byte bitmap (a * w + iCol)) yOffset)
            else 0
       else 0)
      (if truthy yOffset && (bRow <? HEIGHT / 8 - 1) && (bRow >? -2)
       then if k =? (bRow + 1) * WIDTH + x + iCol
            then u8 (Z.shiftr (pgm_read_byte bitmap (a * w + iCol))
                       (8 - yOffset))
            else 0
       else 0)
  else 0.

(** What iteration [a] of the row loop or-s into the element of index
    [k]. *)
Definition row_hit (x : Z) (bitmap : pgm) (w yOffset sRow : Z)
  (a k : Z) : Z :=
  let bRow := sRow + a in
  if bRow >? HEIGHT / 8 - 1 then 0
  else if bRow >? -2
       then bigor (col_hit x bitmap w yOffset a bRow) 0 (Z.to_nat w) k
       else 0.

(** The band and the bit offset [drawBitmap] computes from [y]. *)
Definition band_offset (y : Z) : Z * Z :=
  let yOffset := Z.rem (Z.abs y) 8 in
  let sRow := Z.quot y 8 in
  if y <? 0 then (sRow - 1, 8 - yOffset) else (sRow, yOffset).

(** The number of source rows [drawBitmap] blits. *)
Definition band_rows (h : Z) : Z :=
  let rows := Z.quot h 8 in
  if negb (Z.rem h 8 =? 0) then rows + 1 else rows.

(** What an operation does to the pixels of the screen: on every buffer
    of the screen's size it returns a buffer of that size in which the
    pixel [(px, py)] reads [v] if [F px py = Some v] and reads as before
    if [F px py = None]. *)
Definition renders (c : cmd) (F : Z -> Z -> option bool) : Prop :=
  forall b : Buf, Z.of_nat (length b) = buf_size ->
    exists b', c b = Ok b' /\ Z.of_nat (length b') = buf_size /\
      forall px py, on_screen px py ->
        getPixel px py b' =
        match F px py with
        | Some v => Ok (Z.b2z v)
        | None => getPixel px py b
        end.

(** [F2] drawn over [F1]. *)
Definition over (F1 F2 : Z -> Z -> option bool) : Z -> Z -> option bool :=
  fun px py =>
    match F2 px py with
    | Some v => Some v
    | None => F1 px py
    end.

(** [F i], [F (i+1)], ... [F (i+n-1)] drawn one over the other. *)
Fixpoint lay (F : Z -> Z -> Z -> option bool) (i : Z) (n : nat) (px py : Z)
  : option bool :=
  match n with
  | O => None
  | S n' =>
      match lay F (i + 1) n' px py with
      | Some v => Some v
      | None => F i px py
      end
  end.

(** The single pixel [(x, y)] set to [v]. *)
Definition dot (x y : Z) (v : bool) : Z -> Z -> option bool :=
  fun px py => if (px =? x) && (py =? y) then Some v else None.

(** The pixels of a set, all set to [v]. *)
Definition paint (P : Z -> Z -> bool) (v : bool) : Z -> Z -> option bool :=
  fun px py => if P px py then Some v else None.

(** The operation a write mode of [drawBitmap] applies to a byte of the
    buffer, its neutral mask, and the mask it makes of a shifted source
    byte. *)
Definition blit_op (color : Z) : Z -> Z -> Z :=
  if color =? WHITE then Z.lor
  else if color =? BLACK then Z.land else Z.lxor.

Definition blit_unit (color : Z) : Z :=
  if color =? WHITE then 0 else if color =? BLACK then 255 else 0.

Definition blit_mask (color v : Z) : Z :=
  if color =? WHITE then v else if color =? BLACK then Z.lnot v else v.

(** [b'] is [b] with the mask [C k] applied to the element of index [k]
    in the write mode [color]. *)
Definition acted (color : Z) (C : Z -> Z) (b b' : Buf) : Prop :=
  length b' = length b /\
  forall (k : nat) v,
    b !! k = Some v -> b' !! k = Some (blit_op color v (C (Z.of_nat k))).

(** An operation that applies one byte mask for each index, in the write
    mode [color], to every buffer of bytes of the screen's size. *)
Definition acts (color : Z) (c : cmd) : Prop :=
  exists C : Z -> Z,
    (forall k, 0 <= C k < 256) /\
    forall b : Buf, Z.of_nat (length b) = buf_size -> bytes b ->
      exists b', c b = Ok b' /\ acted color C b b' /\ bytes b'.

(** An operation that sets pixels to [v] only: all those of [Lo], none
    outside [Hi], and leaves every other pixel of the screen as it was. *)
Definition sets (c : cmd) (v : bool) (Lo : Z -> Z -> bool)
  (Hi : Z -> Z -> Prop) : Prop :=
  exists P : Z -> Z -> bool,
    renders c (paint P v) /\
    (forall px py, Lo px py = true -> P px py = true) /\
    (forall px py, P px py = true -> Hi px py).

(** The square around the centre of a circle. *)
Definition in_square (x0 y0 r : Z) (px py : Z) : Prop :=
  x0 - r <= px <= x0 + r /\ y0 - r <= py <= y0 + r.

(** The square of [size] by [size] pixels that cell [(i, j)] of a glyph
    drawn at [(x, y)] covers. *)
Definition glyph_cell (x y size i j : Z) : Z -> Z -> bool :=
  fun px py =>
    (x + i * size <=? px) && (px <? x + i * size + size) &&
    (y + j * size <=? py) && (py <? y + j * size + size).

(** What cell [(i, j)] of a glyph column whose byte is [line] shows: the
    colour where bit [j] of the byte is 1, the background where it is 0,
    nothing where that colour is [BLACK] and the background is not
    drawn. *)
Definition cell_picture (x y size color bg : Z) (draw_background : bool)
  (line i j : Z) : Z -> Z -> option bool :=
  fun px py =>
    let draw_color := if Z.testbit line j then color else bg in
    if truthy draw_color || draw_background
    then paint (glyph_cell x y size i j) (truthy draw_color) px py
    else None.

(** What [drawChar] shows of the glyph of [c]: six columns of eight
    cells, pixel [(px, py)] lying in the cell of column [(px - x) / size]
    and row [(py - y) / size]; nothing when the five glyph columns are
    left of the screen. *)
Definition glyph_picture (x y c color bg size : Z) : Z -> Z -> option bool :=
  fun px py =>
    if (x + 5 * size <=? 0) then None
    else if (x <=? px) && (px <? x + 6 * size) &&
            (y <=? py) && (py <? y + 8 * size)
    then
      let i := (px - x) / size in
      let j := (py - y) / size in
      let draw_color :=
        if (i <? 5) && Z.testbit (pgm_read_byte font (5 * c + i)) j
        then color else bg in
      if truthy draw_color || negb (bg =? color)
      then Some (truthy draw_color) else None
    else None.

(** ** Properties of the frame buffer *)

(** *** Bytes and bits *)

Lemma u8_range z : 0 <= u8 z < 256.
Proof. unfold u8, unsigned. apply Z.mod_pos_bound. reflexivity. Qed.

Lemma u8_small z : 0 <= z < 256 -> u8 z = z.
Proof. intros H. unfold u8, unsigned. apply Z.mod_small. exact H. Qed.

Lemma u8_idem z : u8 (u8 z) = u8 z.
Proof. apply u8_small, u8_range. Qed.

Lemma testbit_u8 z k : Z.testbit (u8 z) k = (k <? 8) && Z.testbit z k.
Proof. unfold u8, unsigned. apply Z.testbit_mod_pow2. lia. Qed.

Lemma BV_pow2 k : _BV k = 2 ^ k.
Proof. unfold _BV. apply Z.shiftl_1_l. Qed.

Lemma land_pow2 v k :
  0 <= k -> Z.land v (2 ^ k) = if Z.testbit v k then 2 ^ k else 0.
Proof.
  intros Hk. apply Z.bits_inj'. intros n Hn.
  rewrite Z.land_spec, Z.pow2_bits_eqb by exact Hk.
  destruct (Z.eqb_spec k n) as [->|Hne].
  - destruct (Z.testbit v n); simpl.
    + symmetry. apply Z.pow2_bits_true. exact Hn.
    + symmetry. apply Z.bits_0.
  - rewrite andb_false_r.
    destruct (Z.testbit v k).
    + symmetry. apply Z.pow2_bits_false. exact Hne.
    + symmetry. apply Z.bits_0.
Qed.

(** What [getPixel] extracts from a byte. *)
Lemma get_bit v k :
  0 <= k < 8 ->
  u8 (Z.shiftr (Z.land v (_BV k)) k) = Z.b2z (Z.testbit v k).
Proof.
  intros Hk. rewrite BV_pow2, land_pow2 by lia.
  destruct (Z.testbit v k); simpl Z.b2z.
  - rewrite Z.shiftr_div_pow2 by lia.
    rewrite Z.div_same by (apply Z.pow_nonzero; lia).
    reflexivity.
  - rewrite Z.shiftr_0_l. reflexivity.
Qed.

(** The byte [sBuffer[i] |= _BV(k)] stores. *)
Lemma set_bit_spec old k n :
  0 <= k < 8 -> 0 <= n < 8 ->
  Z.testbit (u8 (Z.lor old (_BV k))) n =
  if n =? k then true else Z.testbit old n.
Proof.
  intros Hk Hn. rewrite testbit_u8, Z.lor_spec, BV_pow2.
  rewrite Z.pow2_bits_eqb by lia.
  replace (n <? 8) with true by (symmetry; apply Z.ltb_lt; lia).
  rewrite (Z.eqb_sym k n). simpl.
  destruct (n =? k).
  - apply orb_true_r.
  - apply orb_false_r.
Qed.

(** The byte [sBuffer[i] &= ~_BV(k)] stores. *)
Lemma clear_bit_spec old k n :
  0 <= k < 8 -> 0 <= n < 8 ->
  Z.testbit (u8 (Z.land old (Z.lnot (_BV k)))) n =
  if n =? k then false else Z.testbit old n.
Proof.
  intros Hk Hn. rewrite testbit_u8, Z.land_spec, BV_pow2.
  rewrite Z.lnot_spec by lia.
  rewrite Z.pow2_bits_eqb by lia.
  replace (n <? 8) with true by (symmetry; apply Z.ltb_lt; lia).
  rewrite (Z.eqb_sym k n). simpl.
  destruct (n =? k); simpl.
  - apply andb_false_r.
  - apply andb_true_r.
Qed.

(** Two bytes with the same eight low bits are equal. *)
Lemma byte_eq v w :
  0 <= v < 256 -> 0 <= w < 256 ->
  (forall n, 0 <= n < 8 -> Z.testbit v n = Z.testbit w n) -> v = w.
Proof.
  intros Hv Hw H.
  rewrite <- (u8_small v Hv), <- (u8_small w Hw).
  apply Z.bits_inj'. intros n Hn.
  rewrite !testbit_u8.
  destruct (Z.ltb_spec n 8) as [Hlt|Hge]; simpl.
  - apply H. lia.
  - reflexivity.
Qed.

(** *** Loads and stores *)

Lemma load_ok i b v :
  0 <= i -> b !! Z.to_nat i = Some v -> load i b = Ok v.
Proof.
  intros Hi Hv. unfold load.
  replace (i <? 0) with false by (symmetry; apply Z.ltb_ge; exact Hi).
  rewrite Hv. reflexivity.
Qed.

Lemma store_ok i v b :
  0 <= i < Z.of_nat (length b) ->
  store i v b = Ok (<[Z.to_nat i := u8 v]> b).
Proof.
  intros Hi. unfold store.
  replace (0 <=? i) with true by (symmetry; apply Z.leb_le; lia).
  replace (i <? Z.of_nat (length b)) with true
    by (symmetry; apply Z.ltb_lt; lia).
  reflexivity.
Qed.

Lemma lookup_in_range (b : Buf) i :
  0 <= i < Z.of_nat (length b) -> exists v, b !! Z.to_nat i = Some v.
Proof.
  intros Hi. apply lookup_lt_is_Some_2. lia.
Qed.

Lemma modify_ok f i b old :
  0 <= i -> b !! Z.to_nat i = Some old ->
  modify f i b = Ok (<[Z.to_nat i := u8 (f old)]> b).
Proof.
  intros Hi Hold. unfold modify.
  rewrite (load_ok i b old Hi Hold). simpl.
  apply store_ok. split; [exact Hi|].
  apply lookup_lt_Some in Hold. lia.
Qed.

Lemma or_assign_ok i m b old :
  0 <= i -> b !! Z.to_nat i = Some old ->
  or_assign i m b = Ok (<[Z.to_nat i := u8 (Z.lor old m)]> b).
Proof. intros Hi Hold. exact (modify_ok (fun v => Z.lor v m) i b old Hi Hold). Qed.

Lemma and_assign_ok i m b old :
  0 <= i -> b !! Z.to_nat i = Some old ->
  and_assign i m b = Ok (<[Z.to_nat i := u8 (Z.land old m)]> b).
Proof. intros Hi Hold. exact (modify_ok (fun v => Z.land v m) i b old Hi Hold). Qed.

Lemma xor_assign_ok i m b old :
  0 <= i -> b !! Z.to_nat i = Some old ->
  xor_assign i m b = Ok (<[Z.to_nat i := u8 (Z.lxor old m)]> b).
Proof. intros Hi Hold. exact (modify_ok (fun v => Z.lxor v m) i b old Hi Hold). Qed.

(** *** [drawPixel] and [getPixel] on the screen *)

Lemma buf_size_eq : buf_size = 1024.
Proof. reflexivity. Qed.

Lemma byte_index_range x y :
  on_screen x y -> 0 <= byte_index x y < buf_size.
Proof.
  rewrite buf_size_eq. unfold on_screen, byte_index, WIDTH, HEIGHT.
  intros [Hx Hy].
  assert (0 <= y / 8 < 8) by (split; [apply Z.div_pos; lia
                                     | apply Z.div_lt_upper_bound; lia]).
  lia.
Qed.

Lemma safe_test_on_screen x y :
  on_screen x y ->
  PIXEL_SAFE_MODE &&
    ((x <? 0) || (x >? WIDTH - 1) || (y <? 0) || (y >? HEIGHT - 1)) = false.
Proof.
  unfold on_screen, WIDTH, HEIGHT. intros [Hx Hy].
  replace (x <? 0) with false by (symmetry; apply Z.ltb_ge; lia).
  replace (y <? 0) with false by (symmetry; apply Z.ltb_ge; lia).
  replace (x >? 128 - 1) with false by (symmetry; rewrite Z.gtb_ltb; apply Z.ltb_ge; lia).
  replace (y >? 64 - 1) with false by (symmetry; rewrite Z.gtb_ltb; apply Z.ltb_ge; lia).
  apply andb_false_r.
Qed.

Lemma drawPixel_on_screen x y color b old :
  on_screen x y ->
  b !! Z.to_nat (byte_index x y) = Some old ->
  drawPixel x y color b =
  Ok (<[Z.to_nat (byte_index x y) :=
          if truthy color
          then u8 (Z.lor old (_BV (y mod 8)))
          else u8 (Z.land old (Z.lnot (_BV (y mod 8))))]> b).
Proof.
  intros Hon Hold. unfold drawPixel.
  rewrite (safe_test_on_screen x y Hon).
  pose proof (byte_index_range x y Hon) as Hr.
  destruct Hon as [Hx Hy]. unfold WIDTH, HEIGHT in Hx, Hy.
  assert (Hd : 0 <= y / 8 < 8) by (split; [apply Z.div_pos; lia
                                     | apply Z.div_lt_upper_bound; lia]).
  rewrite (u8_small y) by lia. rewrite (u8_small x) by lia.
  rewrite (u8_small (y / 8)) by lia.
  fold (byte_index x y).
  destruct (truthy color).
  - apply or_assign_ok; [lia | exact Hold].
  - apply and_assign_ok; [lia | exact Hold].
Qed.

Lemma getPixel_on_screen x y b v :
  on_screen x y ->
  b !! Z.to_nat (byte_index x y) = Some v ->
  getPixel x y b = Ok (Z.b2z (Z.testbit v (y mod 8))).
Proof.
  intros Hon Hv. unfold getPixel.
  pose proof (byte_index_range x y Hon) as Hr.
  destruct Hon as [Hx Hy]. unfold WIDTH, HEIGHT in Hx, Hy.
  assert (Hd : 0 <= y / 8 < 8) by (split; [apply Z.div_pos; lia
                                     | apply Z.div_lt_upper_bound; lia]).
  assert (Hm : 0 <= y mod 8 < 8) by (apply Z.mod_pos_bound; lia).
  rewrite (u8_small y) by lia. rewrite (u8_small x) by lia.
  rewrite (u8_small (y / 8)) by lia. rewrite (u8_small (y mod 8)) by lia.
  fold (byte_index x y).
  rewrite (load_ok _ b v) by (lia || exact Hv). simpl.
  rewrite get_bit by lia. reflexivity.
Qed.

(** C1.  For every pixel of the screen ([0 <= x < WIDTH],
    [0 <= y < HEIGHT]) of a buffer of the screen's size, [drawPixel]
    rewrites the byte of index [(y / 8) * WIDTH + x] and only its bit
    [y mod 8]; [getPixel] at the same coordinate then returns [WHITE]
    after a draw with a non-zero colour and [BLACK] after a draw with
    [BLACK]; and the same [drawPixel] call made again leaves the buffer
    as it is. *)
Theorem drawPixel_getPixel x y color (b : Buf) :
  0 <= x < WIDTH -> 0 <= y < HEIGHT ->
  Z.of_nat (length b) = buf_size ->
  exists old new,
    b !! Z.to_nat ((y / 8) * WIDTH + x) = Some old /\
    (forall n, 0 <= n < 8 ->
       Z.testbit new n =
       if n =? y mod 8 then truthy color else Z.testbit old n) /\
    0 <= new < 256 /\
    let b' := <[Z.to_nat ((y / 8) * WIDTH + x) := new]> b in
    drawPixel x y color b = Ok b' /\
    getPixel x y b' = Ok (if truthy color then WHITE else BLACK) /\
    drawPixel x y color b' = Ok b'.
Proof.
  intros Hx Hy Hlen.
  assert (Hon : on_screen x y) by (split; assumption).
  pose proof (byte_index_range x y Hon) as Hr.
  assert (Hm : 0 <= y mod 8 < 8) by (apply Z.mod_pos_bound; lia).
  destruct (lookup_in_range b (byte_index x y)) as [old Hold]; [lia|].
  fold (byte_index x y).
  set (new := if truthy color
              then u8 (Z.lor old (_BV (y mod 8)))
              else u8 (Z.land old (Z.lnot (_BV (y mod 8))))).
  assert (Hbits : forall n, 0 <= n < 8 ->
            Z.testbit new n =
            if n =? y mod 8 then truthy color else Z.testbit old n).
  { intros n Hn. unfold new. destruct (truthy color).
    - apply set_bit_spec; lia.
    - apply clear_bit_spec; lia. }
  assert (Hnew : 0 <= new < 256).
  { unfold new. destruct (truthy color); apply u8_range. }
  exists old, new. split; [exact Hold|]. split; [exact Hbits|].
  split; [exact Hnew|]. cbv zeta.
  assert (Hlook : <[Z.to_nat (byte_index x y) := new]> b
                    !! Z.to_nat (byte_index x y) = Some new).
  { apply list_lookup_insert_eq. lia. }
  split; [|split].
  - apply drawPixel_on_screen; assumption.
  - rewrite (getPixel_on_screen x y _ new Hon Hlook).
    rewrite Hbits by lia. rewrite Z.eqb_refl.
    destruct (truthy color); reflexivity.
  - rewrite (drawPixel_on_screen x y color _ new Hon Hlook).
    rewrite list_insert_insert_eq. f_equal. f_equal.
    apply byte_eq.
    + destruct (truthy color); apply u8_range.
    + exact Hnew.
    + intros n Hn.
      transitivity (if n =? y mod 8 then truthy color else Z.testbit new n).
      * destruct (truthy color).
        -- apply set_bit_spec; lia.
        -- apply clear_bit_spec; lia.
      * rewrite (Hbits n Hn). destruct (n =? y mod 8); reflexivity.
Qed.

(** ** Operations that cannot go wrong *)

Lemma total_skip : total skip.
Proof. intros b Hb. exists b. split; [reflexivity | exact Hb]. Qed.

Lemma total_seq c1 c2 : total c1 -> total c2 -> total (c1 >> c2).
Proof.
  intros H1 H2 b Hb.
  destruct (H1 b Hb) as (b1 & E1 & L1).
  destruct (H2 b1 L1) as (b2 & E2 & L2).
  exists b2. split; [|exact L2].
  unfold seq. rewrite E1. simpl. exact E2.
Qed.

Lemma total_if (t : bool) c1 c2 :
  total c1 -> total c2 -> total (if t then c1 else c2).
Proof. intros H1 H2. destruct t; assumption. Qed.

Lemma drawPixel_total x y color : drawable x y -> total (drawPixel x y color).
Proof.
  intros Hd b Hb.
  assert (Hscreen : on_screen x y -> exists b',
             drawPixel x y color b = Ok b' /\ Z.of_nat (length b') = buf_size).
  { intros Hon.
    pose proof (byte_index_range x y Hon) as Hr.
    destruct (lookup_in_range b (byte_index x y)) as [old Hold]; [lia|].
    rewrite (drawPixel_on_screen x y color b old Hon Hold).
    eexists. split; [reflexivity|]. rewrite length_insert. exact Hb. }
  destruct Hd as [Hsafe|Hon]; [|exact (Hscreen Hon)].
  destruct (Z.ltb_spec x 0) as [Hx0|Hx0];
    [|destruct (Z.ltb_spec (WIDTH - 1) x) as [Hx1|Hx1];
      [|destruct (Z.ltb_spec y 0) as [Hy0|Hy0];
        [|destruct (Z.ltb_spec (HEIGHT - 1) y) as [Hy1|Hy1]]]].
  5: { apply Hscreen. unfold on_screen. lia. }
  all: exists b; split; [|exact Hb]; unfold drawPixel; rewrite Hsafe.
  - replace (x <? 0) with true by (symmetry; apply Z.ltb_lt; lia).
    reflexivity.
  - replace (x >? WIDTH - 1) with true
      by (symmetry; rewrite Z.gtb_ltb; apply Z.ltb_lt; lia).
    rewrite orb_true_r. reflexivity.
  - replace (y <? 0) with true by (symmetry; apply Z.ltb_lt; lia).
    rewrite orb_true_r. reflexivity.
  - replace (y >? HEIGHT - 1) with true
      by (symmetry; rewrite Z.gtb_ltb; apply Z.ltb_lt; lia).
    rewrite orb_true_r. reflexivity.
Qed.

Lemma char_b_total n px y j size draw_color b0 :
  (forall kb, b0 <= kb < b0 + Z.of_nat n ->
              drawable px (y + j * size + kb)) ->
  total (char_b n px y j size draw_color b0).
Proof.
  revert b0. induction n as [|n IH]; intros b0 H; simpl.
  - apply total_skip.
  - apply total_seq.
    + apply drawPixel_total, H. lia.
    + apply IH. intros kb Hkb. apply H. lia.
Qed.

Lemma char_a_total n x y i j size draw_color a0 :
  0 <= size ->
  (forall ka kb, a0 <= ka < a0 + Z.of_nat n -> 0 <= kb < size ->
                 drawable (x + i * size + ka) (y + j * size + kb)) ->
  total (char_a n x y i j size draw_color a0).
Proof.
  intros Hsize. revert a0. induction n as [|n IH]; intros a0 H; simpl.
  - apply total_skip.
  - apply total_seq.
    + apply char_b_total. intros kb Hkb. apply H; lia.
    + apply IH. intros ka kb Hka Hkb. apply H; lia.
Qed.

Lemma char_j_total n x y i color bg size draw_background line j0 :
  0 <= size ->
  (forall j ka kb, j0 <= j < j0 + Z.of_nat n ->
                   0 <= ka < size -> 0 <= kb < size ->
                   drawable (x + i * size + ka) (y + j * size + kb)) ->
  total (char_j n x y i color bg size draw_background line j0).
Proof.
  intros Hsize. revert line j0.
  induction n as [|n IH]; intros line j0 H; simpl.
  - apply total_skip.
  - apply total_seq.
    + apply total_if; [|apply total_skip].
      apply char_a_total; [exact Hsize|].
      intros ka kb Hka Hkb. apply H; lia.
    + apply IH. intros j ka kb Hj Hka Hkb. apply H; lia.
Qed.

Lemma char_i_total n x y c color bg size draw_background i0 :
  0 <= size ->
  (forall i j ka kb, i0 <= i < i0 + Z.of_nat n -> 0 <= j < 8 ->
                     0 <= ka < size -> 0 <= kb < size ->
                     drawable (x + i * size + ka) (y + j * size + kb)) ->
  total (char_i n x y c color bg size draw_background i0).
Proof.
  intros Hsize. revert i0. induction n as [|n IH]; intros i0 H; cbn [char_i].
  - apply total_skip.
  - apply total_seq.
    + apply char_j_total; [exact Hsize|].
      intros j ka kb Hj Hka Hkb. apply H; lia.
    + apply IH. intros i j ka kb Hi Hj Hka Hkb. apply H; lia.
Qed.

Lemma drawChar_total x y c color bg size :
  0 <= size ->
  PIXEL_SAFE_MODE = true \/ cell_on_screen x y size ->
  total (drawChar x y c color bg size).
Proof.
  intros Hsize Hok. unfold drawChar.
  apply total_if; [apply total_skip|].
  apply char_i_total; [exact Hsize|].
  intros i j ka kb Hi Hj Hka Hkb.
  destruct Hok as [Hsafe|Hcell]; [left; exact Hsafe|right].
  unfold cell_on_screen in Hcell. unfold on_screen. nia.
Qed.

(** ** Bitmaps outside the screen *)

Lemma i16_small z : -32768 <= z <= 32767 -> i16 z = z.
Proof.
  intros H. unfold i16, signed.
  change (2 ^ (16 - 1)) with 32768. change (2 ^ 16) with 65536.
  rewrite Z.mod_small by lia. lia.
Qed.

Lemma offscreen_spec x y w h :
  -32768 <= x <= 32767 -> -32768 <= y <= 32767 ->
  0 <= w <= 255 -> 0 <= h <= 255 ->
  x + w < 0 \/ x > WIDTH - 1 \/ y + h < 0 \/ y > HEIGHT - 1 ->
  offscreen x y w h = true.
Proof.
  intros Hx Hy Hw Hh H. unfold offscreen.
  destruct H as [H|[H|[H|H]]].
  - rewrite i16_small by lia.
    replace (x + w <? 0) with true by (symmetry; apply Z.ltb_lt; lia).
    reflexivity.
  - replace (x >? WIDTH - 1) with true
      by (symmetry; rewrite Z.gtb_ltb; apply Z.ltb_lt; lia).
    rewrite orb_true_r. reflexivity.
  - rewrite (i16_small (y + h)) by lia.
    replace (y + h <? 0) with true by (symmetry; apply Z.ltb_lt; lia).
    rewrite orb_true_r. reflexivity.
  - replace (y >? HEIGHT - 1) with true
      by (symmetry; rewrite Z.gtb_ltb; apply Z.ltb_lt; lia).
    rewrite orb_true_r. reflexivity.
Qed.

(** Columns left of the screen are passed over. *)
Lemma bitmap_cols_left n x bitmap w color yOffset a bRow iCol (b : Buf) :
  iCol + Z.of_nat n + x <= 0 ->
  bitmap_cols n x bitmap w color yOffset a bRow iCol b = Ok b.
Proof.
  revert iCol. induction n as [|n IH]; intros iCol H; cbn [bitmap_cols].
  - reflexivity.
  - replace (iCol + x >? WIDTH - 1) with false
      by (symmetry; rewrite Z.gtb_ltb; apply Z.ltb_ge; unfold WIDTH; lia).
    replace (iCol + x >=? 0) with false
      by (symmetry; rewrite Z.geb_leb; apply Z.leb_gt; lia).
    unfold seq, skip. simpl. apply IH. lia.
Qed.

Lemma bitmap_rows_id n x bitmap w color yOffset sRow a (b : Buf) :
  (forall a' bRow,
      bitmap_cols (Z.to_nat w) x bitmap w color yOffset a' bRow 0 b = Ok b) ->
  bitmap_rows n x bitmap w color yOffset sRow a b = Ok b.
Proof.
  intros H. revert a. induction n as [|n IH]; intros a; cbn [bitmap_rows].
  - reflexivity.
  - cbv zeta. destruct (sRow + a >? HEIGHT / 8 - 1); [reflexivity|].
    unfold seq. destruct (sRow + a >? -2).
    + rewrite H. simpl. apply IH.
    + unfold skip. simpl. apply IH.
Qed.

(** Bands above the screen, the band just above it excepted, are passed
    over. *)
Lemma bitmap_rows_above n x bitmap w color yOffset sRow a (b : Buf) :
  sRow + a + Z.of_nat n <= -1 ->
  bitmap_rows n x bitmap w color yOffset sRow a b = Ok b.
Proof.
  revert a. induction n as [|n IH]; intros a H; cbn [bitmap_rows].
  - reflexivity.
  - cbv zeta.
    replace (sRow + a >? HEIGHT / 8 - 1) with false
      by (symmetry; rewrite Z.gtb_ltb; apply Z.ltb_ge;
          change (HEIGHT / 8 - 1) with 7; lia).
    replace (sRow + a >? -2) with false
      by (symmetry; rewrite Z.gtb_ltb; apply Z.ltb_ge; lia).
    unfold seq, skip. simpl. apply IH. lia.
Qed.

Lemma drawBitmap_beside_screen x y bitmap w h color (b : Buf) :
  0 <= w <= 255 -> 0 <= h <= 255 ->
  w = 0 \/ h = 0 \/ x + w = 0 \/ (y + h = 0 /\ h mod 8 = 0) ->
  drawBitmap x y bitmap w h color b = Ok b.
Proof.
  intros Hw Hh H. unfold drawBitmap.
  destruct (offscreen x y w h); [reflexivity|].
  destruct H as [H|[H|[H|[H1 H2]]]].
  - destruct (y <? 0); apply bitmap_rows_id; intros a' bRow;
      rewrite H; reflexivity.
  - subst h. destruct (y <? 0); reflexivity.
  - destruct (y <? 0); apply bitmap_rows_id; intros a' bRow;
      apply bitmap_cols_left; lia.
  - assert (Hrem : Z.rem h 8 = 0) by (rewrite Z.rem_mod_nonneg; lia).
    rewrite Hrem. cbn [Z.eqb negb].
    assert (Hq : h = 8 * Z.quot h 8).
    { pose proof (Z.quot_rem' h 8) as E. lia. }
    assert (Hq0 : 0 <= Z.quot h 8) by (apply Z.quot_pos; lia).
    destruct (Z.ltb_spec y 0) as [Hneg|Hpos].
    + apply bitmap_rows_above.
      replace y with (- h) by lia. rewrite Z.quot_opp_l by lia. lia.
    + assert (h = 0) by lia. subst h. reflexivity.
Qed.

Lemma drawPixel_off_screen x y color (b : Buf) :
  PIXEL_SAFE_MODE = true -> ~ on_screen x y ->
  drawPixel x y color b = Ok b.
Proof.
  intros Hsafe Hoff. unfold drawPixel. rewrite Hsafe.
  destruct (Z.ltb_spec x 0) as [Hx0|Hx0]; [reflexivity|].
  destruct (Z.ltb_spec y 0) as [Hy0|Hy0]; [rewrite !orb_true_r; reflexivity|].
  rewrite !Z.gtb_ltb.
  destruct (Z.ltb_spec (WIDTH - 1) x) as [Hx1|Hx1]; [reflexivity|].
  destruct (Z.ltb_spec (HEIGHT - 1) y) as [Hy1|Hy1]; [reflexivity|].
  exfalso. apply Hoff. unfold on_screen. lia.
Qed.

Lemma slow_cols_off n x y bitmap color byteWidth yi xi (b : Buf) :
  PIXEL_SAFE_MODE = true ->
  (forall k, xi <= k < xi + Z.of_nat n -> ~ on_screen (x + k) (y + yi)) ->
  slow_cols n x y bitmap color byteWidth yi xi b = Ok b.
Proof.
  intros Hsafe. revert xi. induction n as [|n IH]; intros xi H;
    cbn [slow_cols].
  - reflexivity.
  - unfold seq.
    destruct (truthy _).
    + rewrite drawPixel_off_screen by (try assumption; apply H; lia).
      simpl. apply IH. intros k Hk. apply H. lia.
    + unfold skip. simpl. apply IH. intros k Hk. apply H. lia.
Qed.

Lemma slow_rows_id n x y bitmap w color byteWidth yi (b : Buf) :
  (forall k, yi <= k < yi + Z.of_nat n ->
     slow_cols (Z.to_nat w) x y bitmap color byteWidth k 0 b = Ok b) ->
  slow_rows n x y bitmap w color byteWidth yi b = Ok b.
Proof.
  revert yi. induction n as [|n IH]; intros yi H; cbn [slow_rows].
  - reflexivity.
  - unfold seq. rewrite H by lia. simpl. apply IH.
    intros k Hk. apply H. lia.
Qed.

Lemma drawSlowXYBitmap_beside_screen x y bitmap w h color (b : Buf) :
  0 <= w <= 255 -> 0 <= h <= 255 ->
  w = 0 \/ h = 0 \/
    (PIXEL_SAFE_MODE = true /\ (x + w = 0 \/ y + h = 0)) ->
  drawSlowXYBitmap x y bitmap w h color b = Ok b.
Proof.
  intros Hw Hh H. unfold drawSlowXYBitmap.
  destruct (offscreen x y w h); [reflexivity|].
  destruct H as [H|[H|[Hsafe H]]].
  - apply slow_rows_id. intros k Hk. rewrite H. reflexivity.
  - subst h. reflexivity.
  - apply slow_rows_id. intros k Hk.
    apply slow_cols_off; [exact Hsafe|].
    intros xi Hxi. unfold on_screen. lia.
Qed.

(** C7 (amended).  A call of [drawBitmap] or [drawSlowXYBitmap] whose
    bounding box lies beyond a screen edge in the sense of the test both
    start with, [x + w < 0], [x > WIDTH - 1], [y + h < 0] or
    [y > HEIGHT - 1], returns the buffer unchanged.  For a box that is
    empty or only abuts the screen, [drawBitmap] leaves the buffer
    unchanged when [w = 0], [h = 0], [x + w = 0], or [y + h = 0] with
    [h] a multiple of 8, and [drawSlowXYBitmap] when [w = 0], [h = 0],
    or, with the bounds test of [drawPixel] compiled in, [x + w = 0] or
    [y + h = 0]. *)
Theorem blit_outside_screen x y bitmap w h color (b : Buf) :
  -32768 <= x <= 32767 -> -32768 <= y <= 32767 ->
  0 <= w <= 255 -> 0 <= h <= 255 ->
  (x + w < 0 \/ x > WIDTH - 1 \/ y + h < 0 \/ y > HEIGHT - 1 ->
   drawBitmap x y bitmap w h color b = Ok b /\
   drawSlowXYBitmap x y bitmap w h color b = Ok b) /\
  (w = 0 \/ h = 0 \/ x + w = 0 \/ (y + h = 0 /\ h mod 8 = 0) ->
   drawBitmap x y bitmap w h color b = Ok b) /\
  (w = 0 \/ h = 0 \/
     (PIXEL_SAFE_MODE = true /\ (x + w = 0 \/ y + h = 0)) ->
   drawSlowXYBitmap x y bitmap w h color b = Ok b).
Proof.
  intros Hx Hy Hw Hh. split; [|split].
  - intros H. unfold drawBitmap, drawSlowXYBitmap.
    rewrite (offscreen_spec x y w h Hx Hy Hw Hh H). split; reflexivity.
  - apply drawBitmap_beside_screen; assumption.
  - apply drawSlowXYBitmap_beside_screen; assumption.
Qed.

(** ** Bitmaps drawn in [WHITE] *)

Lemma u8_lor a b : u8 (Z.lor a b) = Z.lor (u8 a) (u8 b).
Proof.
  apply Z.bits_inj'. intros n Hn.
  rewrite Z.lor_spec, !testbit_u8, Z.lor_spec.
  apply andb_orb_distrib_r.
Qed.

Lemma ors_skip : ors skip (fun _ => 0).
Proof.
  intros b Hlen Hb. exists b. split; [reflexivity|]. split; [|exact Hb].
  split; [reflexivity|]. intros k v Hv. rewrite Z.lor_0_r. exact Hv.
Qed.

Lemma ors_seq c1 c2 C1 C2 :
  ors c1 C1 -> ors c2 C2 -> ors (c1 >> c2) (fun k => Z.lor (C1 k) (C2 k)).
Proof.
  intros H1 H2 b Hlen Hb.
  destruct (H1 b Hlen Hb) as (b1 & E1 & [L1 O1] & B1).
  assert (Hlen1 : Z.of_nat (length b1) = buf_size) by (rewrite L1; exact Hlen).
  destruct (H2 b1 Hlen1 B1) as (b2 & E2 & [L2 O2] & B2).
  exists b2. split; [|split; [split|exact B2]].
  - unfold seq. rewrite E1. simpl. exact E2.
  - rewrite L2. exact L1.
  - intros k v Hv. rewrite Z.lor_assoc. apply O2, O1, Hv.
Qed.

Lemma ors_ext c C C' :
  (forall k, 0 <= k < buf_size -> C k = C' k) -> ors c C -> ors c C'.
Proof.
  intros HC H b Hlen Hb.
  destruct (H b Hlen Hb) as (b' & E & [L O] & B).
  exists b'. split; [exact E|]. split; [|exact B].
  split; [exact L|]. intros k v Hv.
  rewrite <- HC; [apply O, Hv|].
  apply lookup_lt_Some in Hv. lia.
Qed.

Lemma ors_or_assign i m :
  0 <= i < buf_size ->
  ors (or_assign i m) (fun k => if k =? i then u8 m else 0).
Proof.
  intros Hi b Hlen Hb.
  destruct (lookup_in_range b i) as [old Hold]; [lia|].
  rewrite (or_assign_ok i m b old) by (lia || exact Hold).
  eexists. split; [reflexivity|]. split; [split|].
  - apply length_insert.
  - intros k v Hv.
    destruct (Z.eqb_spec (Z.of_nat k) i) as [E|E].
    + assert (k = Z.to_nat i) by lia. subst k.
      rewrite Hold in Hv. injection Hv as <-.
      rewrite list_lookup_insert_eq by lia.
      rewrite u8_lor, (u8_small old) by (eapply Hb; exact Hold).
      reflexivity.
    + rewrite list_lookup_insert_ne by lia.
      rewrite Z.lor_0_r. exact Hv.
  - intros k v Hv.
    destruct (decide (k = Z.to_nat i)) as [->|Hne].
    + rewrite list_lookup_insert_eq in Hv by lia.
      injection Hv as <-. apply u8_range.
    + rewrite list_lookup_insert_ne in Hv by congruence.
      eapply Hb; exact Hv.
Qed.

Lemma bigor_zero F i n k :
  (forall j, i <= j -> F j k = 0) -> bigor F i n k = 0.
Proof.
  revert i. induction n as [|n IH]; intros i H; simpl.
  - reflexivity.
  - rewrite H by lia. rewrite IH; [reflexivity|].
    intros j Hj. apply H. lia.
Qed.

Lemma lor_swap a b c d :
  Z.lor (Z.lor a b) (Z.lor c d) = Z.lor (Z.lor a c) (Z.lor b d).
Proof.
  apply Z.bits_inj'. intros n Hn. rewrite !Z.lor_spec.
  destruct (Z.testbit a n), (Z.testbit b n), (Z.testbit c n),
    (Z.testbit d n); reflexivity.
Qed.

Lemma bigor_split F G H i n k :
  (forall j, i <= j < i + Z.of_nat n -> F j k = Z.lor (G j k) (H j k)) ->
  bigor F i n k = Z.lor (bigor G i n k) (bigor H i n k).
Proof.
  revert i. induction n as [|n IH]; intros i HF.
  - reflexivity.
  - cbn [bigor]. rewrite HF by lia.
    rewrite IH by (intros j Hj; apply HF; lia).
    apply lor_swap.
Qed.

(** An or over a range in which at most the term of index [j1] differs
    from 0. *)
Lemma bigor_one F i n k j1 v :
  (forall j, i <= j < i + Z.of_nat n ->
     F j k = if j =? j1 then v else 0) ->
  bigor F i n k = if (i <=? j1) && (j1 <? i + Z.of_nat n) then v else 0.
Proof.
  revert i. induction n as [|n IH]; intros i HF.
  - cbn [bigor].
    destruct (Z.leb_spec i j1), (Z.ltb_spec j1 (i + Z.of_nat 0));
      try reflexivity; lia.
  - cbn [bigor]. rewrite HF by lia.
    rewrite IH by (intros j Hj; apply HF; lia).
    destruct (Z.eqb_spec i j1), (Z.leb_spec i j1),
      (Z.leb_spec (i + 1) j1), (Z.ltb_spec j1 (i + Z.of_nat (S n))),
      (Z.ltb_spec j1 (i + 1 + Z.of_nat n)); try lia; cbn [andb];
      rewrite ?Z.lor_0_l, ?Z.lor_0_r; reflexivity.
Qed.

(** An or over a range in which at most the terms of two indices
    differ from 0. *)
Lemma bigor_two F i n k j1 v1 j2 v2 :
  (forall j, i <= j < i + Z.of_nat n ->
     F j k = Z.lor (if j =? j1 then v1 else 0) (if j =? j2 then v2 else 0)) ->
  bigor F i n k =
  Z.lor (if (i <=? j1) && (j1 <? i + Z.of_nat n) then v1 else 0)
        (if (i <=? j2) && (j2 <? i + Z.of_nat n) then v2 else 0).
Proof.
  intros HF.
  rewrite (bigor_split F (fun j _ => if j =? j1 then v1 else 0)
             (fun j _ => if j =? j2 then v2 else 0) i n k HF).
  rewrite (bigor_one _ i n k j1 v1) by reflexivity.
  rewrite (bigor_one _ i n k j2 v2) by reflexivity.
  reflexivity.
Qed.

Lemma col_step_ors x bitmap w yOffset a bRow iCol :
  bRow <= HEIGHT / 8 - 1 ->
  (iCol + x >? WIDTH - 1) = false ->
  ors (if iCol + x >=? 0 then
         (if bRow >=? 0
          then blit WHITE (bRow * WIDTH + x + iCol)
                 (Z.shiftl (pgm_read_byte bitmap (a * w + iCol)) yOffset)
          else skip) >>
         (if truthy yOffset && (bRow <? HEIGHT / 8 - 1) && (bRow >? -2)
          then blit WHITE ((bRow + 1) * WIDTH + x + iCol)
                 (Z.shiftr (pgm_read_byte bitmap (a * w + iCol))
                    (8 - yOffset))
          else skip)
       else skip)
      (col_hit x bitmap w yOffset a bRow iCol).
Proof.
  intros Hb E. unfold col_hit. rewrite E.
  assert (Hc : iCol + x <= 127).
  { rewrite Z.gtb_ltb in E. apply Z.ltb_ge in E. unfold WIDTH in E. lia. }
  change (HEIGHT / 8 - 1) with 7 in *.
  destruct (iCol + x >=? 0) eqn:E0; [|apply ors_skip].
  rewrite Z.geb_leb in E0. apply Z.leb_le in E0.
  apply (ors_seq _ _
           (fun k => if bRow >=? 0
                     then if k =? bRow * WIDTH + x + iCol
                          then u8 (Z.shiftl
                                     (pgm_read_byte bitmap (a * w + iCol))
                                     yOffset)
                          else 0
                     else 0)
           (fun k => if truthy yOffset && (bRow <? 7) && (bRow >? -2)
                     then if k =? (bRow + 1) * WIDTH + x + iCol
                          then u8 (Z.shiftr
                                     (pgm_read_byte bitmap (a * w + iCol))
                                     (8 - yOffset))
                          else 0
                     else 0)).
  - destruct (bRow >=? 0) eqn:E1; [|apply ors_skip].
    rewrite Z.geb_leb in E1. apply Z.leb_le in E1.
    apply ors_or_assign. rewrite buf_size_eq. unfold WIDTH. lia.
  - destruct (truthy yOffset && (bRow <? 7) && (bRow >? -2)) eqn:E1;
      [|apply ors_skip].
    apply andb_true_iff in E1. destruct E1 as [E1 E3].
    apply andb_true_iff in E1. destruct E1 as [_ E2].
    apply Z.ltb_lt in E2. rewrite Z.gtb_ltb in E3. apply Z.ltb_lt in E3.
    apply ors_or_assign. rewrite buf_size_eq. unfold WIDTH. lia.
Qed.

Lemma bitmap_cols_ors n x bitmap w yOffset a bRow iCol :
  bRow <= HEIGHT / 8 - 1 ->
  ors (bitmap_cols n x bitmap w WHITE yOffset a bRow iCol)
      (bigor (col_hit x bitmap w yOffset a bRow) iCol n).
Proof.
  intros Hb. revert iCol.
  induction n as [|n IH]; intros iCol; cbn [bitmap_cols].
  - apply ors_skip.
  - destruct (iCol + x >? WIDTH - 1) eqn:E.
    + apply (ors_ext _ (fun _ => 0)); [|apply ors_skip].
      intros k _. symmetry. apply bigor_zero.
      intros j Hj. unfold col_hit.
      replace (j + x >? WIDTH - 1) with true; [reflexivity|].
      symmetry. rewrite Z.gtb_ltb in *. apply Z.ltb_lt.
      apply Z.ltb_lt in E. lia.
    + apply (ors_seq _ _ (col_hit x bitmap w yOffset a bRow iCol)
               (bigor (col_hit x bitmap w yOffset a bRow) (iCol + 1) n)).
      * apply col_step_ors; assumption.
      * apply IH.
Qed.

Lemma bitmap_rows_ors n x bitmap w yOffset sRow a :
  ors (bitmap_rows n x bitmap w WHITE yOffset sRow a)
      (bigor (row_hit x bitmap w yOffset sRow) a n).
Proof.
  revert a. induction n as [|n IH]; intros a; cbn [bitmap_rows].
  - apply ors_skip.
  - cbv zeta. destruct (sRow + a >? HEIGHT / 8 - 1) eqn:E.
    + apply (ors_ext _ (fun _ => 0)); [|apply ors_skip].
      intros k _. symmetry. apply bigor_zero.
      intros j Hj. unfold row_hit. cbv zeta.
      replace (sRow + j >? HEIGHT / 8 - 1) with true; [reflexivity|].
      symmetry. rewrite Z.gtb_ltb in *. apply Z.ltb_lt.
      apply Z.ltb_lt in E. lia.
    + apply (ors_seq _ _ (row_hit x bitmap w yOffset sRow a)
               (bigor (row_hit x bitmap w yOffset sRow) (a + 1) n)).
      * unfold row_hit. cbv zeta. rewrite E.
        destruct (sRow + a >? -2); [|apply ors_skip].
        apply bitmap_cols_ors.
        rewrite Z.gtb_ltb in E. apply Z.ltb_ge in E. exact E.
      * apply IH.
Qed.

(** Case analysis on the integer comparisons of the goal, the
    impossible cases closed by arithmetic. *)
Ltac zcases :=
  rewrite ?Z.gtb_ltb, ?Z.geb_leb;
  repeat match goal with
    | |- context [?a <? ?b] => destruct (Z.ltb_spec a b); try lia
    | |- context [?a <=? ?b] => destruct (Z.leb_spec a b); try lia
    | |- context [?a =? ?b] => destruct (Z.eqb_spec a b); try lia
    end.

Lemma col_hit_cell x bitmap w yOffset a bRow iCol t c :
  0 <= t < 8 -> 0 <= c < 128 ->
  col_hit x bitmap w yOffset a bRow iCol (t * WIDTH + c) =
  Z.lor
    (if iCol =? c - x
     then if t =? bRow
          then u8 (Z.shiftl (src_byte bitmap w a (c - x)) yOffset)
          else 0
     else 0)
    (if iCol =? c - x
     then if (t =? bRow + 1) && truthy yOffset
          then u8 (Z.shiftr (src_byte bitmap w a (c - x)) (8 - yOffset))
          else 0
     else 0).
Proof.
  intros Ht Hc. unfold col_hit, src_byte, truthy, WIDTH.
  change (HEIGHT / 8 - 1) with 7.
  destruct (Z.eqb_spec iCol (c - x)) as [->|Hne].
  - replace (c - x + x) with c by lia.
    zcases; cbn [andb negb]; try reflexivity; lia.
  - zcases; cbn [andb negb]; reflexivity.
Qed.

Lemma row_hit_cell x bitmap w yOffset sRow a t c :
  0 <= w -> 0 <= t < 8 -> 0 <= c < 128 ->
  row_hit x bitmap w yOffset sRow a (t * WIDTH + c) =
  Z.lor
    (if a =? t - sRow
     then if (0 <=? c - x) && (c - x <? w)
          then u8 (Z.shiftl (src_byte bitmap w (t - sRow) (c - x)) yOffset)
          else 0
     else 0)
    (if a =? t - sRow - 1
     then if (0 <=? c - x) && (c - x <? w) && truthy yOffset
          then u8 (Z.shiftr (src_byte bitmap w (t - sRow - 1) (c - x))
                     (8 - yOffset))
          else 0
     else 0).
Proof.
  intros Hw Ht Hc. unfold row_hit. cbv zeta.
  change (HEIGHT / 8 - 1) with 7.
  destruct (Z.ltb_spec 7 (sRow + a)) as [H7|H7]; rewrite Z.gtb_ltb.
  { replace (7 <? sRow + a) with true by (symmetry; apply Z.ltb_lt; lia).
    zcases; reflexivity. }
  replace (7 <? sRow + a) with false by (symmetry; apply Z.ltb_ge; lia).
  rewrite Z.gtb_ltb.
  destruct (Z.ltb_spec (-2) (sRow + a)) as [H2|H2].
  2: { zcases; reflexivity. }
  rewrite (bigor_two _ 0 (Z.to_nat w) (t * WIDTH + c)
             (c - x)
             (if t =? sRow + a
              then u8 (Z.shiftl (src_byte bitmap w a (c - x)) yOffset)
              else 0)
             (c - x)
             (if (t =? sRow + a + 1) && truthy yOffset
              then u8 (Z.shiftr (src_byte bitmap w a (c - x)) (8 - yOffset))
              else 0))
    by (intros j _; apply col_hit_cell; assumption).
  rewrite Z2Nat.id by exact Hw. rewrite Z.add_0_l.
  destruct (Z.eqb_spec a (t - sRow)) as [->|Hne1].
  - replace (sRow + (t - sRow)) with t by lia.
    rewrite Z.eqb_refl.
    replace (t =? t + 1) with false by (symmetry; apply Z.eqb_neq; lia).
    replace (t - sRow =? t - sRow - 1) with false
      by (symmetry; apply Z.eqb_neq; lia).
    cbn [andb]. destruct ((0 <=? c - x) && (c - x <? w)); reflexivity.
  - replace (t =? sRow + a) with false by (symmetry; apply Z.eqb_neq; lia).
    destruct (Z.eqb_spec a (t - sRow - 1)) as [->|Hne2].
    + replace (sRow + (t - sRow - 1) + 1) with t by lia.
      rewrite Z.eqb_refl. cbn [andb].
      destruct ((0 <=? c - x) && (c - x <? w)); reflexivity.
    + replace (t =? sRow + a + 1) with false
        by (symmetry; apply Z.eqb_neq; lia).
      cbn [andb].
      destruct ((0 <=? c - x) && (c - x <? w)); reflexivity.
Qed.

(** What a [WHITE] [drawBitmap] of [n] source rows or-s into the byte
    of band [t] and column [c] of the screen: the low bits of the
    source byte of band [t - sRow] and the high bits of the one
    above. *)
Lemma rows_contribution n x bitmap w yOffset sRow t c :
  0 <= w -> 0 <= t < 8 -> 0 <= c < 128 ->
  bigor (row_hit x bitmap w yOffset sRow) 0 n (t * WIDTH + c) =
  Z.lor
    (if (0 <=? t - sRow) && (t - sRow <? Z.of_nat n)
     then if (0 <=? c - x) && (c - x <? w)
          then u8 (Z.shiftl (src_byte bitmap w (t - sRow) (c - x)) yOffset)
          else 0
     else 0)
    (if (0 <=? t - sRow - 1) && (t - sRow - 1 <? Z.of_nat n)
     then if (0 <=? c - x) && (c - x <? w) && truthy yOffset
          then u8 (Z.shiftr (src_byte bitmap w (t - sRow - 1) (c - x))
                     (8 - yOffset))
          else 0
     else 0).
Proof.
  intros Hw Ht Hc.
  rewrite (bigor_two _ 0 n (t * WIDTH + c) (t - sRow)
             (if (0 <=? c - x) && (c - x <? w)
              then u8 (Z.shiftl (src_byte bitmap w (t - sRow) (c - x))
                         yOffset)
              else 0)
             (t - sRow - 1)
             (if (0 <=? c - x) && (c - x <? w) && truthy yOffset
              then u8 (Z.shiftr (src_byte bitmap w (t - sRow - 1) (c - x))
                         (8 - yOffset))
              else 0))
    by (intros j _; apply row_hit_cell; assumption).
  rewrite Z.add_0_l. reflexivity.
Qed.

Lemma clear_spec (b : Buf) :
  Z.of_nat (length b) = buf_size -> clear b = Ok blank.
Proof.
  intros Hlen. rewrite buf_size_eq in Hlen.
  unfold clear, fillScreen.
  replace (Z.of_nat (length b) <? 4 * 256) with false
    by (symmetry; apply Z.ltb_ge; lia).
  rewrite drop_ge by lia. rewrite app_nil_r. reflexivity.
Qed.

Lemma blank_length : Z.of_nat (length blank) = buf_size.
Proof. reflexivity. Qed.

Lemma blank_lookup (k : nat) v : blank !! k = Some v -> v = 0.
Proof. unfold blank. intros H. apply lookup_replicate in H. tauto. Qed.

Lemma blank_bytes : bytes blank.
Proof. intros k v H. apply blank_lookup in H. lia. Qed.

Lemma drawBitmap_unfold x y bitmap w h color :
  drawBitmap x y bitmap w h color =
  if offscreen x y w h then skip
  else bitmap_rows (Z.to_nat (band_rows h)) x bitmap w color
         (snd (band_offset y)) (fst (band_offset y)) 0.
Proof.
  unfold drawBitmap, band_offset, band_rows.
  destruct (offscreen x y w h); [reflexivity|].
  destruct (y <? 0); reflexivity.
Qed.

Lemma band_rows_spec h : 0 <= h -> band_rows h = (h + 7) / 8.
Proof.
  intros Hh. unfold band_rows.
  destruct (Z.eqb_spec (Z.rem h 8) 0) as [E|E]; cbn [negb];
    Z.to_euclidean_division_equations; lia.
Qed.

Lemma band_offset_spec y :
  (0 <= y \/ y mod 8 <> 0 ->
   band_offset y = (y / 8, y mod 8)) /\
  (y < 0 -> y mod 8 = 0 -> band_offset y = (y / 8 - 1, 8)).
Proof.
  unfold band_offset.
  destruct (Z.ltb_spec y 0) as [Hneg|Hpos]; split; intros H; try intros H';
    try lia; f_equal; Z.to_euclidean_division_equations; lia.
Qed.

Lemma offscreen_inv x y w h :
  -32768 <= x <= 32767 -> -32768 <= y <= 32767 ->
  0 <= w <= 255 -> 0 <= h <= 255 ->
  offscreen x y w h = true ->
  x + w < 0 \/ x > WIDTH - 1 \/ y + h < 0 \/ y > HEIGHT - 1.
Proof.
  intros Hx Hy Hw Hh H. unfold offscreen in H. unfold WIDTH, HEIGHT in *.
  rewrite !orb_true_iff in H. rewrite !Z.gtb_ltb in H.
  destruct H as [[[H|H]|H]|H]; apply Z.ltb_lt in H; try lia.
  - destruct (Z_le_gt_dec (x + w) 32767) as [Hs|Hs]; [|lia].
    rewrite i16_small in H by lia. lia.
  - destruct (Z_le_gt_dec (y + h) 32767) as [Hs|Hs]; [|lia].
    rewrite i16_small in H by lia. lia.
Qed.

(** A [WHITE] [drawBitmap] on a buffer of zeros returns, and the byte
    of each band and column of the screen is [blit_value]. *)
Lemma drawBitmap_white_blank x y bitmap w h :
  0 <= w -> 0 <= h ->
  offscreen x y w h = false ->
  exists b,
    drawBitmap x y bitmap w h WHITE blank = Ok b /\
    forall t c, 0 <= t < 8 -> 0 <= c < 128 ->
      b !! Z.to_nat (t * WIDTH + c) =
      Some (blit_value x bitmap w (band_rows h)
              (snd (band_offset y)) (fst (band_offset y)) t c).
Proof.
  intros Hw Hh Hoff. rewrite drawBitmap_unfold, Hoff.
  destruct (bitmap_rows_ors (Z.to_nat (band_rows h)) x bitmap w
              (snd (band_offset y)) (fst (band_offset y)) 0
              blank blank_length blank_bytes) as (b & E & [L O] & B).
  exists b. split; [exact E|]. intros t c Ht Hc.
  assert (Hk : 0 <= t * WIDTH + c < 1024) by (unfold WIDTH; lia).
  destruct (lookup_in_range blank (t * WIDTH + c)) as [v Hv].
  { rewrite blank_length, buf_size_eq. exact Hk. }
  rewrite (O _ v Hv). rewrite (blank_lookup _ v Hv).
  rewrite Z.lor_0_l, Z2Nat.id by lia.
  rewrite rows_contribution by assumption.
  assert (Hr : 0 <= band_rows h).
  { rewrite band_rows_spec by exact Hh. apply Z.div_pos; lia. }
  rewrite Z2Nat.id by exact Hr. reflexivity.
Qed.

Lemma u8_shiftl_8 v : u8 (Z.shiftl v 8) = 0.
Proof.
  rewrite Z.shiftl_mul_pow2 by lia. unfold u8, unsigned.
  apply Z.mod_mul. lia.
Qed.

Lemma src_byte_range bitmap w a i : 0 <= src_byte bitmap w a i < 256.
Proof. unfold src_byte, pgm_read_byte. apply u8_range. Qed.

(** The bits 3 to 7 of the upper byte and the bits 0 to 2 of the lower
    byte of a source byte blitted at offset 3 give the byte back. *)
Lemma recombine_3_5 s P Q :
  0 <= s < 256 ->
  (forall n, 3 <= n -> Z.testbit P n = false) ->
  (forall n, 0 <= n < 3 -> Z.testbit Q n = false) ->
  Z.lor (Z.shiftr (Z.lor (u8 (Z.shiftl s 3)) P) 3)
        (u8 (Z.shiftl (Z.lor Q (u8 (Z.shiftr s 5))) 5)) = s.
Proof.
  intros Hs HP HQ.
  rewrite <- (u8_small s Hs) at 3.
  apply Z.bits_inj'. intros n Hn.
  rewrite Z.lor_spec, Z.shiftr_spec, Z.lor_spec by lia.
  rewrite !testbit_u8.
  rewrite !Z.shiftl_spec by lia. rewrite Z.lor_spec, testbit_u8.
  rewrite HP by lia. rewrite orb_false_r.
  replace (n + 3 - 3) with n by lia.
  destruct (Z.ltb_spec n 5) as [H5|H5].
  - replace (n + 3 <? 8) with true by (symmetry; apply Z.ltb_lt; lia).
    replace (n <? 8) with true by (symmetry; apply Z.ltb_lt; lia).
    rewrite (Z.testbit_neg_r Q) by lia.
    rewrite (Z.testbit_neg_r (Z.shiftr s 5)) by lia.
    cbn [andb orb]. rewrite andb_false_r, orb_false_r. reflexivity.
  - replace (n + 3 <? 8) with false by (symmetry; apply Z.ltb_ge; lia).
    cbn [andb orb].
    destruct (Z.ltb_spec n 8) as [H8|H8]; cbn [andb]; [|reflexivity].
    rewrite HQ by lia.
    replace (n - 5 <? 8) with true by (symmetry; apply Z.ltb_lt; lia).
    rewrite Z.shiftr_spec by lia.
    replace (n - 5 + 5) with n by lia. reflexivity.
Qed.

(** C6.  On a buffer cleared to zeros, a [WHITE] [drawBitmap] returns
    and, for every source byte (row [a] of the [(h + 7) / 8] rows,
    column [iCol]) whose column [x + iCol] is on the screen: when [y] is
    a multiple of 8, the byte of band [y / 8 + a], if that band is on
    the screen, equals the source byte; when [y mod 8 = 3], the bytes
    [lo] of band [y / 8 + a] and [hi] of the band below, if both bands
    are on the screen, recombine to the source byte as
    [(lo >> 3) | (uint8_t)(hi << 5)]. *)
Theorem drawBitmap_on_cleared_buffer x y bitmap w h (b0 : Buf) :
  -32768 <= x <= 32767 -> -32768 <= y <= 32767 ->
  0 <= w <= 255 -> 0 <= h <= 255 ->
  Z.of_nat (length b0) = buf_size ->
  exists b,
    clear b0 = Ok blank /\
    drawBitmap x y bitmap w h WHITE blank = Ok b /\
    forall a iCol,
      0 <= a < (h + 7) / 8 -> 0 <= iCol < w -> 0 <= x + iCol < WIDTH ->
      let src := pgm_read_byte bitmap (a * w + iCol) in
      let band := y / 8 + a in
      (y mod 8 = 0 -> 0 <= band < HEIGHT / 8 ->
       b !! Z.to_nat (band * WIDTH + x + iCol) = Some src) /\
      (y mod 8 = 3 -> 0 <= band -> band + 1 < HEIGHT / 8 ->
       exists lo hi,
         b !! Z.to_nat (band * WIDTH + x + iCol) = Some lo /\
         b !! Z.to_nat ((band + 1) * WIDTH + x + iCol) = Some hi /\
         Z.lor (Z.shiftr lo 3) (u8 (Z.shiftl hi 5)) = src).
Proof.
  intros Hx Hy Hw Hh Hlen.
  change (HEIGHT / 8) with 8. unfold WIDTH.
  destruct (offscreen x y w h) eqn:Hoff.
  - (* rejected: no source byte has its band and column on the screen *)
    exists blank. split; [apply clear_spec; exact Hlen|].
    split; [unfold drawBitmap; rewrite Hoff; reflexivity|].
    pose proof (offscreen_inv x y w h Hx Hy Hw Hh Hoff) as Hout.
    unfold WIDTH, HEIGHT in Hout.
    intros a iCol Ha Hi Hc. cbv zeta.
    split; intros; exfalso; Z.to_euclidean_division_equations; lia.
  - destruct (drawBitmap_white_blank x y bitmap w h (proj1 Hw) (proj1 Hh)
                Hoff) as (b & Hdraw & Hcell).
    exists b. split; [apply clear_spec; exact Hlen|].
    split; [exact Hdraw|].
    intros a iCol Ha Hi Hc. cbv zeta.
    fold (src_byte bitmap w a iCol).
    rewrite band_rows_spec in Hcell by lia.
    destruct (band_offset_spec y) as [Hbo1 Hbo2].
    split.
    + (* aligned *)
      intros Hmod Hband.
      replace ((y / 8 + a) * 128 + x + iCol)
        with ((y / 8 + a) * WIDTH + (x + iCol)) by (unfold WIDTH; lia).
      rewrite Hcell by lia. f_equal. unfold blit_value.
      replace (x + iCol - x) with iCol by lia.
      destruct (Z.ltb_spec y 0) as [Hneg|Hpos].
      * rewrite (Hbo2 Hneg Hmod). cbn [fst snd].
        replace (y / 8 + a - (y / 8 - 1) - 1) with a by lia.
        replace ((0 <=? a) && (a <? (h + 7) / 8)) with true
          by (symmetry; apply andb_true_iff; split;
              [apply Z.leb_le|apply Z.ltb_lt]; lia).
        replace ((0 <=? iCol) && (iCol <? w)) with true
          by (symmetry; apply andb_true_iff; split;
              [apply Z.leb_le|apply Z.ltb_lt]; lia).
        cbn [andb truthy Z.eqb negb]. rewrite u8_shiftl_8.
        change (8 - 8) with 0. rewrite Z.shiftr_0_r.
        rewrite (u8_small _ (src_byte_range bitmap w a iCol)).
        destruct ((0 <=? y / 8 + a - (y / 8 - 1)) &&
                  (y / 8 + a - (y / 8 - 1) <? (h + 7) / 8));
          apply Z.lor_0_l.
      * rewrite (Hbo1 (or_introl Hpos)), Hmod. cbn [fst snd].
        replace (y / 8 + a - y / 8) with a by lia.
        replace ((0 <=? a) && (a <? (h + 7) / 8)) with true
          by (symmetry; apply andb_true_iff; split;
              [apply Z.leb_le|apply Z.ltb_lt]; lia).
        replace ((0 <=? iCol) && (iCol <? w)) with true
          by (symmetry; apply andb_true_iff; split;
              [apply Z.leb_le|apply Z.ltb_lt]; lia).
        cbn [andb truthy Z.eqb negb]. rewrite Z.shiftl_0_r.
        rewrite (u8_small _ (src_byte_range bitmap w a iCol)).
        destruct ((0 <=? a - 1) && (a - 1 <? (h + 7) / 8));
          apply Z.lor_0_r.
    + (* offset 3 *)
      intros Hmod Hband0 Hband1.
      assert (Hbo : band_offset y = (y / 8, 3)).
      { rewrite <- Hmod. apply Hbo1. right. lia. }
      replace ((y / 8 + a) * 128 + x + iCol)
        with ((y / 8 + a) * WIDTH + (x + iCol)) by (unfold WIDTH; lia).
      replace ((y / 8 + a + 1) * 128 + x + iCol)
        with ((y / 8 + a + 1) * WIDTH + (x + iCol)) by (unfold WIDTH; lia).
      rewrite !Hcell by lia. rewrite Hbo. cbn [fst snd].
      eexists. eexists. split; [reflexivity|]. split; [reflexivity|].
      unfold blit_value.
      replace (x + iCol - x) with iCol by lia.
      replace (y / 8 + a - y / 8) with a by lia.
      replace (y / 8 + a + 1 - y / 8 - 1) with a by lia.
      replace ((0 <=? a) && (a <? (h + 7) / 8)) with true
        by (symmetry; apply andb_true_iff; split;
            [apply Z.leb_le|apply Z.ltb_lt]; lia).
      replace ((0 <=? iCol) && (iCol <? w)) with true
        by (symmetry; apply andb_true_iff; split;
            [apply Z.leb_le|apply Z.ltb_lt]; lia).
      cbn [andb truthy Z.eqb negb]. change (8 - 3) with 5.
      apply recombine_3_5.
      * apply src_byte_range.
      * intros n Hn.
        destruct ((0 <=? a - 1) && (a - 1 <? (h + 7) / 8));
          [|apply Z.bits_0].
        rewrite testbit_u8, Z.shiftr_spec by lia.
        rewrite <- (u8_small _ (src_byte_range bitmap w (a - 1) iCol)).
        rewrite testbit_u8.
        replace (n + 5 <? 8) with false by (symmetry; apply Z.ltb_ge; lia).
        cbn [andb]. apply andb_false_r.
      * intros n Hn.
        destruct ((0 <=? y / 8 + a + 1 - y / 8) &&
                  (y / 8 + a + 1 - y / 8 <? (h + 7) / 8));
          [|apply Z.bits_0].
        rewrite testbit_u8, Z.shiftl_spec by lia.
        rewrite Z.testbit_neg_r by lia. apply andb_false_r.
Qed.

(** ** Horizontal runs and flat triangles where the width does not wrap *)

Lemma hline_loop_ors mask n p :
  0 <= p -> p + Z.of_nat n <= buf_size ->
  ors (hline_loop or_assign mask n p)
      (fun k => if (p <=? k) && (k <? p + Z.of_nat n) then u8 mask else 0).
Proof.
  revert p. induction n as [|n IH]; intros p Hp Hn; cbn [hline_loop].
  - apply (ors_ext _ (fun _ => 0)); [|apply ors_skip].
    intros k _. zcases; reflexivity.
  - apply (ors_ext _ (fun k =>
             Z.lor (if k =? p then u8 mask else 0)
                   (if (p + 1 <=? k) && (k <? p + 1 + Z.of_nat n)
                    then u8 mask else 0))).
    + intros k _. zcases; cbn [andb];
        rewrite ?Z.lor_0_l, ?Z.lor_0_r; reflexivity.
    + apply ors_seq.
      * apply ors_or_assign. lia.
      * apply IH; lia.
Qed.

Lemma row_mask y : 0 <= y -> u8 (u8 (Z.shiftl 1 (Z.land y 7))) = 2 ^ (y mod 8).
Proof.
  intros Hy. rewrite u8_idem. rewrite Z.shiftl_1_l.
  change 7 with (Z.ones 3). rewrite Z.land_ones by lia.
  change (2 ^ 3) with 8.
  assert (Hm : 0 <= y mod 8 < 8) by (apply Z.mod_pos_bound; lia).
  apply u8_small. split; [apply Z.pow_nonneg; lia|].
  apply Z.le_lt_trans with (2 ^ 7); [|reflexivity].
  apply Z.pow_le_mono_r; lia.
Qed.

(** A [WHITE] run on row [y] of the screen that starts left of the right
    edge and, if it starts left of the screen, reaches it
    ([x + w >= 0], so that the width does not wrap) sets the bit
    [y mod 8] of the bytes of the columns from [max 0 x] up to, not
    including, [min (x + w) WIDTH] of the band of [y], and nothing
    else. *)
Lemma drawFastHLine_white_clipped x y w :
  0 <= y < HEIGHT -> x < WIDTH -> 0 <= w <= 255 -> 0 <= x + w ->
  ors (drawFastHLine x y w WHITE)
      (fun k => if ((y / 8) * WIDTH + Z.max 0 x <=? k) &&
                   (k <? (y / 8) * WIDTH + Z.min (x + w) WIDTH)
                then 2 ^ (y mod 8) else 0).
Proof.
  intros Hy Hx Hw Hxw. unfold drawFastHLine. unfold HEIGHT, WIDTH in *.
  replace ((y <? 0) || (y >=? 64)) with false.
  2: { symmetry. rewrite Z.geb_leb. apply orb_false_iff.
       split; [apply Z.ltb_ge|apply Z.leb_gt]; lia. }
  assert (Hd : 0 <= y / 8 < 8)
    by (split; [apply Z.div_pos; lia | apply Z.div_lt_upper_bound; lia]).
  set (x1 := Z.max 0 x).
  set (w1 := if x <? 0 then w + x else w).
  assert (E1 : (if x <? 0 then (u8 (w + x), 0) else (w, x)) = (w1, x1)).
  { unfold w1, x1. destruct (Z.ltb_spec x 0).
    - rewrite u8_small by lia. f_equal. lia.
    - f_equal. lia. }
  rewrite E1. clear E1.
  assert (Hw1 : 0 <= w1 <= 255 /\ x1 + w1 = Z.max 0 (x + w) /\ 0 <= x1 < 128).
  { unfold w1, x1. destruct (Z.ltb_spec x 0); lia. }
  unfold WIDTH. rewrite (i16_small (x1 + w1)) by lia.
  set (w2 := Z.min (x + w) 128 - x1).
  assert (E2 : (if x1 + w1 >? 128 then u8 (128 - x1) else w1) = w2).
  { unfold w2. rewrite Z.gtb_ltb. destruct (Z.ltb_spec 128 (x1 + w1)).
    - rewrite u8_small by lia. lia.
    - lia. }
  rewrite E2. clear E2.
  assert (Hw2 : 0 <= w2 <= 128) by (unfold w2; lia).
  destruct (Z.leb_spec w2 0) as [H0|H0].
  - apply (ors_ext _ (fun _ => 0)); [|apply ors_skip].
    intros k _. fold x1. zcases; reflexivity.
  - change (WHITE =? WHITE) with true. cbv iota.
    apply (ors_ext _ (fun k =>
             if (y / 8 * 128 + x1 <=? k) &&
                (k <? y / 8 * 128 + x1 + Z.of_nat (Z.to_nat w2))
             then u8 (u8 (Z.shiftl 1 (Z.land y 7))) else 0)).
    + intros k _. rewrite row_mask by lia. rewrite Z2Nat.id by lia.
      fold x1. unfold w2.
      replace (y / 8 * 128 + x1 + (Z.min (x + w) 128 - x1))
        with (y / 8 * 128 + Z.min (x + w) 128) by lia.
      reflexivity.
    + apply hline_loop_ors; rewrite ?buf_size_eq, ?Z2Nat.id; lia.
Qed.

(** A run on a row that is not of the screen draws nothing. *)
Lemma drawFastHLine_off_rows x y w color (b : Buf) :
  y < 0 \/ HEIGHT <= y -> drawFastHLine x y w color b = Ok b.
Proof.
  intros H. unfold drawFastHLine.
  replace ((y <? 0) || (y >=? HEIGHT)) with true; [reflexivity|].
  symmetry. rewrite Z.geb_leb. apply orb_true_iff.
  destruct H; [left; apply Z.ltb_lt|right; apply Z.leb_le]; lia.
Qed.

(** What the sorting statements of [fillTriangle] do: the y coordinates
    are sorted, the x coordinates end reversed whatever the y were. *)
Lemma fillTriangle_reverses_x fuel x0 y0 x1 y1 x2 y2 color :
  fillTriangle fuel x0 y0 x1 y1 x2 y2 color =
  let '(v0, v1, v2) := sort_by_y (0, y0) (0, y1) (0, y2) in
  fillTriangle_sorted fuel x2 (snd v0) x1 (snd v1) x0 (snd v2) color.
Proof.
  unfold fillTriangle, sort_by_y, swap. cbn [fst snd].
  repeat (match goal with
          | |- context [?a >? ?b] => destruct (a >? b)
          end; cbn [fst snd]);
    reflexivity.
Qed.

(** A [WHITE] triangle whose three vertices are on the screen and share
    their y is the run from the least to the greatest x on that row. *)
Lemma fillTriangle_flat_on_screen fuel x0 x1 x2 y :
  0 <= y < HEIGHT ->
  0 <= x0 < WIDTH -> 0 <= x1 < WIDTH -> 0 <= x2 < WIDTH ->
  ors (fillTriangle fuel x0 y x1 y x2 y WHITE)
      (fun k => if ((y / 8) * WIDTH + Z.min x0 (Z.min x1 x2) <=? k) &&
                   (k <? (y / 8) * WIDTH + Z.max x0 (Z.max x1 x2) + 1)
                then 2 ^ (y mod 8) else 0).
Proof.
  intros Hy H0 H1 H2. unfold WIDTH in *.
  rewrite fillTriangle_reverses_x.
  assert (Es : sort_by_y (0, y) (0, y) (0, y) = ((0, y), (0, y), (0, y))).
  { unfold sort_by_y. simpl.
    repeat (match goal with
            | |- context [?a >? ?b] => destruct (a >? b)
            end; simpl);
      reflexivity. }
  rewrite Es. cbn [fst snd]. clear Es.
  set (mn := Z.min x0 (Z.min x1 x2)). set (mx := Z.max x0 (Z.max x1 x2)).
  assert (E : (let '(a, b) :=
                 if x1 <? x2 then (x1, x2)
                 else if x1 >? x2 then (x2, x1) else (x2, x2) in
               let '(a, b) :=
                 if x0 <? a then (x0, b)
                 else if x0 >? b then (a, x0) else (a, b) in
               (a, b)) = (mn, mx)).
  { unfold mn, mx. rewrite !Z.gtb_ltb.
    repeat (match goal with
            | |- context [?a <? ?b] => destruct (Z.ltb_spec a b)
            end; cbv beta iota; rewrite ?Z.gtb_ltb);
      f_equal; lia. }
  intros b Hlen Hb.
  assert (Hrun : fillTriangle_sorted fuel x2 y x1 y x0 y WHITE b =
                 drawFastHLine mn y (u8 (mx - mn + 1)) WHITE b).
  { unfold fillTriangle_sorted. rewrite Z.eqb_refl.
    revert E.
    destruct (if x1 <? x2 then (x1, x2)
              else if x1 >? x2 then (x2, x1) else (x2, x2)) as [a0 b0].
    destruct (if x0 <? a0 then (x0, b0)
              else if x0 >? b0 then (a0, x0) else (a0, b0)) as [a1 b1].
    intros E. injection E as -> ->. reflexivity. }
  rewrite Hrun. clear Hrun E.
  assert (Hmn : 0 <= mn <= mx /\ mx < 128) by (unfold mn, mx; lia).
  rewrite u8_small by lia.
  destruct (drawFastHLine_white_clipped mn y (mx - mn + 1)) with (b := b)
    as (b' & E' & [L O] & B); try (unfold WIDTH; lia); try assumption.
  exists b'. split; [exact E'|]. split; [|exact B].
  split; [exact L|]. intros k v Hv. rewrite (O k v Hv).
  unfold WIDTH. replace (Z.max 0 mn) with mn by lia.
  replace (Z.min (mn + (mx - mn + 1)) 128) with (mx + 1) by lia.
  rewrite Z.add_assoc. reflexivity.
Qed.

(** ** Glyphs drawn with the background colour of the text colour *)

Lemma char_j_same_colour n x y i color size line line' j :
  char_j n x y i color color size false line j =
  char_j n x y i color color size false line' j.
Proof.
  revert line line' j. induction n as [|n IH]; intros line line' j;
    cbn [char_j].
  - reflexivity.
  - rewrite (IH (Z.shiftr line 1) (Z.shiftr line' 1)).
    destruct (truthy (Z.land line 1)), (truthy (Z.land line' 1));
      reflexivity.
Qed.

(** ** The text cursor *)

(** C10.  Writing a carriage return changes nothing: the call returns
    the object it was given, with the same buffer, cursor, colours, size
    and wrap flag. *)
Theorem write_carriage_return (s : Arduboy) :
  write return_char s = Ok s.
Proof. reflexivity. Qed.

(** C9.  A character other than a newline and a carriage return,
    written with wrap enabled, is drawn at the cursor; the cursor then
    advances by [6 * textSize] in x (in [int16_t] arithmetic), and if
    the advanced x exceeds [WIDTH - 6 * textSize] the newline is
    applied at once: x becomes 0 and y grows by [8 * textSize].
    Nothing else changes.  [write] goes wrong only if [drawChar] does,
    and [drawChar] returns whenever the bounds test of [drawPixel] is
    compiled in or the glyph cell lies on the screen. *)
Theorem write_advances_then_wraps (c : Z) (s : Arduboy) :
  c <> newline_char -> c <> return_char ->
  textWrap s = true ->
  0 <= textSize s <= 255 ->
  let advanced := i16 (cursor_x s + 6 * textSize s) in
  let lower := i16 (cursor_y s + 8 * textSize s) in
  let drawn := drawChar (cursor_x s) (cursor_y s) c (textColor s)
                 (textBackground s) (textSize s) (sBuffer s) in
  write c s =
    (let* b := drawn in
     Ok (if advanced >? WIDTH - 6 * textSize s
         then mkArduboy (base s) b 0 lower (textColor s)
                (textBackground s) (textSize s) true
         else mkArduboy (base s) b advanced (cursor_y s) (textColor s)
                (textBackground s) (textSize s) true)) /\
  (Z.of_nat (length (sBuffer s)) = buf_size ->
   PIXEL_SAFE_MODE = true \/
     cell_on_screen (cursor_x s) (cursor_y s) (textSize s) ->
   exists b, drawn = Ok b) /\
  (-32768 <= cursor_x s -> cursor_x s + 6 * textSize s <= 32767 ->
   advanced = cursor_x s + 6 * textSize s) /\
  (-32768 <= cursor_y s -> cursor_y s + 8 * textSize s <= 32767 ->
   lower = cursor_y s + 8 * textSize s).
Proof.
  intros Hnl Hcr Hwrap Hsize. cbv zeta.
  split; [|split; [|split]].
  - unfold write. simpl write_rec.
    replace (c =? newline_char) with false
      by (symmetry; apply Z.eqb_neq; exact Hnl).
    replace (c =? return_char) with false
      by (symmetry; apply Z.eqb_neq; exact Hcr).
    destruct (drawChar (cursor_x s) (cursor_y s) c (textColor s)
                (textBackground s) (textSize s) (sBuffer s)) as [b| |];
      [|reflexivity|reflexivity].
    simpl. rewrite Hwrap. simpl.
    replace (textSize s * 6) with (6 * textSize s) by lia.
    replace (textSize s * 8) with (8 * textSize s) by lia.
    destruct (i16 (cursor_x s + 6 * textSize s) >? WIDTH - 6 * textSize s).
    + change (10 =? newline_char) with true. cbv iota.
      unfold set_cursor, set_buffer. simpl. rewrite Hwrap. reflexivity.
    + unfold set_cursor, set_buffer. simpl. rewrite Hwrap. reflexivity.
  - intros Hlen Hok.
    destruct (drawChar_total (cursor_x s) (cursor_y s) c (textColor s)
                (textBackground s) (textSize s) (proj1 Hsize) Hok
                (sBuffer s) Hlen) as (b & Hdraw & _).
    exists b. exact Hdraw.
  - intros Hlo Hhi. apply i16_small. lia.
  - intros Hlo Hhi. apply i16_small. lia.
Qed.

(** ** Operations as pictures *)

Lemma classic_on_screen x y : on_screen x y \/ ~ on_screen x y.
Proof. unfold on_screen. lia. Qed.

Lemma renders_skip : renders skip (fun _ _ => None).
Proof.
  intros b Hb. exists b. split; [reflexivity|]. split; [exact Hb|].
  intros px py _. reflexivity.
Qed.

Lemma renders_seq c1 c2 F1 F2 :
  renders c1 F1 -> renders c2 F2 -> renders (c1 >> c2) (over F1 F2).
Proof.
  intros H1 H2 b Hb.
  destruct (H1 b Hb) as (b1 & E1 & L1 & P1).
  destruct (H2 b1 L1) as (b2 & E2 & L2 & P2).
  exists b2. split; [|split; [exact L2|]].
  - unfold seq. rewrite E1. simpl. exact E2.
  - intros px py Hon. unfold over. rewrite (P2 px py Hon).
    destruct (F2 px py); [reflexivity|]. apply P1, Hon.
Qed.

Lemma renders_ext c F F' :
  (forall px py, on_screen px py -> F px py = F' px py) ->
  renders c F -> renders c F'.
Proof.
  intros HF H b Hb. destruct (H b Hb) as (b' & E & L & P).
  exists b'. split; [exact E|]. split; [exact L|].
  intros px py Hon. rewrite <- (HF px py Hon). apply P, Hon.
Qed.

Lemma same_byte_same_column x y px py :
  on_screen x y -> on_screen px py ->
  byte_index px py = byte_index x y -> px = x /\ py / 8 = y / 8.
Proof.
  unfold on_screen, byte_index, WIDTH. intros [Hx _] [Hpx _] H. lia.
Qed.

(** [drawPixel] sets its pixel and no other. *)
Lemma renders_drawPixel x y color :
  drawable x y -> renders (drawPixel x y color) (dot x y (truthy color)).
Proof.
  intros Hd b Hb.
  destruct (classic_on_screen x y) as [Hon|Hoff].
  - pose proof (byte_index_range x y Hon) as Hr.
    destruct (lookup_in_range b (byte_index x y)) as [old Hold]; [lia|].
    rewrite (drawPixel_on_screen x y color b old Hon Hold).
    set (new := if truthy color
                then u8 (Z.lor old (_BV (y mod 8)))
                else u8 (Z.land old (Z.lnot (_BV (y mod 8))))).
    assert (Hm : 0 <= y mod 8 < 8) by (apply Z.mod_pos_bound; lia).
    assert (Hbits : forall n, 0 <= n < 8 ->
              Z.testbit new n =
              if n =? y mod 8 then truthy color else Z.testbit old n).
    { intros n Hn. unfold new. destruct (truthy color).
      - apply set_bit_spec; lia.
      - apply clear_bit_spec; lia. }
    eexists. split; [reflexivity|]. split; [rewrite length_insert; exact Hb|].
    intros px py Hp. unfold dot.
    pose proof (byte_index_range px py Hp) as Hpr.
    assert (Hpm : 0 <= py mod 8 < 8) by (apply Z.mod_pos_bound; lia).
    destruct (Z.eq_dec (byte_index px py) (byte_index x y)) as [Hi|Hi].
    + destruct (same_byte_same_column x y px py Hon Hp Hi) as [-> Hdiv].
      rewrite Z.eqb_refl. cbn [andb].
      rewrite (getPixel_on_screen x py _ new Hp)
        by (rewrite Hi; apply list_lookup_insert_eq; lia).
      rewrite (Hbits _ Hpm).
      pose proof (Z.div_mod py 8) as Dp. pose proof (Z.div_mod y 8) as Dy.
      destruct (Z.eqb_spec (py mod 8) (y mod 8)) as [Em|Em].
      * replace (py =? y) with true by (symmetry; apply Z.eqb_eq; lia).
        reflexivity.
      * replace (py =? y) with false
          by (symmetry; apply Z.eqb_neq; intros ->; apply Em; reflexivity).
        symmetry. apply getPixel_on_screen; [exact Hp|].
        rewrite Hi. exact Hold.
    + replace ((px =? x) && (py =? y)) with false.
      2: { symmetry. apply andb_false_iff.
           destruct (Z.eqb_spec px x) as [->|]; [|left; reflexivity].
           destruct (Z.eqb_spec py y) as [->|]; [|right; reflexivity].
           exfalso. apply Hi. reflexivity. }
      destruct (lookup_in_range b (byte_index px py)) as [v Hv]; [lia|].
      rewrite (getPixel_on_screen px py b v Hp Hv).
      apply getPixel_on_screen; [exact Hp|].
      rewrite list_lookup_insert_ne by lia. exact Hv.
  - destruct Hd as [Hsafe|Hon]; [|contradiction].
    rewrite (drawPixel_off_screen x y color b Hsafe Hoff).
    exists b. split; [reflexivity|]. split; [exact Hb|].
    intros px py Hp. unfold dot.
    replace ((px =? x) && (py =? y)) with false; [reflexivity|].
    symmetry. apply andb_false_iff.
    destruct (Z.eqb_spec px x) as [->|]; [|left; reflexivity].
    destruct (Z.eqb_spec py y) as [->|]; [|right; reflexivity].
    contradiction.
Qed.

Lemma lay_one F i n px py j1 v :
  (forall j, i <= j < i + Z.of_nat n ->
     F j px py = if j =? j1 then v else None) ->
  lay F i n px py = if (i <=? j1) && (j1 <? i + Z.of_nat n) then v else None.
Proof.
  revert i. induction n as [|n IH]; intros i HF.
  - cbn [lay].
    destruct (Z.leb_spec i j1), (Z.ltb_spec j1 (i + Z.of_nat 0));
      try reflexivity; lia.
  - cbn [lay]. rewrite HF by lia.
    rewrite IH by (intros j Hj; apply HF; lia).
    destruct (Z.eqb_spec i j1), (Z.leb_spec i j1),
      (Z.leb_spec (i + 1) j1), (Z.ltb_spec j1 (i + Z.of_nat (S n))),
      (Z.ltb_spec j1 (i + 1 + Z.of_nat n)); try lia; cbn [andb];
      try reflexivity; destruct v; reflexivity.
Qed.

(** Turning a boolean equation into arithmetic. *)
Ltac bool_arith :=
  apply eq_true_iff_eq;
  repeat first [rewrite orb_true_iff | rewrite andb_true_iff];
  rewrite ?Z.eqb_eq, ?Z.leb_le, ?Z.ltb_lt;
  unfold on_screen, WIDTH, HEIGHT in *; lia.

Lemma paint_ext (P Q : Z -> Z -> bool) v px py :
  P px py = Q px py -> paint P v px py = paint Q v px py.
Proof. unfold paint. intros ->. reflexivity. Qed.

Lemma over_paint P Q v px py :
  over (paint P v) (paint Q v) px py =
  paint (fun px py => P px py || Q px py) v px py.
Proof.
  unfold over, paint. destruct (P px py), (Q px py); reflexivity.
Qed.

(** A painted set, pixel by pixel. *)
Lemma renders_paint c (P : Z -> Z -> bool) v (b : Buf) :
  renders c (paint P v) -> Z.of_nat (length b) = buf_size ->
  exists b', c b = Ok b' /\ Z.of_nat (length b') = buf_size /\
    forall px py, on_screen px py ->
      getPixel px py b' =
      if P px py then Ok (Z.b2z v) else getPixel px py b.
Proof.
  intros R Hb. destruct (R b Hb) as (b' & E & L & H).
  exists b'. split; [exact E|]. split; [exact L|].
  intros px py Hon. rewrite (H px py Hon). unfold paint.
  destruct (P px py); reflexivity.
Qed.

(** *** [fillScreen] *)

Lemma testbit_255 k : 0 <= k < 8 -> Z.testbit 255 k = true.
Proof.
  intros Hk. change 255 with (Z.ones 8). apply Z.ones_spec_low. lia.
Qed.

(** X3. after [fillScreen] every pixel of the screen reads [WHITE] if the
    colour given was not zero and [BLACK] if it was; [clear] leaves
    every pixel [BLACK]. *)
Theorem fillScreen_renders color :
  renders (fillScreen color) (fun _ _ => Some (truthy color)).
Proof.
  intros b Hb. rewrite buf_size_eq in Hb. unfold fillScreen.
  replace (Z.of_nat (length b) <? 4 * 256) with false
    by (symmetry; apply Z.ltb_ge; lia).
  rewrite drop_ge by lia. rewrite app_nil_r.
  eexists. split; [reflexivity|]. split; [reflexivity|].
  intros px py Hon.
  pose proof (byte_index_range px py Hon) as Hr. rewrite buf_size_eq in Hr.
  assert (Hm : 0 <= py mod 8 < 8) by (apply Z.mod_pos_bound; lia).
  rewrite (getPixel_on_screen px py _ (if truthy color then 255 else 0) Hon)
    by (apply lookup_replicate_2; change (Z.to_nat (4 * 256)) with 1024%nat;
        lia).
  destruct (truthy color).
  - rewrite testbit_255 by lia. reflexivity.
  - rewrite Z.bits_0. reflexivity.
Qed.

(** *** [drawFastVLine] and [fillRect] *)

Lemma vline_loop_renders n x color a :
  (forall k, a <= k < a + Z.of_nat n -> drawable x k) ->
  renders (vline_loop n x color a)
          (lay (fun i => dot x i (truthy color)) a n).
Proof.
  revert a. induction n as [|n IH]; intros a H; cbn [vline_loop].
  - apply renders_skip.
  - apply (renders_seq _ _ (dot x a (truthy color))
             (lay (fun i => dot x i (truthy color)) (a + 1) n)).
    + apply renders_drawPixel, H. lia.
    + apply IH. intros k Hk. apply H. lia.
Qed.

(** The picture of [drawFastVLine]: a column clipped to the rows of the
    screen. *)
Lemma drawFastVLine_paints x y h color :
  -32768 <= y <= 32767 -> 0 <= h <= 255 ->
  PIXEL_SAFE_MODE = true \/ 0 <= x < WIDTH ->
  renders (drawFastVLine x y h color)
          (paint (fun px py => (px =? x) && (y <=? py) && (py <? y + h))
             (truthy color)).
Proof.
  intros Hy Hh Hx. unfold drawFastVLine. cbv zeta.
  set (stop := Z.min (i16 (y + h)) HEIGHT).
  set (a := Z.max 0 y).
  assert (Hstop : stop <= HEIGHT) by (unfold stop; lia).
  apply (renders_ext _ (lay (fun i => dot x i (truthy color)) a
                          (Z.to_nat (stop - a)))).
  - intros px py Hon.
    rewrite (lay_one _ a _ px py py
               (if px =? x then Some (truthy color) else None)).
    + unfold paint.
      assert (E : (a <=? py) && (py <? a + Z.of_nat (Z.to_nat (stop - a)))
                  = (y <=? py) && (py <? y + h)).
      { unfold stop, a.
        destruct (Z_le_gt_dec (y + h) 32767) as [Hs|Hs].
        - rewrite i16_small by lia. bool_arith.
        - assert (i16 (y + h) < 0).
          { unfold i16, signed. change (2 ^ (16 - 1)) with 32768.
            change (2 ^ 16) with 65536.
            replace (y + h + 32768) with (y + h - 32768 + 1 * 65536) by lia.
            rewrite Z.mod_add by lia. rewrite Z.mod_small by lia. lia. }
          bool_arith. }
      rewrite E.
      destruct (px =? x); cbn [andb];
        destruct ((y <=? py) && (py <? y + h)); reflexivity.
    + intros j _. unfold dot. rewrite (Z.eqb_sym py j).
      destruct (j =? py); [|rewrite andb_false_r]; try reflexivity.
      rewrite andb_true_r. reflexivity.
  - apply vline_loop_renders. intros k Hk.
    destruct Hx as [Hsafe|Hx]; [left; exact Hsafe|right].
    unfold on_screen. unfold a in Hk. lia.
Qed.

(** X4. [drawFastVLine] sets the pixels of column [x] from row [y] up to,
    not including, row [y + h] that are on the screen, and no other
    pixel; it needs the bounds test of [drawPixel] or a column of the
    screen. *)
Theorem drawFastVLine_renders x y h color (b : Buf) :
  -32768 <= y <= 32767 -> 0 <= h <= 255 ->
  PIXEL_SAFE_MODE = true \/ 0 <= x < WIDTH ->
  Z.of_nat (length b) = buf_size ->
  exists b',
    drawFastVLine x y h color b = Ok b' /\
    Z.of_nat (length b') = buf_size /\
    forall px py, on_screen px py ->
      getPixel px py b' =
      if (px =? x) && (y <=? py) && (py <? y + h)
      then Ok (Z.b2z (truthy color)) else getPixel px py b.
Proof.
  intros Hy Hh Hx Hb.
  apply (renders_paint _
           (fun px py => (px =? x) && (y <=? py) && (py <? y + h)));
    [|exact Hb].
  apply drawFastVLine_paints; assumption.
Qed.

Lemma rect_loop_renders n y h color i :
  -32768 <= y <= 32767 -> 0 <= h <= 255 ->
  (forall k, i <= k < i + Z.of_nat n ->
     PIXEL_SAFE_MODE = true \/ 0 <= k < WIDTH) ->
  renders (rect_loop n y h color i)
          (lay (fun k => paint (fun px py =>
                                  (px =? k) && (y <=? py) && (py <? y + h))
                           (truthy color)) i n).
Proof.
  intros Hy Hh. revert i. induction n as [|n IH]; intros i H;
    cbn [rect_loop].
  - apply renders_skip.
  - apply (renders_seq _ _
             (paint (fun px py => (px =? i) && (y <=? py) && (py <? y + h))
                (truthy color))
             (lay (fun k => paint (fun px py =>
                                     (px =? k) && (y <=? py) && (py <? y + h))
                              (truthy color)) (i + 1) n)).
    + apply drawFastVLine_paints; try assumption. apply H. lia.
    + apply IH. intros k Hk. apply H. lia.
Qed.

(** The picture of [fillRect]. *)
Lemma fillRect_paints x y w h color :
  -32768 <= x <= 32767 -> -32768 <= y <= 32767 ->
  0 <= w <= 255 -> 0 <= h <= 255 ->
  PIXEL_SAFE_MODE = true \/ (0 <= x /\ x + w <= WIDTH) ->
  renders (fillRect x y w h color)
          (paint (fun px py => (x <=? px) && (px <? x + w) &&
                               (y <=? py) && (py <? y + h))
             (truthy color)).
Proof.
  intros Hx Hy Hw Hh Hok. unfold fillRect.
  apply (renders_ext _
           (lay (fun k => paint (fun px py =>
                                   (px =? k) && (y <=? py) && (py <? y + h))
                            (truthy color)) x (Z.to_nat (i16 (x + w) - x)))).
  - intros px py Hon.
    rewrite (lay_one _ x _ px py px
               (if (y <=? py) && (py <? y + h)
                then Some (truthy color) else None)).
    + unfold paint.
      assert (E : (x <=? px) &&
                  (px <? x + Z.of_nat (Z.to_nat (i16 (x + w) - x)))
                  = (x <=? px) && (px <? x + w)).
      { destruct (Z_le_gt_dec (x + w) 32767) as [Hs|Hs].
        - rewrite i16_small by lia. bool_arith.
        - assert (i16 (x + w) < 0).
          { unfold i16, signed. change (2 ^ (16 - 1)) with 32768.
            change (2 ^ 16) with 65536.
            replace (x + w + 32768) with (x + w - 32768 + 1 * 65536) by lia.
            rewrite Z.mod_add by lia. rewrite Z.mod_small by lia. lia. }
          bool_arith. }
      rewrite E.
      destruct ((x <=? px) && (px <? x + w)); cbn [andb];
        destruct ((y <=? py) && (py <? y + h)); reflexivity.
    + intros j _. unfold paint. rewrite (Z.eqb_sym px j).
      destruct (j =? px); cbn [andb]; reflexivity.
  - apply rect_loop_renders; try assumption.
    intros k Hk. destruct Hok as [Hs|[H0 H1]]; [left; exact Hs|right].
    assert (x + w <= 32767) by (unfold WIDTH in H1; lia).
    rewrite i16_small in Hk by lia. lia.
Qed.

(** X7. [fillRect] sets the pixels of the box [[x, x+w)] by [[y, y+h)]
    that are on the screen, and no other pixel; it needs the bounds test
    of [drawPixel] or columns of the screen. *)
Theorem fillRect_renders x y w h color (b : Buf) :
  -32768 <= x <= 32767 -> -32768 <= y <= 32767 ->
  0 <= w <= 255 -> 0 <= h <= 255 ->
  PIXEL_SAFE_MODE = true \/ (0 <= x /\ x + w <= WIDTH) ->
  Z.of_nat (length b) = buf_size ->
  exists b',
    fillRect x y w h color b = Ok b' /\
    Z.of_nat (length b') = buf_size /\
    forall px py, on_screen px py ->
      getPixel px py b' =
      if (x <=? px) && (px <? x + w) && (y <=? py) && (py <? y + h)
      then Ok (Z.b2z (truthy color)) else getPixel px py b.
Proof.
  intros Hx Hy Hw Hh Hok Hb.
  apply (renders_paint _
           (fun px py => (x <=? px) && (px <? x + w) &&
                         (y <=? py) && (py <? y + h)));
    [|exact Hb].
  apply fillRect_paints; assumption.
Qed.

(** *** [drawFastHLine] and [drawRect] *)

Lemma row_mask_BV y : 0 <= y -> u8 (Z.shiftl 1 (Z.land y 7)) = _BV (y mod 8).
Proof.
  intros Hy. rewrite <- u8_idem. rewrite row_mask by exact Hy.
  symmetry. apply BV_pow2.
Qed.

Lemma u8_land_u8 a m : u8 (Z.land a (u8 m)) = u8 (Z.land a m).
Proof.
  apply Z.bits_inj'. intros n Hn.
  rewrite !testbit_u8, !Z.land_spec, testbit_u8.
  destruct (n <? 8), (Z.testbit a n), (Z.testbit m n); reflexivity.
Qed.

Lemma or_assign_is_drawPixel c y (b : Buf) :
  on_screen c y -> Z.of_nat (length b) = buf_size ->
  or_assign ((y / 8) * WIDTH + c) (u8 (Z.shiftl 1 (Z.land y 7))) b =
  drawPixel c y WHITE b.
Proof.
  intros Hon Hb. pose proof (byte_index_range c y Hon) as Hr.
  destruct (lookup_in_range b (byte_index c y)) as [old Hold]; [lia|].
  rewrite (drawPixel_on_screen c y WHITE b old Hon Hold).
  fold (byte_index c y).
  rewrite (or_assign_ok _ _ b old) by (lia || exact Hold).
  rewrite row_mask_BV by (destruct Hon; lia). reflexivity.
Qed.

Lemma and_assign_is_drawPixel c y (b : Buf) :
  on_screen c y -> Z.of_nat (length b) = buf_size ->
  and_assign ((y / 8) * WIDTH + c)
    (u8 (Z.lnot (u8 (Z.shiftl 1 (Z.land y 7))))) b =
  drawPixel c y BLACK b.
Proof.
  intros Hon Hb. pose proof (byte_index_range c y Hon) as Hr.
  destruct (lookup_in_range b (byte_index c y)) as [old Hold]; [lia|].
  rewrite (drawPixel_on_screen c y BLACK b old Hon Hold).
  fold (byte_index c y).
  rewrite (and_assign_ok _ _ b old) by (lia || exact Hold).
  rewrite u8_land_u8. rewrite row_mask_BV by (destruct Hon; lia).
  reflexivity.
Qed.

Lemma hline_loop_renders assign m y color n c0 :
  (forall c (b : Buf), on_screen c y -> Z.of_nat (length b) = buf_size ->
     assign ((y / 8) * WIDTH + c) m b = drawPixel c y color b) ->
  0 <= y < HEIGHT -> 0 <= c0 -> c0 + Z.of_nat n <= WIDTH ->
  renders (hline_loop assign m n ((y / 8) * WIDTH + c0))
          (lay (fun c => dot c y (truthy color)) c0 n).
Proof.
  intros Hassign Hy. revert c0.
  induction n as [|n IH]; intros c0 H0 Hn; cbn [hline_loop].
  - apply renders_skip.
  - apply (renders_seq _ _ (dot c0 y (truthy color))
             (lay (fun c => dot c y (truthy color)) (c0 + 1) n)).
    + intros b Hb. rewrite Hassign by (try assumption; split; lia).
      apply renders_drawPixel; [|exact Hb]. right. split; lia.
    + replace (y / 8 * WIDTH + c0 + 1) with (y / 8 * WIDTH + (c0 + 1))
        by lia.
      apply IH; lia.
Qed.

(** The picture of a [WHITE] or [BLACK] [drawFastHLine] whose width does
    not wrap. *)
Lemma drawFastHLine_paints x y w color :
  color = WHITE \/ color = BLACK ->
  x < WIDTH -> 0 <= w <= 255 -> 0 <= x + w ->
  renders (drawFastHLine x y w color)
          (paint (fun px py => (py =? y) && (x <=? px) && (px <? x + w))
             (truthy color)).
Proof.
  intros Hcol Hx Hw Hxw. unfold drawFastHLine.
  destruct (Z.ltb_spec y 0) as [Hy0|Hy0]; cbn [orb].
  { apply (renders_ext _ (fun _ _ => None)); [|apply renders_skip].
    intros px py Hon. unfold paint.
    replace (py =? y) with false; [reflexivity|].
    symmetry. apply Z.eqb_neq. destruct Hon. lia. }
  rewrite Z.geb_leb.
  destruct (Z.leb_spec HEIGHT y) as [Hy1|Hy1].
  { apply (renders_ext _ (fun _ _ => None)); [|apply renders_skip].
    intros px py Hon. unfold paint.
    replace (py =? y) with false; [reflexivity|].
    symmetry. apply Z.eqb_neq. destruct Hon. lia. }
  unfold WIDTH in Hx.
  set (x1 := Z.max 0 x).
  set (w1 := if x <? 0 then w + x else w).
  assert (E1 : (if x <? 0 then (u8 (w + x), 0) else (w, x)) = (w1, x1)).
  { unfold w1, x1. destruct (Z.ltb_spec x 0).
    - rewrite u8_small by lia. f_equal. lia.
    - f_equal. lia. }
  rewrite E1. clear E1.
  assert (Hw1 : 0 <= w1 <= 255 /\ x1 + w1 = Z.max 0 (x + w) /\ 0 <= x1 < 128).
  { unfold w1, x1. destruct (Z.ltb_spec x 0); lia. }
  rewrite (i16_small (x1 + w1)) by lia.
  set (w2 := Z.min (x + w) 128 - x1).
  assert (E2 : (if x1 + w1 >? WIDTH then u8 (WIDTH - x1) else w1) = w2).
  { unfold w2, WIDTH. rewrite Z.gtb_ltb. destruct (Z.ltb_spec 128 (x1 + w1)).
    - rewrite u8_small by lia. lia.
    - lia. }
  rewrite E2. clear E2.
  assert (Hw2 : 0 <= w2 <= 128) by (unfold w2; lia).
  assert (Hclosed : forall px py, on_screen px py ->
            lay (fun c => dot c y (truthy color)) x1 (Z.to_nat w2) px py =
            paint (fun px py => (py =? y) && (x <=? px) && (px <? x + w))
              (truthy color) px py).
  { intros px py Hon.
    rewrite (lay_one _ x1 _ px py px
               (if py =? y then Some (truthy color) else None)).
    - unfold paint. rewrite Z2Nat.id by lia.
      assert (E : (x1 <=? px) && (px <? x1 + w2)
                  = (x <=? px) && (px <? x + w)).
      { unfold x1, w2. bool_arith. }
      rewrite E. destruct (py =? y); cbn [andb];
        destruct ((x <=? px) && (px <? x + w)); reflexivity.
    - intros j _. unfold dot. rewrite (Z.eqb_sym px j).
      destruct (j =? px); cbn [andb]; reflexivity. }
  destruct (Z.leb_spec w2 0) as [H0|H0].
  - apply (renders_ext _ (fun _ _ => None)); [|apply renders_skip].
    intros px py Hon. rewrite <- (Hclosed px py Hon).
    replace (Z.to_nat w2) with 0%nat by lia. reflexivity.
  - apply (renders_ext _ _ _ Hclosed).
    destruct Hcol as [-> | ->].
    + change (WHITE =? WHITE) with true. cbv iota.
      apply hline_loop_renders; try lia; try (unfold WIDTH; lia).
      intros c b Hon Hb. apply or_assign_is_drawPixel; assumption.
    + change (BLACK =? WHITE) with false.
      change (BLACK =? BLACK) with true. cbv iota.
      apply hline_loop_renders; try lia; try (unfold WIDTH; lia).
      intros c b Hon Hb. apply and_assign_is_drawPixel; assumption.
Qed.

(** X5. a [WHITE] or [BLACK] [drawFastHLine] whose width does not wrap
    (the run starts left of the right edge and, if it starts left of the
    screen, reaches it) sets the pixels of row [y] from column [x] up to,
    not including, column [x + w] that are on the screen, and no other
    pixel. *)
Theorem drawFastHLine_renders x y w color (b : Buf) :
  color = WHITE \/ color = BLACK ->
  x < WIDTH -> 0 <= w <= 255 -> 0 <= x + w ->
  Z.of_nat (length b) = buf_size ->
  exists b',
    drawFastHLine x y w color b = Ok b' /\
    Z.of_nat (length b') = buf_size /\
    forall px py, on_screen px py ->
      getPixel px py b' =
      if (py =? y) && (x <=? px) && (px <? x + w)
      then Ok (Z.b2z (truthy color)) else getPixel px py b.
Proof.
  intros Hc Hx Hw Hxw Hb.
  apply (renders_paint _
           (fun px py => (py =? y) && (x <=? px) && (px <? x + w)));
    [|exact Hb].
  apply drawFastHLine_paints; assumption.
Qed.

(** X6. with a colour other than [WHITE] and [BLACK], [drawFastHLine]
    draws nothing, whatever the run: its [switch] has no case for it. *)
Theorem drawFastHLine_other_colour x y w color (b : Buf) :
  color <> WHITE -> color <> BLACK ->
  drawFastHLine x y w color b = Ok b.
Proof.
  intros Hw Hb. unfold drawFastHLine.
  destruct ((y <? 0) || (y >=? HEIGHT)); [reflexivity|].
  destruct (if x <? 0 then (u8 (w + x), 0) else (w, x)) as [w1 x1].
  destruct (_ <=? 0); [reflexivity|].
  replace (color =? WHITE) with false by (symmetry; apply Z.eqb_neq; exact Hw).
  replace (color =? BLACK) with false by (symmetry; apply Z.eqb_neq; exact Hb).
  reflexivity.
Qed.

(** X8. a [WHITE] or [BLACK] [drawRect] of at least one pixel each way
    sets the pixels of the border of the box [[x, x+w)] by [[y, y+h)]
    that are on the screen, and no other pixel. *)
Theorem drawRect_renders x y w h color :
  color = WHITE \/ color = BLACK ->
  -32768 <= x < WIDTH -> 0 <= x + w ->
  -32768 <= y -> y + h <= 32768 ->
  1 <= w <= 255 -> 1 <= h <= 255 ->
  PIXEL_SAFE_MODE = true \/ (0 <= x /\ x + w <= WIDTH) ->
  renders (drawRect x y w h color)
          (paint (fun px py =>
                    (x <=? px) && (px <? x + w) &&
                    (y <=? py) && (py <? y + h) &&
                    ((px =? x) || (px =? x + w - 1) ||
                     (py =? y) || (py =? y + h - 1)))
             (truthy color)).
Proof.
  intros Hcol Hx Hxw Hy Hyh Hw Hh Hok. unfold drawRect.
  unfold WIDTH in Hx.
  rewrite (i16_small (y + h - 1)) by lia.
  rewrite (i16_small (x + w - 1)) by lia.
  eapply renders_ext.
  2: { apply renders_seq; [apply (drawFastHLine_paints x y w color);
                            try assumption; unfold WIDTH; lia|].
       apply renders_seq; [apply (drawFastHLine_paints x (y + h - 1) w color);
                            try assumption; unfold WIDTH; lia|].
       apply renders_seq; [apply (drawFastVLine_paints x y h color); try lia;
                            destruct Hok as [Hs|Hs];
                            [left; exact Hs|right; unfold WIDTH in *; lia]|].
       apply (drawFastVLine_paints (x + w - 1) y h color); try lia.
       destruct Hok as [Hs|Hs];
         [left; exact Hs|right; unfold WIDTH in *; lia]. }
  intros px py Hon. cbv beta.
  unfold over, paint.
  assert (E : ((py =? y) && (x <=? px) && (px <? x + w)) ||
              ((py =? y + h - 1) && (x <=? px) && (px <? x + w)) ||
              ((px =? x) && (y <=? py) && (py <? y + h)) ||
              ((px =? x + w - 1) && (y <=? py) && (py <? y + h)) =
              (x <=? px) && (px <? x + w) && (y <=? py) && (py <? y + h) &&
              ((px =? x) || (px =? x + w - 1) ||
               (py =? y) || (py =? y + h - 1))).
  { bool_arith. }
  rewrite <- E.
  destruct ((py =? y) && (x <=? px) && (px <? x + w)),
    ((py =? y + h - 1) && (x <=? px) && (px <? x + w)),
    ((px =? x) && (y <=? py) && (py <? y + h)),
    ((px =? x + w - 1) && (y <=? py) && (py <? y + h)); reflexivity.
Qed.

(** *** [drawBitmap] applied twice *)

Lemma u8_land a b : u8 (Z.land a b) = Z.land (u8 a) (u8 b).
Proof.
  apply Z.bits_inj'. intros n Hn.
  rewrite Z.land_spec, !testbit_u8, Z.land_spec.
  destruct (n <? 8), (Z.testbit a n), (Z.testbit b n); reflexivity.
Qed.

Lemma u8_lxor a b : u8 (Z.lxor a b) = Z.lxor (u8 a) (u8 b).
Proof.
  apply Z.bits_inj'. intros n Hn.
  rewrite Z.lxor_spec, !testbit_u8, Z.lxor_spec.
  destruct (n <? 8), (Z.testbit a n), (Z.testbit b n); reflexivity.
Qed.

Lemma land_255 v : 0 <= v < 256 -> Z.land v 255 = v.
Proof.
  intros Hv. change 255 with (Z.ones 8). rewrite Z.land_ones by lia.
  apply Z.mod_small. exact Hv.
Qed.

Lemma blit_op_unit color v :
  0 <= v < 256 -> blit_op color v (blit_unit color) = v.
Proof.
  intros Hv. unfold blit_op, blit_unit.
  destruct (color =? WHITE); [apply Z.lor_0_r|].
  destruct (color =? BLACK); [apply land_255; exact Hv|apply Z.lxor_0_r].
Qed.

Lemma blit_op_assoc color v a b :
  blit_op color (blit_op color v a) b = blit_op color v (blit_op color a b).
Proof.
  unfold blit_op.
  destruct (color =? WHITE); [symmetry; apply Z.lor_assoc|].
  destruct (color =? BLACK);
    [symmetry; apply Z.land_assoc|apply Z.lxor_assoc].
Qed.

Lemma blit_op_u8 color v m :
  0 <= v < 256 -> u8 (blit_op color v m) = blit_op color v (u8 m).
Proof.
  intros Hv. unfold blit_op.
  destruct (color =? WHITE); [rewrite u8_lor, (u8_small v Hv); reflexivity|].
  destruct (color =? BLACK).
  - rewrite u8_land, (u8_small v Hv). reflexivity.
  - rewrite u8_lxor, (u8_small v Hv). reflexivity.
Qed.

Lemma blit_op_bytes color a b :
  0 <= a < 256 -> 0 <= b < 256 -> 0 <= blit_op color a b < 256.
Proof.
  intros Ha Hb. rewrite <- (u8_small b Hb), <- blit_op_u8 by exact Ha.
  apply u8_range.
Qed.

Lemma blit_unit_byte color : 0 <= blit_unit color < 256.
Proof.
  unfold blit_unit. destruct (color =? WHITE); [lia|].
  destruct (color =? BLACK); lia.
Qed.

Lemma blit_unfold color i v :
  blit color i v =
  modify (fun old => blit_op color old (blit_mask color v)) i.
Proof.
  unfold blit, blit_op, blit_mask, or_assign, and_assign, xor_assign.
  destruct (color =? WHITE); [reflexivity|].
  destruct (color =? BLACK); reflexivity.
Qed.

Lemma acts_skip color : acts color skip.
Proof.
  exists (fun _ => blit_unit color). split; [intros k; apply blit_unit_byte|].
  intros b Hlen Hb. exists b. split; [reflexivity|]. split; [|exact Hb].
  split; [reflexivity|]. intros k v Hv.
  rewrite blit_op_unit by (eapply Hb; exact Hv). exact Hv.
Qed.

Lemma acts_seq color c1 c2 :
  acts color c1 -> acts color c2 -> acts color (c1 >> c2).
Proof.
  intros (C1 & B1 & H1) (C2 & B2 & H2).
  exists (fun k => blit_op color (C1 k) (C2 k)).
  split; [intros k; apply blit_op_bytes; [apply B1|apply B2]|].
  intros b Hlen Hb.
  destruct (H1 b Hlen Hb) as (b1 & E1 & [L1 O1] & Hb1).
  assert (Hlen1 : Z.of_nat (length b1) = buf_size) by (rewrite L1; exact Hlen).
  destruct (H2 b1 Hlen1 Hb1) as (b2 & E2 & [L2 O2] & Hb2).
  exists b2. split; [|split; [split|exact Hb2]].
  - unfold seq. rewrite E1. simpl. exact E2.
  - rewrite L2. exact L1.
  - intros k v Hv. rewrite <- blit_op_assoc. apply O2, O1, Hv.
Qed.

Lemma acts_blit color i v :
  0 <= i < buf_size -> acts color (blit color i v).
Proof.
  intros Hi.
  exists (fun k => if k =? i then u8 (blit_mask color v) else blit_unit color).
  split.
  { intros k. destruct (k =? i); [apply u8_range|apply blit_unit_byte]. }
  intros b Hlen Hb. rewrite blit_unfold.
  destruct (lookup_in_range b i) as [old Hold]; [lia|].
  rewrite (modify_ok _ i b old) by (lia || exact Hold).
  eexists. split; [reflexivity|]. split; [split|].
  - apply length_insert.
  - intros k w Hw.
    destruct (Z.eqb_spec (Z.of_nat k) i) as [E|E].
    + assert (k = Z.to_nat i) by lia. subst k.
      rewrite Hold in Hw. injection Hw as <-.
      rewrite list_lookup_insert_eq by lia.
      rewrite blit_op_u8 by (eapply Hb; exact Hold). reflexivity.
    + rewrite list_lookup_insert_ne by lia.
      rewrite blit_op_unit by (eapply Hb; exact Hw). exact Hw.
  - intros k w Hw.
    destruct (decide (k = Z.to_nat i)) as [->|Hne].
    + rewrite list_lookup_insert_eq in Hw by lia.
      injection Hw as <-. apply u8_range.
    + rewrite list_lookup_insert_ne in Hw by congruence.
      eapply Hb; exact Hw.
Qed.

Lemma bitmap_cols_acts n x bitmap w color yOffset a bRow iCol :
  bRow <= HEIGHT / 8 - 1 ->
  acts color (bitmap_cols n x bitmap w color yOffset a bRow iCol).
Proof.
  change (HEIGHT / 8 - 1) with 7. intros Hb. revert iCol.
  induction n as [|n IH]; intros iCol; cbn [bitmap_cols].
  - apply acts_skip.
  - rewrite Z.gtb_ltb. unfold WIDTH.
    destruct (Z.ltb_spec (128 - 1) (iCol + x)) as [H1|H1]; [apply acts_skip|].
    apply acts_seq; [|apply IH].
    rewrite Z.geb_leb.
    destruct (Z.leb_spec 0 (iCol + x)) as [H0|H0]; [|apply acts_skip].
    apply acts_seq.
    + rewrite Z.geb_leb.
      destruct (Z.leb_spec 0 bRow); [|apply acts_skip].
      apply acts_blit. rewrite buf_size_eq. lia.
    + change (HEIGHT / 8 - 1) with 7. rewrite Z.gtb_ltb.
      destruct (truthy yOffset); cbn [andb]; [|apply acts_skip].
      destruct (Z.ltb_spec bRow 7); cbn [andb]; [|apply acts_skip].
      destruct (Z.ltb_spec (-2) bRow); [|apply acts_skip].
      apply acts_blit. rewrite buf_size_eq. lia.
Qed.

Lemma bitmap_rows_acts n x bitmap w color yOffset sRow a :
  acts color (bitmap_rows n x bitmap w color yOffset sRow a).
Proof.
  revert a. induction n as [|n IH]; intros a; cbn [bitmap_rows].
  - apply acts_skip.
  - cbv zeta. rewrite Z.gtb_ltb.
    destruct (Z.ltb_spec (HEIGHT / 8 - 1) (sRow + a)); [apply acts_skip|].
    apply acts_seq; [|apply IH].
    destruct (sRow + a >? -2); [|apply acts_skip].
    apply bitmap_cols_acts. assumption.
Qed.

Lemma drawBitmap_acts x y bitmap w h color :
  acts color (drawBitmap x y bitmap w h color).
Proof.
  rewrite drawBitmap_unfold.
  destruct (offscreen x y w h); [apply acts_skip|apply bitmap_rows_acts].
Qed.

Lemma blit_op_twice color v m :
  0 <= v < 256 ->
  blit_op color (blit_op color v m) m =
  if (color =? WHITE) || (color =? BLACK) then blit_op color v m else v.
Proof.
  intros Hv. unfold blit_op.
  destruct (color =? WHITE); cbn [orb].
  - rewrite <- Z.lor_assoc, Z.lor_diag. reflexivity.
  - destruct (color =? BLACK).
    + rewrite <- Z.land_assoc, Z.land_diag. reflexivity.
    + rewrite Z.lxor_assoc, Z.lxor_nilpotent. apply Z.lxor_0_r.
Qed.

(** X18. on a buffer of bytes of the screen's size [drawBitmap] returns for
    every position, size, bitmap and write mode (it never leaves
    [sBuffer]); drawn a second time, a [WHITE] or [BLACK] bitmap changes
    nothing more, and a bitmap in the inverting mode gives the first
    buffer back. *)
Theorem drawBitmap_twice x y bitmap w h color (b : Buf) :
  Z.of_nat (length b) = buf_size -> bytes b ->
  exists b1,
    drawBitmap x y bitmap w h color b = Ok b1 /\
    Z.of_nat (length b1) = buf_size /\ bytes b1 /\
    drawBitmap x y bitmap w h color b1 =
    Ok (if (color =? WHITE) || (color =? BLACK) then b1 else b).
Proof.
  intros Hlen Hb.
  destruct (drawBitmap_acts x y bitmap w h color) as (C & HC & H).
  destruct (H b Hlen Hb) as (b1 & E1 & [L1 O1] & Hb1).
  assert (Hlen1 : Z.of_nat (length b1) = buf_size) by (rewrite L1; exact Hlen).
  destruct (H b1 Hlen1 Hb1) as (b2 & E2 & [L2 O2] & Hb2).
  exists b1. split; [exact E1|]. split; [exact Hlen1|]. split; [exact Hb1|].
  rewrite E2. f_equal. apply list_eq. intros k.
  destruct (b !! k) as [v|] eqn:Ev.
  - rewrite (O2 k _ (O1 k v Ev)).
    rewrite blit_op_twice by (eapply Hb; exact Ev).
    destruct ((color =? WHITE) || (color =? BLACK)).
    + symmetry. apply O1, Ev.
    + symmetry. exact Ev.
  - assert (Hk : (length b <= k)%nat) by (apply lookup_ge_None; exact Ev).
    rewrite (proj2 (lookup_ge_None b2 k)) by lia.
    destruct ((color =? WHITE) || (color =? BLACK)).
    + symmetry. apply lookup_ge_None. lia.
    + symmetry. exact Ev.
Qed.

(** *** [drawLine] *)

(** X9. [drawLine] does not depend on the order of its two end points (for
    coordinates whose differences fit an [int]). *)
Theorem drawLine_symmetric fuel x0 y0 x1 y1 color :
  -16384 <= x0 < 16384 -> -16384 <= y0 < 16384 ->
  -16384 <= x1 < 16384 -> -16384 <= y1 < 16384 ->
  drawLine fuel x0 y0 x1 y1 color = drawLine fuel x1 y1 x0 y0 color.
Proof.
  intros Hx0 Hy0 Hx1 Hy1. unfold drawLine, abs_int, swap.
  rewrite (i16_small (y1 - y0)), (i16_small (x1 - x0)),
    (i16_small (y0 - y1)), (i16_small (x0 - x1)) by lia.
  rewrite (i16_small (Z.abs (y1 - y0))), (i16_small (Z.abs (x1 - x0))),
    (i16_small (Z.abs (y0 - y1))), (i16_small (Z.abs (x0 - x1))) by lia.
  replace (Z.abs (y0 - y1)) with (Z.abs (y1 - y0)) by lia.
  replace (Z.abs (x0 - x1)) with (Z.abs (x1 - x0)) by lia.
  rewrite !Z.gtb_ltb.
  destruct (Z.ltb_spec (Z.abs (x1 - x0)) (Z.abs (y1 - y0))) as [Hs|Hs];
    cbn [fst snd].
  - rewrite !Z.gtb_ltb.
    destruct (Z.ltb_spec y1 y0), (Z.ltb_spec y0 y1); cbn [fst snd];
      try reflexivity; lia.
  - rewrite !Z.gtb_ltb.
    destruct (Z.ltb_spec x1 x0), (Z.ltb_spec x0 x1); cbn [fst snd];
      try reflexivity; try lia.
    assert (x0 = x1) by lia. assert (y0 = y1) by lia. subst. reflexivity.
Qed.

(** The loop of [drawLine] when [dy] is 0: one pixel for each value of
    the running coordinate. *)
Lemma line_loop_flat (steep : bool) x1 dx ystep color y0 err n :
  forall fuel x0,
    Z.of_nat n = x1 - x0 + 1 -> (n <= fuel)%nat ->
    x1 < 32767 -> -32768 <= x0 ->
    0 <= err <= 32767 ->
    (forall k, x0 <= k <= x1 ->
       drawable (if steep then y0 else k) (if steep then k else y0)) ->
    renders (line_loop fuel steep x1 dx 0 ystep color x0 y0 err)
            (lay (fun k => if steep then dot y0 k (truthy color)
                           else dot k y0 (truthy color)) x0 n).
Proof.
  induction n as [|n IH]; intros fuel x0 Hn Hfuel Hx1 Hx0 Herr Hd.
  - assert (Hgt : (x0 <=? x1) = false) by (apply Z.leb_gt; lia).
    destruct fuel; cbn [line_loop]; rewrite Hgt; apply renders_skip.
  - destruct fuel as [|fuel]; [lia|].
    cbn [line_loop].
    replace (x0 <=? x1) with true by (symmetry; apply Z.leb_le; lia).
    rewrite Z.sub_0_r, (i16_small err) by lia.
    replace (err <? 0) with false by (symmetry; apply Z.ltb_ge; lia).
    rewrite (i16_small (x0 + 1)) by lia.
    apply (renders_seq _ _
             (if steep then dot y0 x0 (truthy color)
              else dot x0 y0 (truthy color))
             (lay (fun k => if steep then dot y0 k (truthy color)
                            else dot k y0 (truthy color)) (x0 + 1) n)).
    + specialize (Hd x0 ltac:(lia)).
      destruct steep; apply renders_drawPixel; exact Hd.
    + apply IH; try lia. intros k Hk. apply Hd. lia.
Qed.

(** X10. a line between two points of one row sets the pixels of that row
    between the two, both included, that are on the screen, and no other
    pixel, given fuel for its length. *)
Theorem drawLine_horizontal fuel x0 x1 y color :
  -16384 <= x0 < 16384 -> -16384 <= x1 < 16384 ->
  (Z.to_nat (Z.abs (x1 - x0)) < fuel)%nat ->
  PIXEL_SAFE_MODE = true \/
    (0 <= Z.min x0 x1 /\ Z.max x0 x1 < WIDTH /\ 0 <= y < HEIGHT) ->
  renders (drawLine fuel x0 y x1 y color)
          (paint (fun px py => (py =? y) && (Z.min x0 x1 <=? px) &&
                               (px <=? Z.max x0 x1))
             (truthy color)).
Proof.
  intros Hx0 Hx1 Hfuel Hok. unfold drawLine, abs_int, swap.
  rewrite Z.sub_diag. rewrite (i16_small 0) by lia.
  rewrite (i16_small (x1 - x0)) by lia.
  change (Z.abs 0) with 0. rewrite (i16_small 0) by lia.
  rewrite (i16_small (Z.abs (x1 - x0))) by lia.
  replace (0 >? Z.abs (x1 - x0)) with false
    by (symmetry; rewrite Z.gtb_ltb; apply Z.ltb_ge; lia).
  cbv iota beta. rewrite Z.gtb_ltb.
  set (xa := Z.min x0 x1). set (xb := Z.max x0 x1).
  assert (E : (let '(xs, ys) :=
                 if x1 <? x0 then ((x1, x0), (y, y)) else ((x0, x1), (y, y)) in
               (xs, ys)) = ((xa, xb), (y, y))).
  { unfold xa, xb. destruct (Z.ltb_spec x1 x0); repeat f_equal; lia. }
  cbn [fst snd].
  destruct (if x1 <? x0 then ((x1, x0), (y, y)) else ((x0, x1), (y, y)))
    as [[xa' xb'] [ya yb]].
  injection E as -> -> -> ->.
  rewrite Z.sub_diag. change (Z.abs 0) with 0. rewrite !(i16_small 0) by lia.
  assert (Hd : 0 <= xb - xa < 32768) by (unfold xa, xb; lia).
  rewrite (i16_small (xb - xa)) by lia.
  assert (Hq : 0 <= Z.quot (xb - xa) 2 <= 32767).
  { rewrite Z.quot_div_nonneg by lia.
    split; [apply Z.div_pos; lia|].
    apply Z.le_trans with (xb - xa); [|lia].
    apply Z.div_le_upper_bound; lia. }
  rewrite (i16_small (Z.quot (xb - xa) 2)) by lia.
  eapply renders_ext.
  2: { apply (line_loop_flat false xb (xb - xa) _ color y _
                (Z.to_nat (xb - xa + 1)) fuel xa);
         try (unfold xa, xb in *; lia).
       intros k Hk. destruct Hok as [Hs|(H0 & H1 & H2)];
         [left; exact Hs|right].
       unfold on_screen. fold xa in H0. fold xb in H1. lia. }
  intros px py Hon. cbv beta.
  rewrite (lay_one _ xa _ px py px
             (if py =? y then Some (truthy color) else None)).
  - unfold paint. rewrite Z2Nat.id by lia.
    assert (E : (xa <=? px) && (px <? xa + (xb - xa + 1))
                = (xa <=? px) && (px <=? xb)) by bool_arith.
    rewrite E. destruct (py =? y); cbn [andb];
      destruct ((xa <=? px) && (px <=? xb)); reflexivity.
  - intros j _. unfold dot. rewrite (Z.eqb_sym px j).
    destruct (j =? px); cbn [andb]; reflexivity.
Qed.

(** X11. a line between two points of one column sets the pixels of that
    column between the two, both included, that are on the screen, and
    no other pixel, given fuel for its length. *)
Theorem drawLine_vertical fuel x y0 y1 color :
  -16384 <= x < 16384 ->
  -16384 <= y0 < 16384 -> -16384 <= y1 < 16384 ->
  (Z.to_nat (Z.abs (y1 - y0)) < fuel)%nat ->
  PIXEL_SAFE_MODE = true \/
    (0 <= x < WIDTH /\ 0 <= Z.min y0 y1 /\ Z.max y0 y1 < HEIGHT) ->
  renders (drawLine fuel x y0 x y1 color)
          (paint (fun px py => (px =? x) && (Z.min y0 y1 <=? py) &&
                               (py <=? Z.max y0 y1))
             (truthy color)).
Proof.
  intros Hx Hy0 Hy1 Hfuel Hok. unfold drawLine, abs_int, swap.
  rewrite Z.sub_diag. rewrite (i16_small 0) by lia.
  rewrite (i16_small (y1 - y0)) by lia.
  change (Z.abs 0) with 0. rewrite (i16_small 0) by lia.
  rewrite (i16_small (Z.abs (y1 - y0))) by lia.
  rewrite Z.gtb_ltb.
  set (ya := Z.min y0 y1). set (yb := Z.max y0 y1).
  assert (Hd : 0 <= yb - ya < 32768) by (unfold ya, yb; lia).
  assert (Hq : 0 <= Z.quot (yb - ya) 2 <= 32767).
  { rewrite Z.quot_div_nonneg by lia.
    split; [apply Z.div_pos; lia|].
    apply Z.le_trans with (yb - ya); [|lia].
    apply Z.div_le_upper_bound; lia. }
  assert (Hclosed : forall px py,
            lay (fun k => dot x k (truthy color)) ya
              (Z.to_nat (yb - ya + 1)) px py =
            paint (fun px py => (px =? x) && (ya <=? py) && (py <=? yb))
              (truthy color) px py).
  { intros px py.
    rewrite (lay_one _ ya _ px py py
               (if px =? x then Some (truthy color) else None)).
    - unfold paint. rewrite Z2Nat.id by lia.
      assert (E : (ya <=? py) && (py <? ya + (yb - ya + 1))
                  = (ya <=? py) && (py <=? yb)) by bool_arith.
      rewrite E. destruct (px =? x); cbn [andb];
        destruct ((ya <=? py) && (py <=? yb)); reflexivity.
    - intros j _. unfold dot. rewrite (Z.eqb_sym py j).
      destruct (j =? py); [rewrite andb_true_r|rewrite andb_false_r];
        reflexivity. }
  assert (Hdraw : forall k, ya <= k <= yb -> drawable x k).
  { intros k Hk. destruct Hok as [Hs|(H0 & H1 & H2)];
      [left; exact Hs|right].
    unfold on_screen. fold ya in H1. fold yb in H2. lia. }
  apply (renders_ext _ _ _ (fun px py _ => Hclosed px py)).
  destruct (Z.ltb_spec 0 (Z.abs (y1 - y0))) as [Hs|Hs]; cbn [fst snd].
  - (* steep: the loop runs over y *)
    rewrite Z.gtb_ltb.
    assert (E : (if y1 <? y0 then ((y1, y0), (x, x)) else ((y0, y1), (x, x)))
                = ((ya, yb), (x, x))).
    { unfold ya, yb. destruct (Z.ltb_spec y1 y0); repeat f_equal; lia. }
    rewrite E. clear E.
    rewrite Z.sub_diag. change (Z.abs 0) with 0. rewrite !(i16_small 0) by lia.
    rewrite (i16_small (yb - ya)) by lia.
    rewrite (i16_small (Z.quot (yb - ya) 2)) by lia.
    apply (line_loop_flat true yb (yb - ya) _ color x _
             (Z.to_nat (yb - ya + 1)) fuel ya);
      try (unfold ya, yb in *; lia).
    exact Hdraw.
  - (* the two points are one *)
    assert (y1 = y0) by lia. subst y1.
    rewrite Z.gtb_ltb, Z.ltb_irrefl.
    rewrite !Z.sub_diag. change (Z.abs 0) with 0.
    rewrite !(i16_small 0) by lia.
    change (Z.quot 0 2) with 0. rewrite (i16_small 0) by lia.
    assert (Ea : ya = y0) by (unfold ya; lia).
    assert (Eb : yb = y0) by (unfold yb; lia).
    apply (renders_ext _ (lay (fun k => dot k y0 (truthy color)) x 1)).
    + intros px py _. change (Z.to_nat (0 + 1)) with 1%nat.
      cbn [lay]. rewrite Ea. unfold dot. reflexivity.
    + apply (line_loop_flat false x 0 _ color y0 0 1 fuel x); try lia.
      intros k Hk. assert (k = x) by lia. subst k.
      apply Hdraw. lia.
Qed.

(** *** [drawCircle] *)

Lemma sets_skip v Hi : sets skip v (fun _ _ => false) Hi.
Proof.
  exists (fun _ _ => false). split; [|split].
  - apply renders_skip.
  - intros px py H. exact H.
  - intros px py H. discriminate H.
Qed.

Lemma sets_seq c1 c2 v Lo1 Lo2 Hi :
  sets c1 v Lo1 Hi -> sets c2 v Lo2 Hi ->
  sets (c1 >> c2) v (fun px py => Lo1 px py || Lo2 px py) Hi.
Proof.
  intros (P1 & R1 & L1 & U1) (P2 & R2 & L2 & U2).
  exists (fun px py => P1 px py || P2 px py). split; [|split].
  - apply (renders_ext _ (over (paint P1 v) (paint P2 v))).
    + intros px py _. apply over_paint.
    + apply renders_seq; assumption.
  - intros px py H. apply orb_true_iff in H. apply orb_true_iff.
    destruct H as [H|H]; [left; apply L1|right; apply L2]; exact H.
  - intros px py H. apply orb_true_iff in H.
    destruct H as [H|H]; [apply U1|apply U2]; exact H.
Qed.

Lemma sets_weaken c v Lo Lo' Hi :
  (forall px py, Lo' px py = true -> Lo px py = true) ->
  sets c v Lo Hi -> sets c v Lo' Hi.
Proof.
  intros HL (P & R & L & U). exists P. split; [exact R|]. split; [|exact U].
  intros px py H. apply L, HL, H.
Qed.

Lemma sets_drawPixel x y color (Hi : Z -> Z -> Prop) :
  drawable x y -> Hi x y ->
  sets (drawPixel x y color) (truthy color)
       (fun px py => (px =? x) && (py =? y)) Hi.
Proof.
  intros Hd HB. exists (fun px py => (px =? x) && (py =? y)).
  split; [|split].
  - apply (renders_drawPixel x y color Hd).
  - intros px py H. exact H.
  - intros px py H. apply andb_true_iff in H. destruct H as [H1 H2].
    apply Z.eqb_eq in H1. apply Z.eqb_eq in H2. subst. exact HB.
Qed.

Lemma circle_loop_sets fuel x0 y0 r color f ddF_x ddF_y x y :
  0 <= r <= 255 ->
  -32768 <= x0 - r -> x0 + r <= 32767 ->
  -32768 <= y0 - r -> y0 + r <= 32767 ->
  (forall px py, in_square x0 y0 r px py -> drawable px py) ->
  0 <= x -> y <= r -> y - x <= Z.of_nat fuel ->
  sets (circle_loop fuel x0 y0 color f ddF_x ddF_y x y) (truthy color)
       (fun _ _ => false) (in_square x0 y0 r).
Proof.
  intros Hr Hx0a Hx0b Hy0a Hy0b Hdraw.
  revert f ddF_x ddF_y x y.
  induction fuel as [|fuel IH]; intros f ddF_x ddF_y x y Hx Hy Hfuel.
  - cbn [circle_loop].
    replace (x <? y) with false by (symmetry; apply Z.ltb_ge; lia).
    apply sets_skip.
  - cbn [circle_loop].
    destruct (Z.ltb_spec x y) as [Hlt|Hge]; [|apply sets_skip].
    set (y' := if f >=? 0 then y - 1 else y).
    assert (Hy' : x <= y' <= y /\ y - 1 <= y')
      by (unfold y'; destruct (f >=? 0); lia).
    assert (E : (if f >=? 0
                 then (i16 (y - 1), i16 (ddF_y + 2),
                       i16 (f + i16 (ddF_y + 2)))
                 else (y, ddF_y, f)) =
                (y', if f >=? 0 then i16 (ddF_y + 2) else ddF_y,
                 if f >=? 0 then i16 (f + i16 (ddF_y + 2)) else f)).
    { unfold y'. destruct (f >=? 0); [|reflexivity].
      rewrite (i16_small (y - 1)) by lia. reflexivity. }
    rewrite E. clear E. cbv beta iota zeta.
    rewrite (i16_small (x + 1)) by lia.
    rewrite !(i16_small (x0 + _)), !(i16_small (x0 - _)),
      !(i16_small (y0 + _)), !(i16_small (y0 - _)) by lia.
    assert (Hsq : forall a b, Z.abs a <= r -> Z.abs b <= r ->
              sets (drawPixel (x0 + a) (y0 + b) color) (truthy color)
                   (fun px py => (px =? x0 + a) && (py =? y0 + b))
                   (in_square x0 y0 r)).
    { intros a b Ha Hb. apply sets_drawPixel.
      - apply Hdraw. unfold in_square. lia.
      - unfold in_square. lia. }
    apply (sets_weaken _ _
             (fun px py =>
                ((px =? x0 + (x + 1)) && (py =? y0 + y')) ||
                (((px =? x0 + - (x + 1)) && (py =? y0 + y')) ||
                 (((px =? x0 + (x + 1)) && (py =? y0 + - y')) ||
                  (((px =? x0 + - (x + 1)) && (py =? y0 + - y')) ||
                   (((px =? x0 + y') && (py =? y0 + (x + 1))) ||
                    (((px =? x0 + - y') && (py =? y0 + (x + 1))) ||
                     (((px =? x0 + y') && (py =? y0 + - (x + 1))) ||
                      (((px =? x0 + - y') && (py =? y0 + - (x + 1))) ||
                       false))))))))).
    { intros px py H. discriminate H. }
    replace (x0 - (x + 1)) with (x0 + - (x + 1)) by lia.
    replace (x0 - y') with (x0 + - y') by lia.
    replace (y0 - (x + 1)) with (y0 + - (x + 1)) by lia.
    replace (y0 - y') with (y0 + - y') by lia.
    repeat (apply sets_seq; [apply Hsq; lia|]).
    apply IH; lia.
Qed.

(** X14. [drawCircle] ends, sets the four points at distance [r] from the
    centre along the axes, sets pixels only within the square of side
    [2 r + 1] around the centre, all to one colour, and leaves every
    other pixel of the screen as it was; it needs the bounds test of
    [drawPixel] or the square on the screen. *)
Theorem drawCircle_sets x0 y0 r color :
  0 <= r <= 255 ->
  -32768 <= x0 - r -> x0 + r <= 32767 ->
  -32768 <= y0 - r -> y0 + r <= 32767 ->
  PIXEL_SAFE_MODE = true \/
    (0 <= x0 - r /\ x0 + r < WIDTH /\ 0 <= y0 - r /\ y0 + r < HEIGHT) ->
  sets (drawCircle x0 y0 r color) (truthy color)
       (fun px py => ((px =? x0) && ((py =? y0 + r) || (py =? y0 - r))) ||
                     ((py =? y0) && ((px =? x0 + r) || (px =? x0 - r))))
       (in_square x0 y0 r).
Proof.
  intros Hr Hx0a Hx0b Hy0a Hy0b Hok.
  assert (Hdraw : forall px py, in_square x0 y0 r px py -> drawable px py).
  { intros px py [Hpx Hpy]. destruct Hok as [Hs|Hs]; [left; exact Hs|right].
    unfold on_screen. lia. }
  unfold drawCircle.
  rewrite (i16_small (y0 + r)), (i16_small (y0 - r)),
    (i16_small (x0 + r)), (i16_small (x0 - r)) by lia.
  apply (sets_weaken _ _
           (fun px py =>
              ((px =? x0) && (py =? y0 + r)) ||
              (((px =? x0) && (py =? y0 - r)) ||
               (((px =? x0 + r) && (py =? y0)) ||
                (((px =? x0 - r) && (py =? y0)) || false))))).
  { intros px py H.
    destruct (px =? x0), (py =? y0), (py =? y0 + r), (py =? y0 - r),
      (px =? x0 + r), (px =? x0 - r); cbn in *; congruence. }
  repeat (apply sets_seq;
          [apply sets_drawPixel;
           [apply Hdraw; unfold in_square; lia|unfold in_square; lia]|]).
  apply circle_loop_sets; try assumption; try lia.
Qed.

(** *** [drawSlowXYBitmap] *)

(** The mask [128 >> k] picks bit [7 - k]: the leftmost pixel of a byte
    is its most significant bit. *)
Lemma truthy_mask v k :
  0 <= k < 8 -> truthy (Z.land v (Z.shiftr 128 k)) = Z.testbit v (7 - k).
Proof.
  intros Hk.
  assert (E : Z.shiftr 128 k = 2 ^ (7 - k)).
  { rewrite Z.shiftr_div_pow2 by lia. change 128 with (2 ^ 7).
    replace 7 with ((7 - k) + k) at 1 by lia.
    rewrite Z.pow_add_r by lia. apply Z.div_mul.
    apply Z.pow_nonzero; lia. }
  rewrite E, land_pow2 by lia. unfold truthy.
  destruct (Z.testbit v (7 - k)).
  - assert (0 < 2 ^ (7 - k)) by (apply Z.pow_pos_nonneg; lia).
    destruct (Z.eqb_spec (2 ^ (7 - k)) 0); [lia|reflexivity].
  - reflexivity.
Qed.

Lemma lay_none F i n px py :
  (forall j, i <= j < i + Z.of_nat n -> F j px py = None) ->
  lay F i n px py = None.
Proof.
  intros H. rewrite (lay_one F i n px py i None).
  - destruct ((i <=? i) && (i <? i + Z.of_nat n)); reflexivity.
  - intros j Hj. rewrite (H j Hj). destruct (j =? i); reflexivity.
Qed.

Lemma slow_cols_renders n x y bitmap color byteWidth yi xi :
  (forall k, xi <= k < xi + Z.of_nat n -> drawable (x + k) (y + yi)) ->
  renders (slow_cols n x y bitmap color byteWidth yi xi)
    (lay (fun k px py =>
            if truthy (Z.land (pgm_read_byte bitmap
                                 (yi * byteWidth + Z.quot k 8))
                         (Z.shiftr 128 (Z.land k 7)))
            then dot (x + k) (y + yi) (truthy color) px py
            else None) xi n).
Proof.
  revert xi. induction n as [|n IH]; intros xi H; cbn [slow_cols].
  - apply renders_skip.
  - apply (renders_seq _ _
             (fun px py =>
                if truthy (Z.land (pgm_read_byte bitmap
                                     (yi * byteWidth + Z.quot xi 8))
                             (Z.shiftr 128 (Z.land xi 7)))
                then dot (x + xi) (y + yi) (truthy color) px py
                else None)).
    + destruct (truthy (Z.land _ _)).
      * apply (renders_drawPixel (x + xi) (y + yi) color), H. lia.
      * apply renders_skip.
    + apply IH. intros k Hk. apply H. lia.
Qed.

Lemma slow_rows_renders n x y bitmap w color byteWidth yi :
  0 <= w ->
  (forall r k, yi <= r < yi + Z.of_nat n -> 0 <= k < w ->
     drawable (x + k) (y + r)) ->
  renders (slow_rows n x y bitmap w color byteWidth yi)
    (lay (fun r =>
            lay (fun k px py =>
                   if truthy (Z.land (pgm_read_byte bitmap
                                        (r * byteWidth + Z.quot k 8))
                                (Z.shiftr 128 (Z.land k 7)))
                   then dot (x + k) (y + r) (truthy color) px py
                   else None) 0 (Z.to_nat w)) yi n).
Proof.
  intros Hw. revert yi. induction n as [|n IH]; intros yi H;
    cbn [slow_rows].
  - apply renders_skip.
  - apply (renders_seq _ _
             (lay (fun k px py =>
                     if truthy (Z.land (pgm_read_byte bitmap
                                          (yi * byteWidth + Z.quot k 8))
                                  (Z.shiftr 128 (Z.land k 7)))
                     then dot (x + k) (y + yi) (truthy color) px py
                     else None) 0 (Z.to_nat w))).
    + apply slow_cols_renders. intros k Hk. apply H; lia.
    + apply IH. intros r k Hr Hk. apply H; lia.
Qed.

(** X19. [drawSlowXYBitmap] reads the image row by row, [(w + 7) / 8] bytes
    to a row, the leftmost pixel of a byte in its most significant bit;
    it sets the pixel of the screen under every 1 bit of the image and
    leaves all others, those under a 0 bit too, as they were. *)
Theorem drawSlowXYBitmap_renders x y bitmap w h color :
  -32768 <= x -> x + w <= 32767 -> -32768 <= y -> y + h <= 32767 ->
  0 <= w <= 255 -> 0 <= h <= 255 ->
  PIXEL_SAFE_MODE = true \/
    (0 <= x /\ x + w <= WIDTH /\ 0 <= y /\ y + h <= HEIGHT) ->
  renders (drawSlowXYBitmap x y bitmap w h color)
    (paint (fun px py =>
              (x <=? px) && (px <? x + w) && (y <=? py) && (py <? y + h) &&
              Z.testbit (pgm_read_byte bitmap
                           ((py - y) * ((w + 7) / 8) + (px - x) / 8))
                (7 - (px - x) mod 8))
       (truthy color)).
Proof.
  intros Hx0 Hx1 Hy0 Hy1 Hw Hh Hok. unfold drawSlowXYBitmap.
  destruct (offscreen x y w h) eqn:Eoff.
  - apply (renders_ext _ (fun _ _ => None)); [|apply renders_skip].
    intros px py Hon. unfold paint.
    replace ((x <=? px) && (px <? x + w) && (y <=? py) && (py <? y + h))
      with false; [reflexivity|].
    unfold offscreen in Eoff. rewrite !(i16_small (_ + _)) in Eoff by lia.
    symmetry. apply not_true_iff_false. intros Hin.
    rewrite !andb_true_iff, !Z.leb_le, !Z.ltb_lt in Hin.
    rewrite !orb_true_iff, !Z.ltb_lt, !Z.gtb_lt in Eoff.
    unfold on_screen, WIDTH, HEIGHT in *. lia.
  - cbv zeta.
    apply (renders_ext _
             (lay (fun r =>
                     lay (fun k px py =>
                            if truthy (Z.land
                                         (pgm_read_byte bitmap
                                            (r * Z.quot (w + 7) 8 +
                                             Z.quot k 8))
                                         (Z.shiftr 128 (Z.land k 7)))
                            then dot (x + k) (y + r) (truthy color) px py
                            else None) 0 (Z.to_nat w)) 0 (Z.to_nat h))).
    2: { apply slow_rows_renders; [lia|].
         intros r k Hr Hk.
         destruct Hok as [Hs|Hs]; [left; exact Hs|right].
         unfold on_screen. lia. }
    intros px py Hon.
    unfold paint.
    remember (Z.testbit (pgm_read_byte bitmap
                           ((py - y) * ((w + 7) / 8) + (px - x) / 8))
                (7 - (px - x) mod 8)) as bit eqn:Ebit.
    set (V := if (x <=? px) && (px <? x + w) && bit
              then Some (truthy color) else None).
    rewrite (lay_one _ 0 _ px py (py - y) V).
    + unfold V. rewrite Z2Nat.id by lia.
      assert (E : (0 <=? py - y) && (py - y <? 0 + h)
                  = (y <=? py) && (py <? y + h)) by bool_arith.
      rewrite E.
      destruct (x <=? px), (px <? x + w), (y <=? py), (py <? y + h), bit;
        reflexivity.
    + intros r Hr. destruct (Z.eqb_spec r (py - y)) as [->|Hne].
      * rewrite (lay_one _ 0 _ px py (px - x)
                   (if bit then Some (truthy color) else None)).
        -- unfold V. rewrite Z2Nat.id by lia.
           assert (E : (0 <=? px - x) && (px - x <? 0 + w)
                       = (x <=? px) && (px <? x + w)) by bool_arith.
           rewrite E.
           destruct ((x <=? px) && (px <? x + w)), bit; reflexivity.
        -- intros k Hk. rewrite Z2Nat.id in Hk by lia.
           destruct (Z.eqb_spec k (px - x)) as [->|Hk'].
           ++ rewrite !Z.quot_div_nonneg by lia.
              replace (Z.land (px - x) 7) with ((px - x) mod 8)
                by (symmetry; apply (Z.land_ones (px - x) 3); lia).
              rewrite truthy_mask by (apply Z.mod_pos_bound; lia).
              rewrite <- Ebit. unfold dot.
              replace (px =? x + (px - x)) with true
                by (symmetry; apply Z.eqb_eq; lia).
              replace (py =? y + (py - y)) with true
                by (symmetry; apply Z.eqb_eq; lia).
              reflexivity.
           ++ unfold dot.
              replace (px =? x + k) with false
                by (symmetry; apply Z.eqb_neq; lia).
              destruct (truthy (Z.land _ _)); reflexivity.
      * apply lay_none. intros k _. unfold dot.
        replace (py =? y + r) with false
          by (symmetry; apply Z.eqb_neq; lia).
        rewrite andb_false_r. destruct (truthy (Z.land _ _)); reflexivity.
Qed.

(** *** [drawChar] *)

Lemma lay_ext F G i n px py :
  (forall j, i <= j < i + Z.of_nat n -> F j px py = G j px py) ->
  lay F i n px py = lay G i n px py.
Proof.
  revert i. induction n as [|n IH]; intros i H; cbn [lay]; [reflexivity|].
  rewrite (IH (i + 1)) by (intros j Hj; apply H; lia).
  rewrite (H i) by lia. reflexivity.
Qed.

Lemma char_b_renders n px y j size draw_color b :
  (forall k, b <= k < b + Z.of_nat n -> drawable px (y + j * size + k)) ->
  renders (char_b n px y j size draw_color b)
          (lay (fun k => dot px (y + j * size + k) (truthy draw_color)) b n).
Proof.
  revert b. induction n as [|n IH]; intros b H; cbn [char_b].
  - apply renders_skip.
  - apply (renders_seq _ _ (dot px (y + j * size + b) (truthy draw_color))
             (lay (fun k => dot px (y + j * size + k) (truthy draw_color))
                (b + 1) n)).
    + apply renders_drawPixel, H. lia.
    + apply IH. intros k Hk. apply H. lia.
Qed.

Lemma char_a_renders n x y i j size draw_color a :
  0 <= size ->
  (forall u k, a <= u < a + Z.of_nat n -> 0 <= k < size ->
     drawable (x + i * size + u) (y + j * size + k)) ->
  renders (char_a n x y i j size draw_color a)
    (lay (fun u =>
            lay (fun k => dot (x + i * size + u) (y + j * size + k)
                            (truthy draw_color)) 0 (Z.to_nat size)) a n).
Proof.
  intros Hs. revert a. induction n as [|n IH]; intros a H; cbn [char_a].
  - apply renders_skip.
  - apply (renders_seq _ _
             (lay (fun k => dot (x + i * size + a) (y + j * size + k)
                              (truthy draw_color)) 0 (Z.to_nat size))).
    + apply char_b_renders. intros k Hk. apply H; lia.
    + apply IH. intros u k Hu Hk. apply H; lia.
Qed.

(** The two inner loops of [drawChar] fill one cell of the glyph. *)
Lemma char_cell_renders x y i j size draw_color :
  0 <= size ->
  (forall u k, 0 <= u < size -> 0 <= k < size ->
     drawable (x + i * size + u) (y + j * size + k)) ->
  renders (char_a (Z.to_nat size) x y i j size draw_color 0)
          (paint (glyph_cell x y size i j) (truthy draw_color)).
Proof.
  intros Hs Hd.
  apply (renders_ext _
           (lay (fun u =>
                   lay (fun k => dot (x + i * size + u) (y + j * size + k)
                                   (truthy draw_color)) 0 (Z.to_nat size))
              0 (Z.to_nat size))).
  2: { apply char_a_renders; [exact Hs|].
       intros u k Hu Hk. apply Hd; lia. }
  intros px py _. unfold paint, glyph_cell.
  remember (truthy draw_color) as v.
  rewrite (lay_one _ 0 _ px py (px - (x + i * size))
             (if (y + j * size <=? py) && (py <? y + j * size + size)
              then Some v else None)).
  - rewrite Z2Nat.id by lia.
    assert (E : (0 <=? px - (x + i * size)) &&
                (px - (x + i * size) <? 0 + size)
                = (x + i * size <=? px) && (px <? x + i * size + size))
      by bool_arith.
    rewrite E.
    destruct ((x + i * size <=? px) && (px <? x + i * size + size)),
      ((y + j * size <=? py) && (py <? y + j * size + size)) eqn:E2;
      cbn [andb]; try reflexivity.
    + rewrite E2. reflexivity.
    + rewrite E2. reflexivity.
  - intros u Hu. destruct (Z.eqb_spec u (px - (x + i * size))) as [->|Hne].
    + rewrite (lay_one _ 0 _ px py (py - (y + j * size)) (Some v)).
      * rewrite Z2Nat.id by lia.
        assert (E : (0 <=? py - (y + j * size)) &&
                    (py - (y + j * size) <? 0 + size)
                    = (y + j * size <=? py) && (py <? y + j * size + size))
          by bool_arith.
        rewrite E. reflexivity.
      * intros k _. unfold dot.
        replace (px =? x + i * size + (px - (x + i * size))) with true
          by (symmetry; apply Z.eqb_eq; lia).
        cbn [andb].
        destruct (Z.eqb_spec k (py - (y + j * size))) as [->|Hk].
        -- replace (py =? y + j * size + (py - (y + j * size))) with true
             by (symmetry; apply Z.eqb_eq; lia).
           reflexivity.
        -- replace (py =? y + j * size + k) with false
             by (symmetry; apply Z.eqb_neq; lia).
           reflexivity.
    + apply lay_none. intros k _. unfold dot.
      replace (px =? x + i * size + u) with false
        by (symmetry; apply Z.eqb_neq; lia).
      reflexivity.
Qed.

Lemma truthy_land_1 v : truthy (Z.land v 1) = Z.testbit v 0.
Proof.
  change 1 with (2 ^ 0). rewrite land_pow2 by lia. unfold truthy.
  destruct (Z.testbit v 0); reflexivity.
Qed.

Lemma char_j_renders n x y i color bg size draw_background line j0 :
  0 <= size -> 0 <= j0 ->
  (forall j u k, j0 <= j < j0 + Z.of_nat n ->
     0 <= u < size -> 0 <= k < size ->
     drawable (x + i * size + u) (y + j * size + k)) ->
  renders (char_j n x y i color bg size draw_background line j0)
    (lay (fun j => cell_picture x y size color bg draw_background
                     (Z.shiftr line (- j0)) i j) j0 n).
Proof.
  intros Hs. revert line j0.
  induction n as [|n IH]; intros line j0 Hj0 Hd; cbn [char_j].
  - apply renders_skip.
  - cbv zeta.
    apply (renders_ext _
             (over (cell_picture x y size color bg draw_background
                      (Z.shiftr line (- j0)) i j0)
                (lay (fun j => cell_picture x y size color bg draw_background
                                 (Z.shiftr (Z.shiftr line 1) (- (j0 + 1))) i j)
                   (j0 + 1) n))).
    + intros px py _. unfold over. cbn [lay].
      rewrite (lay_ext _ (fun j => cell_picture x y size color bg
                                     draw_background
                                     (Z.shiftr line (- j0)) i j)).
      * reflexivity.
      * intros j Hj. unfold cell_picture.
        replace (Z.testbit (Z.shiftr (Z.shiftr line 1) (- (j0 + 1))) j)
          with (Z.testbit (Z.shiftr line (- j0)) j); [reflexivity|].
        rewrite !Z.shiftr_spec by lia. f_equal. lia.
    + apply renders_seq.
      * unfold cell_picture. rewrite Z.shiftr_spec by lia.
        replace (j0 + - j0) with 0 by lia. rewrite truthy_land_1.
        destruct (truthy (if Z.testbit line 0 then color else bg)
                  || draw_background).
        -- apply char_cell_renders; [exact Hs|].
           intros u k Hu Hk. apply Hd; lia.
        -- apply renders_skip.
      * apply IH; [lia|]. intros j u k Hj Hu Hk. apply Hd; lia.
Qed.

Lemma char_i_renders n x y c color bg size draw_background i0 :
  0 <= size ->
  (forall i j u k, i0 <= i < i0 + Z.of_nat n -> 0 <= j < 8 ->
     0 <= u < size -> 0 <= k < size ->
     drawable (x + i * size + u) (y + j * size + k)) ->
  renders (char_i n x y c color bg size draw_background i0)
    (lay (fun i =>
            lay (fun j => cell_picture x y size color bg draw_background
                            (if i =? 5 then 0
                             else pgm_read_byte font (5 * c + i)) i j)
              0 8) i0 n).
Proof.
  intros Hs. revert i0. induction n as [|n IH]; intros i0 Hd;
    cbn [char_i].
  - apply renders_skip.
  - cbv zeta. apply renders_seq.
    + apply (char_j_renders 8 x y i0 color bg size draw_background
               (if i0 =? 5 then 0 else pgm_read_byte font (5 * c + i0)) 0);
        [exact Hs|lia|].
      intros j u k Hj Hu Hk. apply Hd; lia.
    + apply IH. intros i j u k Hi Hj Hu Hk. apply Hd; lia.
Qed.

Lemma div_cell s d i :
  0 < s -> (i * s <= d < i * s + s <-> d / s = i).
Proof.
  intros Hs. pose proof (Z.div_mod d s ltac:(lia)) as D.
  pose proof (Z.mod_pos_bound d s Hs) as M.
  split; [intros H; nia|intros <-; nia].
Qed.

(** [drawChar] draws the picture of the glyph. *)
Lemma drawChar_picture x y c color bg size :
  -32768 <= x -> -32768 <= y -> 1 <= size <= 255 ->
  PIXEL_SAFE_MODE = true \/ cell_on_screen x y size ->
  renders (drawChar x y c color bg size) (glyph_picture x y c color bg size).
Proof.
  intros Hx Hy Hs Hok. unfold drawChar, glyph_picture. cbv zeta.
  destruct ((x >=? WIDTH) || (y >=? HEIGHT) ||
            (i16 (x + 5 * size - 1) <? 0) || (i16 (y + 8 * size - 1) <? 0))
    eqn:Eclip.
  - apply (renders_ext _ (fun _ _ => None)); [|apply renders_skip].
    intros px py Hon.
    destruct (Z.leb_spec (x + 5 * size) 0) as [Hl|Hl]; [reflexivity|].
    replace ((x <=? px) && (px <? x + 6 * size) &&
             (y <=? py) && (py <? y + 8 * size)) with false; [reflexivity|].
    symmetry. apply not_true_iff_false. intros Hin.
    rewrite !andb_true_iff, !Z.leb_le, !Z.ltb_lt in Hin.
    rewrite !orb_true_iff, !Z.geb_le, !Z.ltb_lt in Eclip.
    unfold on_screen, WIDTH, HEIGHT in *.
    destruct Eclip as [[[E|E]|E]|E]; try lia.
    + destruct (Z_lt_ge_dec x 128) as [Hx'|Hx']; [|lia].
      rewrite i16_small in E by lia. lia.
    + destruct (Z_lt_ge_dec y 64) as [Hy'|Hy']; [|lia].
      rewrite i16_small in E by lia. lia.
  - rewrite !orb_false_iff, !Z.geb_leb, !Z.leb_gt, !Z.ltb_ge in Eclip.
    destruct Eclip as [[[Ex Ey] El] Et].
    unfold WIDTH in Ex. unfold HEIGHT in Ey.
    rewrite i16_small in El by lia. rewrite i16_small in Et by lia.
    apply (renders_ext _
             (lay (fun i =>
                     lay (fun j => cell_picture x y size color bg
                                     (negb (bg =? color))
                                     (if i =? 5 then 0
                                      else pgm_read_byte font (5 * c + i))
                                     i j) 0 8) 0 6)).
    2: { apply char_i_renders; [lia|].
         intros i j u k Hi Hj Hu Hk. change (Z.of_nat 6) with 6 in Hi.
         destruct Hok as [Hsafe|(H0 & H1 & H2 & H3)];
           [left; exact Hsafe|right].
         unfold on_screen, WIDTH, HEIGHT in *. nia. }
    intros px py Hon.
    replace (x + 5 * size <=? 0) with false
      by (symmetry; apply Z.leb_gt; lia).
    set (I := (px - x) / size). set (J := (py - y) / size).
    assert (HI : forall i, x + i * size <= px < x + i * size + size
                           <-> I = i).
    { intros i. unfold I. rewrite <- (div_cell size (px - x) i) by lia.
      lia. }
    assert (HJ : forall j, y + j * size <= py < y + j * size + size
                           <-> J = j).
    { intros j. unfold J. rewrite <- (div_cell size (py - y) j) by lia.
      lia. }
    assert (HIr : (0 <=? I) && (I <? 0 + 6)
                  = (x <=? px) && (px <? x + 6 * size)).
    { apply eq_true_iff_eq.
      rewrite !andb_true_iff, !Z.leb_le, !Z.ltb_lt.
      pose proof (proj2 (HI I) eq_refl). nia. }
    assert (HJr : (0 <=? J) && (J <? 0 + 8)
                  = (y <=? py) && (py <? y + 8 * size)).
    { apply eq_true_iff_eq.
      rewrite !andb_true_iff, !Z.leb_le, !Z.ltb_lt.
      pose proof (proj2 (HJ J) eq_refl). nia. }
    set (line := fun i => if i =? 5 then 0
                          else pgm_read_byte font (5 * c + i)).
    set (W := fun i =>
                let draw_color :=
                  if Z.testbit (line i) J then color else bg in
                if truthy draw_color || negb (bg =? color)
                then Some (truthy draw_color) else None).
    rewrite (lay_one _ 0 6 px py I
               (if (0 <=? J) && (J <? 0 + 8) then W I else None)).
    + change (Z.of_nat 6) with 6. rewrite HIr, HJr.
      destruct ((x <=? px) && (px <? x + 6 * size)) eqn:E1; cbn [andb];
        [|reflexivity].
      destruct ((y <=? py) && (py <? y + 8 * size)) eqn:E2; cbn [andb];
        [|reflexivity].
      unfold W, line. cbv zeta.
      rewrite andb_true_iff, Z.leb_le, Z.ltb_lt in HIr.
      destruct (Z.eqb_spec I 5) as [E5|E5].
      * replace (I <? 5) with false by (symmetry; apply Z.ltb_ge; lia).
        rewrite Z.bits_0. reflexivity.
      * replace (I <? 5) with true by (symmetry; apply Z.ltb_lt; lia).
        reflexivity.
    + intros i Hi. destruct (Z.eqb_spec i I) as [->|Hne].
      * rewrite (lay_one _ 0 8 px py J (W I)).
        -- reflexivity.
        -- intros j Hj. unfold cell_picture, W, line, paint, glyph_cell.
           cbv zeta.
           destruct (Z.eqb_spec j J) as [->|Hj'].
           ++ replace ((x + I * size <=? px) && (px <? x + I * size + size))
                with true
                by (symmetry; apply andb_true_iff;
                    rewrite Z.leb_le, Z.ltb_lt; apply HI; reflexivity).
              cbn [andb].
              replace ((y + J * size <=? py) && (py <? y + J * size + size))
                with true
                by (symmetry; apply andb_true_iff;
                    rewrite Z.leb_le, Z.ltb_lt; apply HJ; reflexivity).
              reflexivity.
           ++ rewrite <- andb_assoc.
              replace ((y + j * size <=? py) && (py <? y + j * size + size))
                with false.
              2: { symmetry. apply not_true_iff_false. intros H.
                   rewrite andb_true_iff, Z.leb_le, Z.ltb_lt in H.
                   apply Hj'. symmetry. apply HJ. exact H. }
              rewrite andb_false_r.
              destruct (truthy _ || _); reflexivity.
      * apply lay_none. intros j _.
        unfold cell_picture, paint, glyph_cell. cbv zeta.
        replace ((x + i * size <=? px) && (px <? x + i * size + size))
          with false.
        2: { symmetry. apply not_true_iff_false. intros H.
             rewrite andb_true_iff, Z.leb_le, Z.ltb_lt in H.
             apply Hne. symmetry. apply HI. exact H. }
        cbn [andb]. destruct (truthy _ || _); reflexivity.
Qed.

(** *** [drawLine] at any slope *)

(** The loop of [drawLine], entered at [X] after [s] steps of [y]: the
    error term is [dx / 2 - (X - X0) dy + s dx] and stays below [dx], so
    that [y] makes no more than [dy] steps and has made all of them when
    [X] reaches [X1]. *)
Lemma line_loop_sets (steep : bool) X0 Y0 X1 Y1 color (Hi : Z -> Z -> Prop) :
  -16384 <= X0 -> X0 <= X1 -> X1 < 16384 ->
  -16384 <= Y0 < 16384 -> -16384 <= Y1 < 16384 ->
  Z.abs (Y1 - Y0) <= X1 - X0 ->
  (forall X Y, X0 <= X <= X1 -> Z.min Y0 Y1 <= Y <= Z.max Y0 Y1 ->
     drawable (if steep then Y else X) (if steep then X else Y) /\
     Hi (if steep then Y else X) (if steep then X else Y)) ->
  forall fuel X s e,
    X0 <= X <= X1 + 1 -> 0 <= s ->
    e = (X1 - X0) / 2 - (X - X0) * Z.abs (Y1 - Y0) + s * (X1 - X0) ->
    (0 <= e <= X1 - X0 - 1 \/ (X1 - X0 = 0 /\ e = 0 /\ s = 0)) ->
    X1 - X < Z.of_nat fuel ->
    sets (line_loop fuel steep X1 (X1 - X0) (Z.abs (Y1 - Y0))
            (if Y0 <? Y1 then 1 else -1) color X
            (Y0 + (if Y0 <? Y1 then 1 else -1) * s) e)
         (truthy color)
         (fun px py =>
            (X <=? X1) &&
            (((px =? (if steep
                      then Y0 + (if Y0 <? Y1 then 1 else -1) * s else X)) &&
              (py =? (if steep
                      then X else Y0 + (if Y0 <? Y1 then 1 else -1) * s))) ||
             ((px =? (if steep then Y1 else X1)) &&
              (py =? (if steep then X1 else Y1)))))
         Hi.
Proof.
  intros HX0 HX01 HX1 HY0 HY1 Hslope Hbox.
  set (dx := X1 - X0). set (dy := Z.abs (Y1 - Y0)).
  set (ystep := if Y0 <? Y1 then 1 else -1).
  set (h := dx / 2).
  assert (Hh : 0 <= 2 * h <= dx /\ dx <= 2 * h + 1).
  { unfold h. pose proof (Z.div_mod dx 2 ltac:(lia)).
    pose proof (Z.mod_pos_bound dx 2 ltac:(lia)). lia. }
  assert (Hdy : 0 <= dy <= dx) by (unfold dy, dx; lia).
  assert (Hdx : dx < 32768) by (unfold dx; lia).
  assert (Hend : Y0 + ystep * dy = Y1).
  { unfold ystep, dy. destruct (Z.ltb_spec Y0 Y1); lia. }
  induction fuel as [|fuel IH]; intros X s e HX Hs He Hbound Hfuel.
  - cbn [line_loop].
    replace (X <=? X1) with false by (symmetry; apply Z.leb_gt; lia).
    apply (sets_weaken _ _ (fun _ _ => false)); [|apply sets_skip].
    intros px py H. exact H.
  - cbn [line_loop]. destruct (Z.leb_spec X X1) as [Hle|Hgt].
    2: { apply (sets_weaken _ _ (fun _ _ => false)); [|apply sets_skip].
         intros px py H. exact H. }
    assert (Hk : 0 <= (dx - (X - X0)) * dy)
      by (apply Z.mul_nonneg_nonneg; unfold dx; lia).
    assert (Hsdy : s <= dy).
    { destruct (Z_le_gt_dec s dy) as [Hl|Hg]; [exact Hl|].
      assert (0 <= (s - dy - 1) * dx)
        by (apply Z.mul_nonneg_nonneg; lia).
      lia. }
    assert (HY : Z.min Y0 Y1 <= Y0 + ystep * s <= Z.max Y0 Y1).
    { unfold ystep, dy in *. destruct (Z.ltb_spec Y0 Y1); lia. }
    destruct (Hbox X (Y0 + ystep * s) ltac:(lia) HY) as [Hdraw Hin].
    assert (Hlast : X = X1 -> Y0 + ystep * s = Y1).
    { intros ->. rewrite <- Hend. f_equal. f_equal.
      destruct (Z_le_gt_dec dy s) as [Hl|Hg]; [lia|].
      assert (0 <= (dy - s - 1) * dx)
        by (apply Z.mul_nonneg_nonneg; lia).
      fold dx in He, Hk. lia. }
    rewrite (i16_small (e - dy)) by lia.
    rewrite (i16_small (X + 1)) by lia.
    assert (Hstep : -32768 <= Y0 + ystep * s + ystep <= 32767).
    { unfold ystep in *. destruct (Z.ltb_spec Y0 Y1); lia. }
    rewrite (i16_small (Y0 + ystep * s + ystep)) by exact Hstep.
    set (s' := if e - dy <? 0 then s + 1 else s).
    set (e' := if e - dy <? 0 then e - dy + dx else e - dy).
    assert (E : (if e - dy <? 0
                 then (Y0 + ystep * s + ystep, i16 (e - dy + dx))
                 else (Y0 + ystep * s, e - dy))
                = (Y0 + ystep * s', e')).
    { unfold s', e'. destruct (Z.ltb_spec (e - dy) 0).
      - rewrite i16_small by lia. f_equal. lia.
      - reflexivity. }
    rewrite E. clear E. cbv beta iota.
    apply (sets_weaken _ _
             (fun px py =>
                ((px =? (if steep then Y0 + ystep * s else X)) &&
                 (py =? (if steep then X else Y0 + ystep * s))) ||
                ((X + 1 <=? X1) &&
                 (((px =? (if steep then Y0 + ystep * s' else X + 1)) &&
                   (py =? (if steep then X + 1 else Y0 + ystep * s'))) ||
                  ((px =? (if steep then Y1 else X1)) &&
                   (py =? (if steep then X1 else Y1))))))).
    { intros px py H. apply andb_true_iff in H. destruct H as [_ H].
      apply orb_true_iff in H. apply orb_true_iff.
      destruct H as [H|H]; [left; exact H|].
      destruct (Z.leb_spec (X + 1) X1) as [Hn|Hn].
      - right. cbn [andb]. apply orb_true_iff. right. exact H.
      - left. assert (X = X1) by lia. rewrite (Hlast H0). subst X.
        exact H. }
    apply sets_seq.
    + destruct steep; apply sets_drawPixel; assumption.
    + apply IH; try lia.
      * unfold s'. destruct (e - dy <? 0); lia.
      * unfold e', s'. fold dx dy. destruct (Z.ltb_spec (e - dy) 0); lia.
      * unfold e', s'. fold dx. destruct (Z.ltb_spec (e - dy) 0); lia.
Qed.

(** The loop as [drawLine] enters it. *)
Lemma line_start_sets (steep : bool) X0 Y0 X1 Y1 color fuel
  (Hi : Z -> Z -> Prop) :
  -16384 <= X0 -> X0 <= X1 -> X1 < 16384 ->
  -16384 <= Y0 < 16384 -> -16384 <= Y1 < 16384 ->
  Z.abs (Y1 - Y0) <= X1 - X0 ->
  (forall X Y, X0 <= X <= X1 -> Z.min Y0 Y1 <= Y <= Z.max Y0 Y1 ->
     drawable (if steep then Y else X) (if steep then X else Y) /\
     Hi (if steep then Y else X) (if steep then X else Y)) ->
  X1 - X0 < Z.of_nat fuel ->
  sets (line_loop fuel steep X1 (i16 (X1 - X0))
          (i16 (abs_int (i16 (Y1 - Y0))))
          (if Y0 <? Y1 then 1 else -1) color X0 Y0
          (i16 (Z.quot (i16 (X1 - X0)) 2)))
       (truthy color)
       (fun px py =>
          ((px =? (if steep then Y0 else X0)) &&
           (py =? (if steep then X0 else Y0))) ||
          ((px =? (if steep then Y1 else X1)) &&
           (py =? (if steep then X1 else Y1))))
       Hi.
Proof.
  intros HX0 HX01 HX1 HY0 HY1 Hslope Hbox Hfuel.
  unfold abs_int.
  rewrite (i16_small (X1 - X0)), (i16_small (Y1 - Y0)) by lia.
  rewrite !(i16_small (Z.abs (Y1 - Y0))) by lia.
  rewrite Z.quot_div_nonneg by lia.
  assert (Hh : 0 <= (X1 - X0) / 2 <= X1 - X0).
  { pose proof (Z.div_mod (X1 - X0) 2 ltac:(lia)).
    pose proof (Z.mod_pos_bound (X1 - X0) 2 ltac:(lia)). lia. }
  rewrite (i16_small ((X1 - X0) / 2)) by lia.
  pose proof (line_loop_sets steep X0 Y0 X1 Y1 color Hi HX0 HX01 HX1 HY0
                HY1 Hslope Hbox fuel X0 0 ((X1 - X0) / 2)) as H.
  replace (Y0 + (if Y0 <? Y1 then 1 else -1) * 0) with Y0 in H by lia.
  apply (sets_weaken _ _
           (fun px py =>
              (X0 <=? X1) &&
              (((px =? (if steep then Y0 else X0)) &&
                (py =? (if steep then X0 else Y0))) ||
               ((px =? (if steep then Y1 else X1)) &&
                (py =? (if steep then X1 else Y1)))))).
  { intros px py Hp.
    replace (X0 <=? X1) with true by (symmetry; apply Z.leb_le; lia).
    exact Hp. }
  apply H; try lia.
  pose proof (Z.div_mod (X1 - X0) 2 ltac:(lia)).
  pose proof (Z.mod_pos_bound (X1 - X0) 2 ltac:(lia)). lia.
Qed.

(** [drawLine] between any two points: the end points and the rectangle
    they span. *)
Lemma drawLine_within fuel x0 y0 x1 y1 color :
  -16384 <= x0 < 16384 -> -16384 <= y0 < 16384 ->
  -16384 <= x1 < 16384 -> -16384 <= y1 < 16384 ->
  Z.max (Z.abs (x1 - x0)) (Z.abs (y1 - y0)) < Z.of_nat fuel ->
  PIXEL_SAFE_MODE = true \/ (on_screen x0 y0 /\ on_screen x1 y1) ->
  sets (drawLine fuel x0 y0 x1 y1 color) (truthy color)
       (fun px py => ((px =? x0) && (py =? y0)) || ((px =? x1) && (py =? y1)))
       (fun px py => Z.min x0 x1 <= px <= Z.max x0 x1 /\
                     Z.min y0 y1 <= py <= Z.max y0 y1).
Proof.
  intros Hx0 Hy0 Hx1 Hy1 Hfuel Hok.
  set (Hi := fun px py => Z.min x0 x1 <= px <= Z.max x0 x1 /\
                          Z.min y0 y1 <= py <= Z.max y0 y1).
  assert (Hbox : forall px py, Hi px py -> drawable px py /\ Hi px py).
  { intros px py Hp. split; [|exact Hp].
    destruct Hok as [Hs|[Ha Hb]]; [left; exact Hs|right].
    unfold Hi in Hp. unfold on_screen in *. lia. }
  unfold drawLine.
  destruct (abs_int (i16 (y1 - y0)) >? abs_int (i16 (x1 - x0))) eqn:Esteep;
    unfold abs_int in Esteep;
    rewrite (i16_small (y1 - y0)), (i16_small (x1 - x0)) in Esteep by lia;
    rewrite (i16_small (Z.abs (y1 - y0))), (i16_small (Z.abs (x1 - x0)))
      in Esteep by lia;
    rewrite Z.gtb_ltb in Esteep;
    cbv beta iota zeta delta [swap fst snd].
  - apply Z.ltb_lt in Esteep.
    destruct (y0 >? y1) eqn:Eswap; rewrite Z.gtb_ltb in Eswap;
      cbv beta iota zeta.
    + apply Z.ltb_lt in Eswap.
      apply (sets_weaken _ _
               (fun px py => ((px =? x1) && (py =? y1)) ||
                             ((px =? x0) && (py =? y0)))).
      { intros px py H. rewrite orb_comm. exact H. }
      apply (line_start_sets true y1 x1 y0 x0 color fuel Hi); try lia.
      intros X Y HX HY. apply Hbox. unfold Hi. lia.
    + apply Z.ltb_ge in Eswap.
      apply (line_start_sets true y0 x0 y1 x1 color fuel Hi); try lia.
      intros X Y HX HY. apply Hbox. unfold Hi. lia.
  - apply Z.ltb_ge in Esteep.
    destruct (x0 >? x1) eqn:Eswap; rewrite Z.gtb_ltb in Eswap;
      cbv beta iota zeta.
    + apply Z.ltb_lt in Eswap.
      apply (sets_weaken _ _
               (fun px py => ((px =? x1) && (py =? y1)) ||
                             ((px =? x0) && (py =? y0)))).
      { intros px py H. rewrite orb_comm. exact H. }
      apply (line_start_sets false x1 y1 x0 y0 color fuel Hi); try lia.
      intros X Y HX HY. apply Hbox. unfold Hi. lia.
    + apply Z.ltb_ge in Eswap.
      apply (line_start_sets false x0 y0 x1 y1 color fuel Hi); try lia.
      intros X Y HX HY. apply Hbox. unfold Hi. lia.
Qed.

(** X12. [drawLine] ends, given fuel for the longer of its two extents,
    sets both end points, sets pixels only within the rectangle the end
    points span, all to one colour, and leaves every other pixel of the
    screen as it was; it needs the bounds test of [drawPixel] or both
    end points on the screen. *)
Theorem drawLine_sets fuel x0 y0 x1 y1 color :
  -16384 <= x0 < 16384 -> -16384 <= y0 < 16384 ->
  -16384 <= x1 < 16384 -> -16384 <= y1 < 16384 ->
  Z.max (Z.abs (x1 - x0)) (Z.abs (y1 - y0)) < Z.of_nat fuel ->
  PIXEL_SAFE_MODE = true \/ (on_screen x0 y0 /\ on_screen x1 y1) ->
  exists P : Z -> Z -> bool,
    P x0 y0 = true /\ P x1 y1 = true /\
    (forall px py, P px py = true ->
       Z.min x0 x1 <= px <= Z.max x0 x1 /\
       Z.min y0 y1 <= py <= Z.max y0 y1) /\
    forall b : Buf, Z.of_nat (length b) = buf_size ->
      exists b',
        drawLine fuel x0 y0 x1 y1 color b = Ok b' /\
        Z.of_nat (length b') = buf_size /\
        forall px py, on_screen px py ->
          getPixel px py b' =
          if P px py then Ok (Z.b2z (truthy color)) else getPixel px py b.
Proof.
  intros Hx0 Hy0 Hx1 Hy1 Hfuel Hok.
  destruct (drawLine_within fuel x0 y0 x1 y1 color Hx0 Hy0 Hx1 Hy1 Hfuel Hok)
    as (P & R & L & U).
  exists P. split; [|split; [|split; [exact U|]]].
  - apply L. rewrite !Z.eqb_refl. reflexivity.
  - apply L. rewrite !Z.eqb_refl. apply orb_true_r.
  - intros b Hb. apply renders_paint; assumption.
Qed.

Lemma sets_within c v Lo (Hi Hi' : Z -> Z -> Prop) :
  (forall px py, Hi px py -> Hi' px py) ->
  sets c v Lo Hi -> sets c v Lo Hi'.
Proof.
  intros HH (P & R & L & U). exists P. split; [exact R|].
  split; [exact L|]. intros px py H. apply HH, U, H.
Qed.

(** X13. [drawTriangle] ends, given fuel for the longest extent of a side,
    sets its three vertices, sets pixels only within the rectangle the
    vertices span, and leaves every other pixel of the screen as it
    was. *)
Theorem drawTriangle_sets fuel x0 y0 x1 y1 x2 y2 color :
  -16384 <= x0 < 16384 -> -16384 <= y0 < 16384 ->
  -16384 <= x1 < 16384 -> -16384 <= y1 < 16384 ->
  -16384 <= x2 < 16384 -> -16384 <= y2 < 16384 ->
  Z.max (Z.max x0 x1) x2 - Z.min (Z.min x0 x1) x2 < Z.of_nat fuel ->
  Z.max (Z.max y0 y1) y2 - Z.min (Z.min y0 y1) y2 < Z.of_nat fuel ->
  PIXEL_SAFE_MODE = true \/
    (on_screen x0 y0 /\ on_screen x1 y1 /\ on_screen x2 y2) ->
  sets (drawTriangle fuel x0 y0 x1 y1 x2 y2 color) (truthy color)
       (fun px py => ((px =? x0) && (py =? y0)) ||
                     ((px =? x1) && (py =? y1)) ||
                     ((px =? x2) && (py =? y2)))
       (fun px py =>
          Z.min (Z.min x0 x1) x2 <= px <= Z.max (Z.max x0 x1) x2 /\
          Z.min (Z.min y0 y1) y2 <= py <= Z.max (Z.max y0 y1) y2).
Proof.
  intros Hx0 Hy0 Hx1 Hy1 Hx2 Hy2 Hfx Hfy Hok. unfold drawTriangle.
  apply (sets_weaken _ _
           (fun px py =>
              (((px =? x0) && (py =? y0)) || ((px =? x1) && (py =? y1))) ||
              ((((px =? x1) && (py =? y1)) || ((px =? x2) && (py =? y2))) ||
               (((px =? x2) && (py =? y2)) || ((px =? x0) && (py =? y0)))))).
  { intros px py H.
    destruct ((px =? x0) && (py =? y0)), ((px =? x1) && (py =? y1)),
      ((px =? x2) && (py =? y2)); cbn in *; congruence. }
  apply sets_seq; [|apply sets_seq].
  - apply (sets_within _ _ _
             (fun px py => Z.min x0 x1 <= px <= Z.max x0 x1 /\
                           Z.min y0 y1 <= py <= Z.max y0 y1)).
    + intros px py H. lia.
    + apply drawLine_within; try lia.
      destruct Hok as [Hs|(H0 & H1 & H2)]; [left; exact Hs|right].
      split; assumption.
  - apply (sets_within _ _ _
             (fun px py => Z.min x1 x2 <= px <= Z.max x1 x2 /\
                           Z.min y1 y2 <= py <= Z.max y1 y2)).
    + intros px py H. lia.
    + apply drawLine_within; try lia.
      destruct Hok as [Hs|(H0 & H1 & H2)]; [left; exact Hs|right].
      split; assumption.
  - apply (sets_within _ _ _
             (fun px py => Z.min x2 x0 <= px <= Z.max x2 x0 /\
                           Z.min y2 y0 <= py <= Z.max y2 y0)).
    + intros px py H. lia.
    + apply drawLine_within; try lia.
      destruct Hok as [Hs|(H0 & H1 & H2)]; [left; exact Hs|right].
      split; assumption.
Qed.

(** X20. [drawChar] shows the glyph of [c] as six columns of eight cells,
    each cell a square of [size] by [size] pixels: cell [(i, j)] has
    the colour where bit [j] of byte [5 c + i] of the font is 1 and the
    background colour where it is 0, the sixth column being all
    background; a cell whose colour is [BLACK] is left as it was when
    colour and background are equal; no pixel outside the cells
    changes, and nothing is drawn when the five glyph columns are left
    of the screen. *)
Theorem drawChar_renders x y c color bg size (b : Buf) :
  -32768 <= x -> -32768 <= y -> 1 <= size <= 255 ->
  PIXEL_SAFE_MODE = true \/ cell_on_screen x y size ->
  Z.of_nat (length b) = buf_size ->
  exists b',
    drawChar x y c color bg size b = Ok b' /\
    Z.of_nat (length b') = buf_size /\
    forall px py, on_screen px py ->
      getPixel px py b' =
      if (x + 5 * size <=? 0) then getPixel px py b
      else if (x <=? px) && (px <? x + 6 * size) &&
              (y <=? py) && (py <? y + 8 * size)
      then
        let i := (px - x) / size in
        let j := (py - y) / size in
        let draw_color :=
          if (i <? 5) && Z.testbit (pgm_read_byte font (5 * c + i)) j
          then color else bg in
        if truthy draw_color || negb (bg =? color)
        then Ok (Z.b2z (truthy draw_color)) else getPixel px py b
      else getPixel px py b.
Proof.
  intros Hx Hy Hs Hok Hb.
  destruct (drawChar_picture x y c color bg size Hx Hy Hs Hok b Hb)
    as (b' & E & L & P).
  exists b'. split; [exact E|]. split; [exact L|].
  intros px py Hon. rewrite (P px py Hon). unfold glyph_picture.
  destruct (x + 5 * size <=? 0); [reflexivity|].
  destruct ((x <=? px) && (px <? x + 6 * size) &&
            (y <=? py) && (py <? y + 8 * size)); [|reflexivity].
  cbv zeta.
  destruct (truthy _ || negb (bg =? color)); reflexivity.
Qed.

(** *** Text and the pixels around it *)

(** X21. [write] changes no pixel outside the cell of [6 textSize] by
    [8 textSize] pixels at the cursor, whatever the character, and
    returns a buffer of the screen's size; it needs the bounds test of
    [drawPixel] or the cell on the screen. *)
Theorem write_keeps_other_pixels (c : Z) (s : Arduboy) :
  Z.of_nat (length (sBuffer s)) = buf_size ->
  -32768 <= cursor_x s -> -32768 <= cursor_y s ->
  1 <= textSize s <= 255 ->
  PIXEL_SAFE_MODE = true \/
    cell_on_screen (cursor_x s) (cursor_y s) (textSize s) ->
  exists s',
    write c s = Ok s' /\
    Z.of_nat (length (sBuffer s')) = buf_size /\
    forall px py, on_screen px py ->
      ~ (cursor_x s <= px < cursor_x s + 6 * textSize s /\
         cursor_y s <= py < cursor_y s + 8 * textSize s) ->
      getPixel px py (sBuffer s') = getPixel px py (sBuffer s).
Proof.
  intros Hlen Hx Hy Hs Hok. unfold write. cbn [write_rec].
  destruct (c =? newline_char).
  { eexists. split; [reflexivity|]. split; [exact Hlen|].
    intros px py _ _. reflexivity. }
  destruct (c =? return_char).
  { eexists. split; [reflexivity|]. split; [exact Hlen|].
    intros px py _ _. reflexivity. }
  destruct (drawChar_picture (cursor_x s) (cursor_y s) c (textColor s)
              (textBackground s) (textSize s) Hx Hy Hs Hok (sBuffer s) Hlen)
    as (b' & E & L & P).
  rewrite E. cbn [bind].
  assert (Hout : forall px py, on_screen px py ->
            ~ (cursor_x s <= px < cursor_x s + 6 * textSize s /\
               cursor_y s <= py < cursor_y s + 8 * textSize s) ->
            getPixel px py b' = getPixel px py (sBuffer s)).
  { intros px py Hon Hnot. rewrite (P px py Hon). unfold glyph_picture.
    destruct (cursor_x s + 5 * textSize s <=? 0); [reflexivity|].
    replace ((cursor_x s <=? px) && (px <? cursor_x s + 6 * textSize s) &&
             (cursor_y s <=? py) && (py <? cursor_y s + 8 * textSize s))
      with false; [reflexivity|].
    symmetry. apply not_true_iff_false. intros H.
    rewrite !andb_true_iff, !Z.leb_le, !Z.ltb_lt in H. apply Hnot. lia. }
  change (newline_char =? newline_char) with true. cbv iota.
  destruct (textWrap _ && _); eexists; (split; [reflexivity|]);
    (split; [exact L|exact Hout]).
Qed.

(** X22. [Arduboy::clear] returns with every pixel of the screen [BLACK]
    and the cursor at (0, 0), and keeps the text settings and the frame
    members. *)
Theorem Arduboy_clear_blanks (s : Arduboy) :
  Z.of_nat (length (sBuffer s)) = buf_size ->
  exists s',
    Arduboy_clear s = Ok s' /\
    cursor_x s' = 0 /\ cursor_y s' = 0 /\
    (forall px py, on_screen px py ->
       getPixel px py (sBuffer s') = Ok BLACK) /\
    textColor s' = textColor s /\ textBackground s' = textBackground s /\
    textSize s' = textSize s /\ textWrap s' = textWrap s /\
    base s' = base s.
Proof.
  intros Hlen. unfold Arduboy_clear. rewrite (clear_spec _ Hlen).
  cbn [bind]. eexists. split; [reflexivity|].
  cbn [set_cursor set_buffer cursor_x cursor_y sBuffer textColor
       textBackground textSize textWrap base].
  repeat split.
  intros px py Hon.
  pose proof (byte_index_range px py Hon) as Hr. rewrite buf_size_eq in Hr.
  rewrite (getPixel_on_screen px py blank 0 Hon).
  - rewrite Z.bits_0. reflexivity.
  - unfold blank. apply lookup_replicate_2. rewrite buf_size_eq. lia.
Qed.

(** *** [drawPixel] without its bounds test *)

(** X1. compiled without [PIXEL_SAFE_MODE], [drawPixel] takes its
    coordinates modulo 256 and does not test them: when the byte index
    [(y / 8) * WIDTH + x] it computes is within [sBuffer] the call draws
    the pixel of the screen that has that index and bit, and when it is
    not the call writes outside [sBuffer]. *)
Theorem drawPixel_unchecked x y color (b : Buf) :
  PIXEL_SAFE_MODE = false -> Z.of_nat (length b) = buf_size ->
  let i := u8 y / 8 * WIDTH + u8 x in
  (i < buf_size ->
   on_screen (i mod WIDTH) (8 * (i / WIDTH) + u8 y mod 8) /\
   drawPixel x y color b =
   drawPixel (i mod WIDTH) (8 * (i / WIDTH) + u8 y mod 8) color b) /\
  (buf_size <= i -> drawPixel x y color b = Fault).
Proof.
  intros Hsafe Hlen i.
  pose proof (u8_range x) as Hux. pose proof (u8_range y) as Huy.
  assert (Hrow : 0 <= u8 y / 8 < 32).
  { split; [apply Z.div_pos; lia|apply Z.div_lt_upper_bound; lia]. }
  assert (Hbit : 0 <= u8 y mod 8 < 8) by (apply Z.mod_pos_bound; lia).
  assert (Hi : 0 <= i) by (unfold i, WIDTH; lia).
  assert (Hdraw : forall x' y', drawPixel x' y' color b =
            if truthy color
            then or_assign (u8 (u8 y' / 8) * WIDTH + u8 x')
                   (_BV (u8 y' mod 8)) b
            else and_assign (u8 (u8 y' / 8) * WIDTH + u8 x')
                   (Z.lnot (_BV (u8 y' mod 8))) b).
  { intros x' y'. unfold drawPixel. rewrite Hsafe. cbn [andb].
    destruct (truthy color); reflexivity. }
  rewrite buf_size_eq in *. split.
  - intros Hin.
    pose proof (Z.div_mod i WIDTH ltac:(unfold WIDTH; lia)) as D.
    pose proof (Z.mod_pos_bound i WIDTH ltac:(unfold WIDTH; lia)) as M.
    assert (Hq : 0 <= i / WIDTH < 8).
    { split; [apply Z.div_pos; unfold WIDTH; lia|].
      apply Z.div_lt_upper_bound; unfold WIDTH; lia. }
    split; [unfold on_screen, HEIGHT; lia|].
    rewrite (Hdraw x y), (Hdraw (i mod WIDTH)).
    rewrite (u8_small (u8 y / 8)) by lia.
    rewrite (u8_small (i mod WIDTH)) by (unfold WIDTH in *; lia).
    rewrite (u8_small (8 * (i / WIDTH) + u8 y mod 8)) by lia.
    replace ((8 * (i / WIDTH) + u8 y mod 8) / 8) with (i / WIDTH).
    2: { apply (Z.div_unique _ 8 _ (u8 y mod 8)); lia. }
    replace ((8 * (i / WIDTH) + u8 y mod 8) mod 8) with (u8 y mod 8).
    2: { apply (Z.mod_unique _ 8 (i / WIDTH)); lia. }
    rewrite (u8_small (i / WIDTH)) by lia.
    replace (i / WIDTH * WIDTH + i mod WIDTH) with i by lia.
    reflexivity.
  - intros Hout. rewrite (Hdraw x y).
    rewrite (u8_small (u8 y / 8)) by lia. fold i.
    assert (Hload : load i b = Fault).
    { unfold load.
      replace (i <? 0) with false by (symmetry; apply Z.ltb_ge; lia).
      rewrite lookup_ge_None_2 by lia. reflexivity. }
    unfold or_assign, and_assign, modify. rewrite Hload.
    destruct (truthy color); reflexivity.
Qed.

(** *** Filled circles and rounded rectangles *)

Lemma sets_paint c v (P Lo : Z -> Z -> bool) (Hi : Z -> Z -> Prop) :
  renders c (paint P v) ->
  (forall px py, Lo px py = true -> P px py = true) ->
  (forall px py, P px py = true -> Hi px py) ->
  sets c v Lo Hi.
Proof. intros R L U. exists P. split; [exact R|]. split; assumption. Qed.

Lemma sets_then c1 c2 v Lo (Hi : Z -> Z -> Prop) :
  sets c1 v Lo Hi -> sets c2 v (fun _ _ => false) Hi ->
  sets (c1 >> c2) v Lo Hi.
Proof.
  intros H1 H2.
  apply (sets_weaken _ _ (fun px py => Lo px py || false)).
  - intros px py H. rewrite orb_false_r. exact H.
  - apply sets_seq; assumption.
Qed.

Lemma sets_if (t : bool) c v (Hi : Z -> Z -> Prop) :
  (t = true -> sets c v (fun _ _ => false) Hi) ->
  sets (if t then c else skip) v (fun _ _ => false) Hi.
Proof.
  intros H. destruct t; [apply H; reflexivity|apply sets_skip].
Qed.

(** A column drawn by [drawFastVLine], within [Hi]. *)
Lemma sets_column x y h color (Hi : Z -> Z -> Prop) :
  -32768 <= y <= 32767 -> 0 <= h <= 255 ->
  PIXEL_SAFE_MODE = true \/ 0 <= x < WIDTH ->
  (forall py, y <= py < y + h -> Hi x py) ->
  sets (drawFastVLine x y h color) (truthy color) (fun _ _ => false) Hi.
Proof.
  intros Hy Hh Hx HHi.
  apply (sets_paint _ _
           (fun px py => (px =? x) && (y <=? py) && (py <? y + h))).
  - apply drawFastVLine_paints; assumption.
  - intros px py H. discriminate H.
  - intros px py H.
    rewrite !andb_true_iff, Z.eqb_eq, Z.leb_le, Z.ltb_lt in H.
    destruct H as [[-> H1] H2]. apply HHi. lia.
Qed.

Lemma fill_loop_sets fuel x0 y0 r cornername delta color
  (Hi : Z -> Z -> Prop) f ddF_x ddF_y x y :
  0 <= r <= 255 ->
  -32768 <= x0 - r -> x0 + r <= 32767 ->
  -32768 <= y0 - r -> y0 <= 32767 ->
  -1 <= delta -> 2 * r + 1 + delta <= 255 ->
  (truthy (Z.land cornername 1) = true ->
   forall a b, 0 <= a <= r -> 0 <= b <= r ->
     (PIXEL_SAFE_MODE = true \/ 0 <= x0 + a < WIDTH) /\
     forall py, y0 - b <= py <= y0 + b + delta -> Hi (x0 + a) py) ->
  (truthy (Z.land cornername 2) = true ->
   forall a b, 0 <= a <= r -> 0 <= b <= r ->
     (PIXEL_SAFE_MODE = true \/ 0 <= x0 - a < WIDTH) /\
     forall py, y0 - b <= py <= y0 + b + delta -> Hi (x0 - a) py) ->
  0 <= x -> y <= r -> y - x <= Z.of_nat fuel ->
  sets (fill_loop fuel x0 y0 cornername delta color f ddF_x ddF_y x y)
       (truthy color) (fun _ _ => false) Hi.
Proof.
  intros Hr Hx0a Hx0b Hy0a Hy0b Hd1 Hd2 Hright Hleft.
  revert f ddF_x ddF_y x y.
  induction fuel as [|fuel IH]; intros f ddF_x ddF_y x y Hx Hy Hfuel.
  - cbn [fill_loop].
    replace (x <? y) with false by (symmetry; apply Z.ltb_ge; lia).
    apply sets_skip.
  - cbn [fill_loop].
    destruct (Z.ltb_spec x y) as [Hlt|Hge]; [|apply sets_skip].
    set (y' := if f >=? 0 then y - 1 else y).
    assert (Hy' : x <= y' <= y /\ y - 1 <= y')
      by (unfold y'; destruct (f >=? 0); lia).
    assert (E : (if f >=? 0
                 then (i16 (y - 1), i16 (ddF_y + 2),
                       i16 (f + i16 (ddF_y + 2)))
                 else (y, ddF_y, f)) =
                (y', if f >=? 0 then i16 (ddF_y + 2) else ddF_y,
                 if f >=? 0 then i16 (f + i16 (ddF_y + 2)) else f)).
    { unfold y'. destruct (f >=? 0); [|reflexivity].
      rewrite (i16_small (y - 1)) by lia. reflexivity. }
    rewrite E. clear E. cbv beta iota zeta.
    rewrite (i16_small (x + 1)) by lia.
    rewrite !(i16_small (x0 + _)), !(i16_small (x0 - _)),
      !(i16_small (y0 - _)) by lia.
    rewrite !(i16_small (2 * _ + 1 + delta)) by lia.
    rewrite !(u8_small (2 * _ + 1 + delta)) by lia.
    assert (Hcol : forall cx b,
              (PIXEL_SAFE_MODE = true \/ 0 <= cx < WIDTH) /\
              (forall py, y0 - b <= py <= y0 + b + delta -> Hi cx py) ->
              0 <= b <= r ->
              sets (drawFastVLine cx (y0 - b) (2 * b + 1 + delta) color)
                   (truthy color) (fun _ _ => false) Hi).
    { intros cx b [Hc HH] Hb. apply sets_column; try lia; [exact Hc|].
      intros py Hpy. apply HH. lia. }
    apply sets_then; [|apply sets_then].
    + apply sets_if. intros Hbit.
      apply sets_then; apply Hcol; try lia; apply (Hright Hbit); lia.
    + apply sets_if. intros Hbit.
      apply sets_then; apply Hcol; try lia; apply (Hleft Hbit); lia.
    + apply IH; lia.
Qed.

(** X15. [fillCircle] of a radius up to 127 ends, sets the column through
    the centre from [y0 - r] to [y0 + r], sets pixels only within the
    square of side [2 r + 1] around the centre, all to one colour, and
    leaves every other pixel of the screen as it was; it needs the
    bounds test of [drawPixel] or the columns of the square on the
    screen (the rows are clipped by [drawFastVLine]). *)
Theorem fillCircle_sets x0 y0 r color :
  0 <= r <= 127 ->
  -32768 <= x0 - r -> x0 + r <= 32767 ->
  -32768 <= y0 - r -> y0 + r <= 32767 ->
  PIXEL_SAFE_MODE = true \/ (0 <= x0 - r /\ x0 + r < WIDTH) ->
  sets (fillCircle x0 y0 r color) (truthy color)
       (fun px py => (px =? x0) && (y0 - r <=? py) && (py <=? y0 + r))
       (in_square x0 y0 r).
Proof.
  intros Hr Hx0a Hx0b Hy0a Hy0b Hok. unfold fillCircle, fillCircleHelper.
  assert (Hc : forall cx, x0 - r <= cx <= x0 + r ->
                          PIXEL_SAFE_MODE = true \/ 0 <= cx < WIDTH).
  { intros cx Hcx. destruct Hok as [Hs|Hs]; [left; exact Hs|right; lia]. }
  rewrite (i16_small (y0 - r)), (i16_small (2 * r + 1)) by lia.
  rewrite (u8_small (2 * r + 1)) by lia.
  apply sets_then.
  - apply (sets_paint _ _
             (fun px py => (px =? x0) && (y0 - r <=? py) &&
                           (py <? y0 - r + (2 * r + 1)))).
    + apply drawFastVLine_paints; try lia. apply Hc. lia.
    + intros px py H.
      rewrite !andb_true_iff, Z.eqb_eq, !Z.leb_le in H.
      rewrite !andb_true_iff, Z.eqb_eq, Z.leb_le, Z.ltb_lt. lia.
    + intros px py H.
      rewrite !andb_true_iff, Z.eqb_eq, Z.leb_le, Z.ltb_lt in H.
      unfold in_square. lia.
  - apply (fill_loop_sets 256 x0 y0 r 3 0 color); try lia.
    + intros _ a b Ha Hb. split; [apply Hc; lia|].
      intros py Hpy. unfold in_square. lia.
    + intros _ a b Ha Hb. split; [apply Hc; lia|].
      intros py Hpy. unfold in_square. lia.
Qed.

(** X17. [fillRoundRect] with [2 r <= w] and [2 r <= h] ends, sets the
    columns of the box [[x, x+w)] by [[y, y+h)] between its rounded
    corners in full, sets pixels only within the box, all to one
    colour, and leaves every other pixel of the screen as it was. *)
Theorem fillRoundRect_sets x y w h r color :
  -32768 < x -> x + w <= 32767 -> -32768 <= y -> y + h <= 32767 ->
  1 <= w <= 255 -> 1 <= h <= 255 ->
  0 <= r -> 2 * r <= w -> 2 * r <= h ->
  PIXEL_SAFE_MODE = true \/ (0 <= x /\ x + w <= WIDTH) ->
  sets (fillRoundRect x y w h r color) (truthy color)
       (fun px py => (x + r <=? px) && (px <? x + w - r) &&
                     (y <=? py) && (py <? y + h))
       (fun px py => x <= px < x + w /\ y <= py < y + h).
Proof.
  intros Hx0 Hx1 Hy0 Hy1 Hw Hh Hr Hrw Hrh Hok.
  unfold fillRoundRect, fillCircleHelper.
  assert (Hc : forall cx, x <= cx < x + w ->
                          PIXEL_SAFE_MODE = true \/ 0 <= cx < WIDTH).
  { intros cx Hcx. destruct Hok as [Hs|Hs]; [left; exact Hs|right; lia]. }
  rewrite (i16_small (x + r)), (i16_small (w - 2 * r)),
    (i16_small (x + w - r - 1)), (i16_small (y + r)),
    (i16_small (h - 2 * r - 1)) by lia.
  rewrite (u8_small (w - 2 * r)) by lia.
  apply sets_then; [|apply sets_then].
  - apply (sets_paint _ _
             (fun px py => (x + r <=? px) && (px <? x + r + (w - 2 * r)) &&
                           (y <=? py) && (py <? y + h))).
    + apply fillRect_paints; try lia.
      destruct Hok as [Hs|Hs]; [left; exact Hs|right; lia].
    + intros px py H.
      rewrite !andb_true_iff, !Z.leb_le, !Z.ltb_lt in H.
      rewrite !andb_true_iff, !Z.leb_le, !Z.ltb_lt. lia.
    + intros px py H.
      rewrite !andb_true_iff, !Z.leb_le, !Z.ltb_lt in H. lia.
  - apply (fill_loop_sets 256 (x + w - r - 1) (y + r) r 1
             (h - 2 * r - 1) color); try lia.
    + intros _ a b Ha Hb. split; [apply Hc; lia|]. intros py Hpy. lia.
    + intros Hbit. discriminate Hbit.
  - apply (fill_loop_sets 256 (x + r) (y + r) r 2
             (h - 2 * r - 1) color); try lia.
    + intros Hbit. discriminate Hbit.
    + intros _ a b Ha Hb. split; [apply Hc; lia|]. intros py Hpy. lia.
Qed.

Lemma corner_loop_sets fuel x0 y0 r cornername color
  (Hi : Z -> Z -> Prop) f ddF_x ddF_y x y :
  0 <= r <= 255 ->
  -32768 <= x0 - r -> x0 + r <= 32767 ->
  -32768 <= y0 - r -> y0 + r <= 32767 ->
  (truthy (Z.land cornername 4) = true ->
   forall a b, 0 <= a <= r -> 0 <= b <= r ->
     drawable (x0 + a) (y0 + b) /\ Hi (x0 + a) (y0 + b)) ->
  (truthy (Z.land cornername 2) = true ->
   forall a b, 0 <= a <= r -> 0 <= b <= r ->
     drawable (x0 + a) (y0 - b) /\ Hi (x0 + a) (y0 - b)) ->
  (truthy (Z.land cornername 8) = true ->
   forall a b, 0 <= a <= r -> 0 <= b <= r ->
     drawable (x0 - a) (y0 + b) /\ Hi (x0 - a) (y0 + b)) ->
  (truthy (Z.land cornername 1) = true ->
   forall a b, 0 <= a <= r -> 0 <= b <= r ->
     drawable (x0 - a) (y0 - b) /\ Hi (x0 - a) (y0 - b)) ->
  0 <= x -> y <= r -> y - x <= Z.of_nat fuel ->
  sets (corner_loop fuel x0 y0 cornername color f ddF_x ddF_y x y)
       (truthy color) (fun _ _ => false) Hi.
Proof.
  intros Hr Hx0a Hx0b Hy0a Hy0b H4 H2 H8 H1.
  revert f ddF_x ddF_y x y.
  induction fuel as [|fuel IH]; intros f ddF_x ddF_y x y Hx Hy Hfuel.
  - cbn [corner_loop].
    replace (x <? y) with false by (symmetry; apply Z.ltb_ge; lia).
    apply sets_skip.
  - cbn [corner_loop].
    destruct (Z.ltb_spec x y) as [Hlt|Hge]; [|apply sets_skip].
    set (y' := if f >=? 0 then y - 1 else y).
    assert (Hy' : x <= y' <= y /\ y - 1 <= y')
      by (unfold y'; destruct (f >=? 0); lia).
    assert (E : (if f >=? 0
                 then (i16 (y - 1), i16 (ddF_y + 2),
                       i16 (f + i16 (ddF_y + 2)))
                 else (y, ddF_y, f)) =
                (y', if f >=? 0 then i16 (ddF_y + 2) else ddF_y,
                 if f >=? 0 then i16 (f + i16 (ddF_y + 2)) else f)).
    { unfold y'. destruct (f >=? 0); [|reflexivity].
      rewrite (i16_small (y - 1)) by lia. reflexivity. }
    rewrite E. clear E. cbv beta iota zeta.
    rewrite (i16_small (x + 1)) by lia.
    rewrite !(i16_small (x0 + _)), !(i16_small (x0 - _)),
      !(i16_small (y0 + _)), !(i16_small (y0 - _)) by lia.
    assert (Hpix : forall px py, drawable px py /\ Hi px py ->
              sets (drawPixel px py color) (truthy color)
                   (fun _ _ => false) Hi).
    { intros px py [Hd HH].
      apply (sets_weaken _ _ (fun qx qy => (qx =? px) && (qy =? py))).
      - intros qx qy H. discriminate H.
      - apply sets_drawPixel; assumption. }
    repeat (apply sets_then;
            [apply sets_if; intros Hbit;
             apply sets_then; apply Hpix;
             first [apply (H4 Hbit) | apply (H2 Hbit)
                   | apply (H8 Hbit) | apply (H1 Hbit)]; lia|]).
    apply IH; lia.
Qed.

(** X16. a [WHITE] or [BLACK] [drawRoundRect] with [2 r <= w] and
    [2 r <= h] ends, sets the four straight sides of the box
    [[x, x+w)] by [[y, y+h)] between its rounded corners, sets pixels
    only within the box, all to one colour, and leaves every other
    pixel of the screen as it was; it needs the bounds test of
    [drawPixel] or the box on the screen. *)
Theorem drawRoundRect_sets x y w h r color :
  color = WHITE \/ color = BLACK ->
  -32768 < x -> x + r < WIDTH -> 0 <= x + w - r ->
  -32768 < y -> y + h <= 32767 ->
  1 <= w <= 255 -> 1 <= h <= 255 ->
  0 <= r -> 2 * r <= w -> 2 * r <= h ->
  PIXEL_SAFE_MODE = true \/
    (0 <= x /\ x + w <= WIDTH /\ 0 <= y /\ y + h <= HEIGHT) ->
  sets (drawRoundRect x y w h r color) (truthy color)
       (fun px py =>
          (((py =? y) || (py =? y + h - 1)) &&
           (x + r <=? px) && (px <? x + w - r)) ||
          (((px =? x) || (px =? x + w - 1)) &&
           (y + r <=? py) && (py <? y + h - r)))
       (fun px py => x <= px < x + w /\ y <= py < y + h).
Proof.
  intros Hcol Hx0 Hx1 Hx2 Hy0 Hy1 Hw Hh Hr Hrw Hrh Hok.
  unfold drawRoundRect, drawCircleHelper. unfold WIDTH, HEIGHT in *.
  assert (Hc : forall cx, x <= cx < x + w ->
                          PIXEL_SAFE_MODE = true \/ 0 <= cx < WIDTH).
  { intros cx Hcx. unfold WIDTH.
    destruct Hok as [Hs|Hs]; [left; exact Hs|right; lia]. }
  assert (Hp : forall px py, x <= px < x + w -> y <= py < y + h ->
                 drawable px py /\ (x <= px < x + w /\ y <= py < y + h)).
  { intros px py Hpx Hpy. split; [|lia].
    destruct Hok as [Hs|Hs]; [left; exact Hs|right].
    unfold on_screen, WIDTH, HEIGHT. lia. }
  rewrite (i16_small (x + r)), (i16_small (w - 2 * r)),
    (i16_small (h - 2 * r)), (i16_small (x + w - r - 1)),
    (i16_small (y + r)), (i16_small (y + h - 1)), (i16_small (x + w - 1)),
    (i16_small (y + h - r - 1)) by lia.
  rewrite (u8_small (w - 2 * r)), (u8_small (h - 2 * r)) by lia.
  apply (sets_weaken _ _
           (fun px py =>
              ((py =? y) && (x + r <=? px) && (px <? x + r + (w - 2 * r))) ||
              (((py =? y + h - 1) && (x + r <=? px) &&
                (px <? x + r + (w - 2 * r))) ||
               (((px =? x) && (y + r <=? py) &&
                 (py <? y + r + (h - 2 * r))) ||
                (((px =? x + w - 1) && (y + r <=? py) &&
                  (py <? y + r + (h - 2 * r))) || false))))).
  { intros px py H.
    rewrite !orb_true_iff, !andb_true_iff, !orb_true_iff, !Z.eqb_eq,
      !Z.leb_le, !Z.ltb_lt in H.
    rewrite !orb_true_iff, !andb_true_iff, !Z.eqb_eq, !Z.leb_le, !Z.ltb_lt.
    lia. }
  assert (Hside : forall c (P : Z -> Z -> bool),
            renders c (paint P (truthy color)) ->
            (forall px py, P px py = true ->
               x <= px < x + w /\ y <= py < y + h) ->
            sets c (truthy color) P
                 (fun px py => x <= px < x + w /\ y <= py < y + h)).
  { intros c P R U. apply (sets_paint _ _ P); [exact R| |exact U].
    intros px py H. exact H. }
  apply sets_seq; [|apply sets_seq; [|apply sets_seq; [|apply sets_seq]]].
  - apply Hside.
    + apply drawFastHLine_paints; unfold WIDTH; lia.
    + intros px py H.
      rewrite !andb_true_iff, Z.eqb_eq, Z.leb_le, Z.ltb_lt in H. lia.
  - apply Hside.
    + apply drawFastHLine_paints; unfold WIDTH; lia.
    + intros px py H.
      rewrite !andb_true_iff, Z.eqb_eq, Z.leb_le, Z.ltb_lt in H. lia.
  - apply Hside.
    + apply drawFastVLine_paints; try lia. apply Hc. lia.
    + intros px py H.
      rewrite !andb_true_iff, Z.eqb_eq, Z.leb_le, Z.ltb_lt in H. lia.
  - apply Hside.
    + apply drawFastVLine_paints; try lia. apply Hc. lia.
    + intros px py H.
      rewrite !andb_true_iff, Z.eqb_eq, Z.leb_le, Z.ltb_lt in H. lia.
  - repeat apply sets_then.
    + apply (corner_loop_sets 256 (x + r) (y + r) r 1 color); try lia;
        try (intros Hbit; discriminate Hbit).
      intros _ a b Ha Hb. apply Hp; lia.
    + apply (corner_loop_sets 256 (x + w - r - 1) (y + r) r 2 color);
        try lia; try (intros Hbit; discriminate Hbit).
      intros _ a b Ha Hb. apply Hp; lia.
    + apply (corner_loop_sets 256 (x + w - r - 1) (y + h - r - 1) r 4
               color); try lia; try (intros Hbit; discriminate Hbit).
      intros _ a b Ha Hb. apply Hp; lia.
    + apply (corner_loop_sets 256 (x + r) (y + h - r - 1) r 8 color);
        try lia; try (intros Hbit; discriminate Hbit).
      intros _ a b Ha Hb. apply Hp; lia.
Qed.

(** X2. [getPixel] takes its coordinates modulo 256 and does not test
    them, with [PIXEL_SAFE_MODE] or without: when the byte index
    [(y / 8) * WIDTH + x] it computes is within [sBuffer] the call reads
    the pixel of the screen that has that index and bit, and when it is
    not the call reads outside [sBuffer]. *)
Theorem getPixel_unchecked x y (b : Buf) :
  Z.of_nat (length b) = buf_size ->
  let i := u8 y / 8 * WIDTH + u8 x in
  (i < buf_size ->
   on_screen (i mod WIDTH) (8 * (i / WIDTH) + u8 y mod 8) /\
   getPixel x y b = getPixel (i mod WIDTH) (8 * (i / WIDTH) + u8 y mod 8) b) /\
  (buf_size <= i -> getPixel x y b = Fault).
Proof.
  intros Hlen i.
  pose proof (u8_range x) as Hux. pose proof (u8_range y) as Huy.
  assert (Hrow : 0 <= u8 y / 8 < 32).
  { split; [apply Z.div_pos; lia|apply Z.div_lt_upper_bound; lia]. }
  assert (Hbit : 0 <= u8 y mod 8 < 8) by (apply Z.mod_pos_bound; lia).
  assert (Hi : 0 <= i) by (unfold i, WIDTH; lia).
  rewrite buf_size_eq in *. split.
  - intros Hin.
    pose proof (Z.div_mod i WIDTH ltac:(unfold WIDTH; lia)) as D.
    pose proof (Z.mod_pos_bound i WIDTH ltac:(unfold WIDTH; lia)) as M.
    assert (Hq : 0 <= i / WIDTH < 8).
    { split; [apply Z.div_pos; unfold WIDTH; lia|].
      apply Z.div_lt_upper_bound; unfold WIDTH; lia. }
    split; [unfold on_screen, HEIGHT; lia|].
    unfold getPixel. cbv zeta.
    rewrite (u8_small (u8 y / 8)) by lia.
    rewrite (u8_small (i mod WIDTH)) by (unfold WIDTH in *; lia).
    rewrite (u8_small (8 * (i / WIDTH) + u8 y mod 8)) by lia.
    replace ((8 * (i / WIDTH) + u8 y mod 8) / 8) with (i / WIDTH).
    2: { apply (Z.div_unique _ 8 _ (u8 y mod 8)); lia. }
    replace ((8 * (i / WIDTH) + u8 y mod 8) mod 8) with (u8 y mod 8).
    2: { apply (Z.mod_unique _ 8 (i / WIDTH)); lia. }
    rewrite (u8_small (i / WIDTH)) by lia.
    replace (i / WIDTH * WIDTH + i mod WIDTH) with i by lia.
    reflexivity.
  - intros Hout. unfold getPixel. cbv zeta.
    rewrite (u8_small (u8 y / 8)) by lia. fold i.
    assert (Hload : load i b = Fault).
    { unfold load.
      replace (i <? 0) with false by (symmetry; apply Z.ltb_ge; lia).
      rewrite lookup_ge_None_2 by lia. reflexivity. }
    rewrite Hload. reflexivity.
Qed.

End Graphics.

(** ** The frame schedule *)

Lemma i32_small z : -2147483648 <= z < 2147483648 -> i32 z = z.
Proof.
  intros H. unfold i32, signed.
  change (2 ^ (32 - 1)) with 2147483648. change (2 ^ 32) with 4294967296.
  rewrite Z.mod_small by lia. lia.
Qed.

Lemma setFrameRate_period R s :
  4 <= R <= 255 ->
  exists s', setFrameRate R s = Ok s' /\
             eachFrameMillis s' = 1000 / R /\
             0 <= 1000 / R <= 250 /\
             lastFrameStart s' = lastFrameStart s /\
             nextFrameStart s' = nextFrameStart s.
Proof.
  intros HR. unfold setFrameRate.
  replace (R =? 0) with false by (symmetry; apply Z.eqb_neq; lia).
  eexists. split; [reflexivity|]. cbn.
  assert (Hq : 0 <= 1000 / R <= 250).
  { split; [apply Z.div_pos; lia|].
    change 250 with (1000 / 4). apply Z.div_le_compat_l; lia. }
  rewrite Z.quot_div_nonneg by lia.
  unfold u8, unsigned. rewrite Z.mod_small by (change (2 ^ 8) with 256; lia).
  repeat split; lia.
Qed.

(** What an accepted call of [newFrame] does to the schedule.  For a
    rate [R] from 4 to 255 (the period [1000 / R] then fits the 8-bit
    member) and times below 2^31 milliseconds, a call at a time [now] not
    before [nextFrameStart] accepts the frame, records [now] as
    [lastFrameStart] and sets [nextFrameStart] to the greater of [now]
    and the start of the frame before plus [1000 / R]: the code adds the
    period to [lastFrameStart] before it stores [now] there. *)
Theorem newFrame_schedule (R : Z) (s0 : ArduboyBase) (now : Z) :
  4 <= R <= 255 ->
  0 <= now < 2147483648 ->
  -2147483648 <= lastFrameStart s0 < 2147483648 - 255 ->
  nextFrameStart s0 <= now ->
  exists s,
    setFrameRate R s0 = Ok s /\
    let f := newFrame now s in
    due f = true /\
    lastFrameStart (after f) = now /\
    eachFrameMillis (after f) = 1000 / R /\
    nextFrameStart (after f) = Z.max (lastFrameStart s0 + 1000 / R) now /\
    now <= nextFrameStart (after f) /\
    (lastFrameStart s0 + 1000 / R < now -> nextFrameStart (after f) = now) /\
    (lastFrameStart s0 = nextFrameStart s0 ->
     now <= nextFrameStart s0 + 1000 / R ->
     nextFrameStart (after f) = nextFrameStart s0 + 1000 / R) /\
    (lastFrameStart s0 <= nextFrameStart s0 ->
     lastFrameStart (after f) <= nextFrameStart (after f)
       <= lastFrameStart (after f) + 1000 / R).
Proof.
  intros HR Hnow Hlast Hdue.
  destruct (setFrameRate_period R s0 HR) as (s & Hs & Heach & Hq & Hl & Hn).
  exists s. split; [exact Hs|]. cbv zeta.
  assert (Hnext : nextFrameStart (after (newFrame now s)) =
                  Z.max (lastFrameStart s0 + 1000 / R) now /\
                  due (newFrame now s) = true /\
                  lastFrameStart (after (newFrame now s)) = now /\
                  eachFrameMillis (after (newFrame now s)) = 1000 / R).
  { unfold newFrame. rewrite (i32_small now) by lia.
    destruct (post_render s); cbn [nextFrameStart lastFrameStart
                                     eachFrameMillis];
      rewrite Hn, Hl, Heach;
      replace (now <? nextFrameStart s0) with false
        by (symmetry; apply Z.ltb_ge; lia);
      rewrite i32_small by lia;
      cbn [after due nextFrameStart lastFrameStart eachFrameMillis];
      (destruct (Z.ltb_spec (lastFrameStart s0 + 1000 / R) now);
       repeat split; lia). }
  destruct Hnext as (Hnext & Hd & Hls & He).
  rewrite Hnext, Hls. repeat split; try assumption; lia.
Qed.

(** A call before [nextFrameStart] is turned down and leaves the
    schedule as it is. *)
Lemma newFrame_not_due (s : ArduboyBase) (now : Z) :
  -2147483648 <= now < 2147483648 ->
  now < nextFrameStart s ->
  let f := newFrame now s in
  due f = false /\
  nextFrameStart (after f) = nextFrameStart s /\
  lastFrameStart (after f) = lastFrameStart s /\
  eachFrameMillis (after f) = eachFrameMillis s.
Proof.
  intros Hnow Hlt. cbv zeta. unfold newFrame.
  rewrite (i32_small now) by lia.
  destruct (post_render s); cbn [nextFrameStart];
    replace (now <? nextFrameStart s) with true
      by (symmetry; apply Z.ltb_lt; lia);
    repeat split.
Qed.

(** The schedule at 60 frames a second for a frame that started and was
    due at 100 ms and is polled at 116 ms. *)
Lemma newFrame_schedule_witness :
  (4 <= 60 <= 255 /\ 0 <= 116 < 2147483648 /\
   -2147483648 <= lastFrameStart (mkBase 60 3 16 100 100 true 16)
     < 2147483648 - 255 /\
   nextFrameStart (mkBase 60 3 16 100 100 true 16) <= 116) /\
  exists s,
    setFrameRate 60 (mkBase 60 3 16 100 100 true 16) = Ok s /\
    let f := newFrame 116 s in
    due f = true /\
    lastFrameStart (after f) = 116 /\
    eachFrameMillis (after f) = 1000 / 60 /\
    nextFrameStart (after f) = Z.max (100 + 1000 / 60) 116 /\
    116 <= nextFrameStart (after f) /\
    (100 + 1000 / 60 < 116 -> nextFrameStart (after f) = 116) /\
    (100 = 100 -> 116 <= 100 + 1000 / 60 ->
     nextFrameStart (after f) = 100 + 1000 / 60) /\
    (100 <= 100 ->
     lastFrameStart (after f) <= nextFrameStart (after f)
       <= lastFrameStart (after f) + 1000 / 60).
Proof.
  split.
  - cbn. lia.
  - apply (newFrame_schedule 60 (mkBase 60 3 16 100 100 true 16) 116);
      cbn; lia.
Defined.

(** A frame accepted one period or more after the start of the frame
    before leaves [nextFrameStart] at the time of the call, so that the
    call that follows is accepted too, however soon it comes. *)
Lemma newFrame_next_poll_accepted (s : ArduboyBase) (now now' : Z) :
  0 <= eachFrameMillis s <= 255 ->
  0 <= now <= now' -> now' < 2147483648 ->
  -2147483648 <= lastFrameStart s ->
  nextFrameStart s <= now ->
  lastFrameStart s + eachFrameMillis s <= now ->
  due (newFrame now s) = true /\
  nextFrameStart (after (newFrame now s)) = now /\
  due (newFrame now' (after (newFrame now s))) = true.
Proof.
  intros He Hnow Hnow' Hlast Hdue Hlate.
  assert (E : due (newFrame now s) = true /\
              nextFrameStart (after (newFrame now s)) = now /\
              post_render (after (newFrame now s)) = true).
  { unfold newFrame. rewrite (i32_small now) by lia.
    destruct (post_render s);
      cbn [post_render frameCount nextFrameStart eachFrameMillis
           frameRate lastFrameStart lastFrameDurationMs];
      replace (now <? nextFrameStart s) with false
        by (symmetry; apply Z.ltb_ge; lia);
      rewrite (i32_small (lastFrameStart s + eachFrameMillis s)) by lia;
      cbn [due after nextFrameStart post_render];
      (destruct (Z.ltb_spec (lastFrameStart s + eachFrameMillis s) now);
       repeat split; lia). }
  destruct E as (Ed & En & Ep).
  split; [exact Ed|]. split; [exact En|].
  unfold newFrame at 1. rewrite (i32_small now') by lia.
  rewrite Ep. cbn [nextFrameStart]. rewrite En.
  replace (now' <? now) with false by (symmetry; apply Z.ltb_ge; lia).
  reflexivity.
Qed.

(** C3.  [newFrame] does not keep the frame rate it is set to.  It adds
    the period to [lastFrameStart] before it stores [now] there, so the
    schedule is computed from the start of the frame before the one
    that ends: after a frame accepted on time [nextFrameStart] is the
    time of the call itself and the next call is accepted at once.
    The freshly constructed object (60 frames a second, a period of
    16 ms) polled every millisecond accepts the frames at 0, 16, 17, 32,
    33, 48 and 49 ms, [nextFrameStart] moving by 16, 0, 16, 1, 15, 1 and
    15 ms and never an accepted call more than one period late; in
    1000 ms it accepts 125 frames, where [nextFrame] accepts 63.  The
    schedule the specification states does not hold. *)
Theorem newFrame_double_rate :
  ArduboyBase_new = Ok (mkBase 60 0 16 0 0 false 0) /\
  map (fun '(before, now, f) =>
         (now, nextFrameStart before, nextFrameStart (after f)))
    (List.filter (fun '(_, _, f) => due f)
       (run (map Z.of_nat (List.seq 0 50)) (mkBase 60 0 16 0 0 false 0)))
  = [(0, 0, 16); (16, 16, 16); (17, 16, 32); (32, 32, 33); (33, 33, 48);
     (48, 48, 49); (49, 49, 64)] /\
  frames_due newFrame (map Z.of_nat (List.seq 0 1000))
    (mkBase 60 0 16 0 0 false 0) = 125 /\
  frames_due nextFrame (map Z.of_nat (List.seq 0 1000))
    (mkBase 60 0 16 0 0 false 0) = 63 /\
  ~ drift_free.
Proof.
  split; [reflexivity|]. split; [vm_compute; reflexivity|].
  split; [vm_compute; reflexivity|]. split; [vm_compute; reflexivity|].
  intros H.
  specialize (H 60 [0; 16] (mkBase 60 0 16 0 0 false 0)
                (mkBase 60 0 16 0 0 false 0)).
  assert (HF : Forall (fun '(before, now, f) =>
                         due f = true ->
                         nextFrameStart (after f) =
                         nextFrameStart before + 1000 / 60)
                 (run [0; 16] (mkBase 60 0 16 0 0 false 0))).
  { apply H.
    - lia.
    - reflexivity.
    - reflexivity.
    - cbn. lia.
    - cbn [run].
      constructor; [intros _; vm_compute; discriminate|].
      constructor; [intros _; vm_compute; discriminate|].
      constructor. }
  cbn [run] in HF.
  apply Forall_cons in HF. destruct HF as [_ HF].
  apply Forall_cons in HF. destruct HF as [HF _].
  specialize (HF eq_refl). cbn in HF. discriminate HF.
Qed.

(** ** Evaluations *)

(** The pixel (3, 10) of the blank buffer, drawn in [WHITE]. *)
Lemma drawPixel_getPixel_witness :
  (0 <= 3 < WIDTH /\ 0 <= 10 < HEIGHT /\
   Z.of_nat (length blank) = buf_size) /\
  exists old new,
    blank !! Z.to_nat ((10 / 8) * WIDTH + 3) = Some old /\
    (forall n, 0 <= n < 8 ->
       Z.testbit new n =
       if n =? 10 mod 8 then truthy WHITE else Z.testbit old n) /\
    0 <= new < 256 /\
    let b' := <[Z.to_nat ((10 / 8) * WIDTH + 3) := new]> blank in
    drawPixel true 3 10 WHITE blank = Ok b' /\
    getPixel 3 10 b' = Ok (if truthy WHITE then WHITE else BLACK) /\
    drawPixel true 3 10 WHITE b' = Ok b'.
Proof.
  split.
  - unfold WIDTH, HEIGHT. repeat split; lia.
  - apply (drawPixel_getPixel true 3 10 WHITE blank).
    + unfold WIDTH. lia.
    + unfold HEIGHT. lia.
    + reflexivity.
Defined.

(** C2, at a failing input.  A run of length 3 that starts at column -10
    ends left of the screen, so nothing is to be drawn; the code adds -10
    to the length in an [uint8_t], gets 249, clamps that to 128 and
    writes the whole of row 0. *)
Theorem drawFastHLine_left_of_screen :
  drawFastHLine (-10) 0 3 WHITE blank =
  Ok (replicate 128%nat 1 ++ replicate 896%nat 0).
Proof. vm_compute. reflexivity. Qed.

(** A run that starts right of the screen: the width becomes
    [(uint8_t)(128 - 200) = 184] and the 184 bytes from the offset 200
    are written, pixels of rows 8 and 16. *)
Lemma drawFastHLine_right_of_screen :
  drawFastHLine 200 0 1 WHITE blank =
  Ok (replicate 200%nat 0 ++ replicate 184%nat 1 ++ replicate 640%nat 0).
Proof. vm_compute. reflexivity. Qed.

(** The run of the specification's example, [x = -3] and length 10, is
    clipped to the columns 0 to 6. *)
Lemma drawFastHLine_example :
  drawFastHLine (-3) 0 10 WHITE blank =
  Ok (replicate 7%nat 1 ++ replicate 1017%nat 0).
Proof. vm_compute. reflexivity. Qed.

(** C4, at a failing input.  The vertices (0,0), (0,4), (4,4) are in
    ascending y order already.  The three unguarded swaps of the x
    coordinates turn them into (4,0), (0,4), (0,4): [fillTriangle] draws
    the diagonal from (4,0) to (0,4) and leaves the vertex (0,0) unset,
    where the fill of the sorted vertices sets it.  And the fill of
    (0,5), (3,0), (9,9) differs, at the pixel (9,1), from the fill of the
    same vertices given in ascending y order. *)
Theorem fillTriangle_unpairs_x :
  pixel_after (fillTriangle 8 0 0 0 4 4 4 WHITE) 0 0 blank = Ok BLACK /\
  pixel_after (fillTriangle 8 0 0 0 4 4 4 WHITE) 4 0 blank = Ok WHITE /\
  pixel_after (fillTriangle_paired 8 0 0 0 4 4 4 WHITE) 0 0 blank = Ok WHITE /\
  pixel_after (fillTriangle_paired 8 0 0 0 4 4 4 WHITE) 4 0 blank = Ok BLACK /\
  sort_by_y (0, 5) (3, 0) (9, 9) = ((3, 0), (0, 5), (9, 9)) /\
  pixel_after (fillTriangle 16 0 5 3 0 9 9 WHITE) 9 1 blank = Ok BLACK /\
  pixel_after (fillTriangle 16 3 0 0 5 9 9 WHITE) 9 1 blank = Ok WHITE.
Proof. vm_compute. repeat split; reflexivity. Qed.

(** C5, at a failing input.  The three vertices (-10,0), (-5,0), (-3,0)
    share y = 0 and lie left of the screen: the run from -10 to -3 has no
    pixel on the screen.  [fillTriangle] passes the run to
    [drawFastHLine], which writes the whole of row 0. *)
Theorem fillTriangle_flat_left_of_screen :
  fillTriangle 0 (-10) 0 (-5) 0 (-3) 0 WHITE blank =
  Ok (replicate 128%nat 1 ++ replicate 896%nat 0).
Proof. vm_compute. reflexivity. Qed.

(** A flat triangle on the screen is the run from the least to the
    greatest x. *)
Lemma fillTriangle_flat_example :
  fillTriangle 0 5 2 9 2 3 2 WHITE blank =
  Ok (replicate 3%nat 0 ++ replicate 7%nat 4 ++ replicate 1014%nat 0).
Proof. vm_compute. reflexivity. Qed.

(** A bitmap of two columns and one band drawn at (2, 3). *)
Lemma drawBitmap_on_cleared_buffer_witness :
  (-32768 <= 2 <= 32767 /\ -32768 <= 3 <= 32767 /\
   0 <= 2 <= 255 /\ 0 <= 8 <= 255 /\
   Z.of_nat (length blank) = buf_size) /\
  exists b,
    clear blank = Ok blank /\
    drawBitmap 2 3 (pgm_of_list [255; 129]) 2 8 WHITE blank = Ok b /\
    forall a iCol,
      0 <= a < (8 + 7) / 8 -> 0 <= iCol < 2 -> 0 <= 2 + iCol < WIDTH ->
      let src := pgm_read_byte (pgm_of_list [255; 129]) (a * 2 + iCol) in
      let band := 3 / 8 + a in
      (3 mod 8 = 0 -> 0 <= band < HEIGHT / 8 ->
       b !! Z.to_nat (band * WIDTH + 2 + iCol) = Some src) /\
      (3 mod 8 = 3 -> 0 <= band -> band + 1 < HEIGHT / 8 ->
       exists lo hi,
         b !! Z.to_nat (band * WIDTH + 2 + iCol) = Some lo /\
         b !! Z.to_nat ((band + 1) * WIDTH + 2 + iCol) = Some hi /\
         Z.lor (Z.shiftr lo 3) (u8 (Z.shiftl hi 5)) = src).
Proof.
  split.
  - repeat split; try lia.
  - apply (drawBitmap_on_cleared_buffer 2 3 (pgm_of_list [255; 129]) 2 8
             blank); try lia. reflexivity.
Defined.

(** A bitmap of one pixel at (200, 0), right of the screen. *)
Lemma blit_outside_screen_witness :
  (-32768 <= 200 <= 32767 /\ -32768 <= 0 <= 32767 /\
   0 <= 1 <= 255 /\ 0 <= 1 <= 255) /\
  (200 + 1 < 0 \/ 200 > WIDTH - 1 \/ 0 + 1 < 0 \/ 0 > HEIGHT - 1 ->
   drawBitmap 200 0 (pgm_of_list [255]) 1 1 WHITE blank = Ok blank /\
   drawSlowXYBitmap true 200 0 (pgm_of_list [255]) 1 1 WHITE blank
   = Ok blank) /\
  (1 = 0 \/ 1 = 0 \/ 200 + 1 = 0 \/ (0 + 1 = 0 /\ 1 mod 8 = 0) ->
   drawBitmap 200 0 (pgm_of_list [255]) 1 1 WHITE blank = Ok blank) /\
  (1 = 0 \/ 1 = 0 \/ (true = true /\ (200 + 1 = 0 \/ 0 + 1 = 0)) ->
   drawSlowXYBitmap true 200 0 (pgm_of_list [255]) 1 1 WHITE blank
   = Ok blank).
Proof.
  split.
  - lia.
  - apply (blit_outside_screen true 200 0 (pgm_of_list [255]) 1 1 WHITE
             blank); lia.
Defined.

(** C7, counterexample.  The box of a bitmap one pixel wide and one high
    at (0, -1) lies above the screen.  [drawBitmap] does not reject it
    ([y + h = 0] is not negative) and blits the whole source byte, whose
    bits 1 to 7 land in rows 0 to 6 of column 0.  Without the bounds test
    in [drawPixel], [drawSlowXYBitmap] given the box at (-1, 0) sets the
    pixel (127, 8). *)
Lemma blit_abutting_box_counterexample :
  box_misses_screen 0 (-1) 1 1 /\
  drawBitmap 0 (-1) (pgm_of_list [255]) 1 1 WHITE blank
  = Ok (127 :: replicate 1023%nat 0) /\
  127 :: replicate 1023%nat 0 <> blank /\
  box_misses_screen (-1) 0 1 1 /\
  drawSlowXYBitmap false (-1) 0 (pgm_of_list [255]) 1 1 WHITE blank
  = Ok (replicate 255%nat 0 ++ 1 :: replicate 768%nat 0).
Proof.
  split; [|split; [|split; [|split]]].
  - intros px py Hx Hy [_ H]. lia.
  - vm_compute. reflexivity.
  - intros H. vm_compute in H. discriminate H.
  - intros px py Hx Hy [H _]. lia.
  - vm_compute. reflexivity.
Qed.

(** ** The glyph cell *)

Lemma char_i_font_irrelevant safe font font' n x y c color size i :
  char_i safe font n x y c color color size false i =
  char_i safe font' n x y c color color size false i.
Proof.
  revert i. induction n as [|n IH]; intros i; cbn [char_i].
  - reflexivity.
  - rewrite IH.
    rewrite (char_j_same_colour safe 8 x y i color size
               (if i =? 5 then 0 else pgm_read_byte font (5 * c + i))
               (if i =? 5 then 0 else pgm_read_byte font' (5 * c + i))).
    reflexivity.
Qed.

(** C8, at a failing input.  With [WHITE] as both the text colour and
    the background, whatever the glyph table holds and whether or not
    [drawPixel] tests its bounds, [drawChar] at the origin of a cleared
    buffer sets all 48 pixels of the 6 by 8 cell, the background cells
    among them: the pixel (5, 0) of the blank sixth column, whose glyph
    bit is 0, goes from [BLACK] to [WHITE]. *)
Theorem drawChar_same_colour_writes_background safe font c :
  drawChar safe font 0 0 c WHITE WHITE 1 blank
  = Ok (replicate 6%nat 255 ++ replicate 1018%nat 0) /\
  getPixel 5 0 blank = Ok BLACK /\
  pixel_after (drawChar safe font 0 0 c WHITE WHITE 1) 5 0 blank = Ok WHITE.
Proof.
  assert (E : drawChar safe font 0 0 c WHITE WHITE 1 blank
              = Ok (replicate 6%nat 255 ++ replicate 1018%nat 0)).
  { transitivity (drawChar safe (fun _ => 0) 0 0 c WHITE WHITE 1 blank).
    - unfold drawChar.
      rewrite (char_i_font_irrelevant safe font (fun _ => 0)). reflexivity.
    - destruct safe; vm_compute; reflexivity. }
  split; [exact E|]. split; [reflexivity|].
  unfold pixel_after. rewrite E. reflexivity.
Qed.

(** With [BLACK] as both colours nothing at all is drawn, the glyph's
    own pixels included. *)
Lemma drawChar_black_on_black safe font c (b : Buf) :
  drawChar safe font 0 0 c BLACK BLACK 1 b = Ok b.
Proof.
  transitivity (drawChar safe (fun _ => 0) 0 0 c BLACK BLACK 1 b).
  - unfold drawChar.
    rewrite (char_i_font_irrelevant safe font (fun _ => 0)). reflexivity.
  - reflexivity.
Qed.

(** The letter A written at (120, 0) at size 1 with wrap on: the cursor
    would advance to 126, past [WIDTH - 6], and ends at (0, 8). *)
Lemma write_advances_then_wraps_witness :
  (65 <> newline_char /\ 65 <> return_char /\
   textWrap (mkArduboy (mkBase 60 0 16 0 0 false 0) blank 120 0 1 0 1 true)
   = true /\
   0 <= 1 <= 255) /\
  write true (pgm_of_list []) 65
    (mkArduboy (mkBase 60 0 16 0 0 false 0) blank 120 0 1 0 1 true)
  = (let* b := drawChar true (pgm_of_list []) 120 0 65 1 0 1 blank in
     Ok (mkArduboy (mkBase 60 0 16 0 0 false 0) b 0 8 1 0 1 true)).
Proof.
  split.
  - repeat split; try (unfold newline_char, return_char; lia).
  - apply (write_advances_then_wraps true (pgm_of_list []) 65
             (mkArduboy (mkBase 60 0 16 0 0 false 0) blank 120 0 1 0 1
                true)).
    + unfold newline_char. lia.
    + unfold return_char. lia.
    + reflexivity.
    + cbn. lia.
Defined.

(** ** Further properties of the frame management *)

Lemma u16_add_l a b : u16 (u16 a + b) = u16 (a + b).
Proof.
  unfold u16, unsigned. apply Z.add_mod_idemp_l.
  change (2 ^ 16) with 65536. lia.
Qed.

Lemma newFrame_counts t s :
  u16 (frameCount (after (newFrame t s)) +
       Z.b2z (post_render (after (newFrame t s)))) =
  u16 (frameCount s + Z.b2z (post_render s) + Z.b2z (due (newFrame t s))).
Proof.
  unfold newFrame.
  destruct (post_render s) eqn:E; cbn [post_render frameCount nextFrameStart];
    match goal with |- context [?a <? ?b] => destruct (a <? b) end;
    cbn [after due post_render frameCount Z.b2z]; rewrite ?E;
    cbn [Z.b2z]; rewrite ?u16_add_l, ?Z.add_0_r; reflexivity.
Qed.

Lemma nextFrame_counts t s :
  u16 (frameCount (after (nextFrame t s)) +
       Z.b2z (post_render (after (nextFrame t s)))) =
  u16 (frameCount s + Z.b2z (post_render s) + Z.b2z (due (nextFrame t s))).
Proof.
  unfold nextFrame.
  destruct (post_render s) eqn:E; cbn [post_render frameCount nextFrameStart];
    match goal with |- context [?a <? ?b] => destruct (a <? b) end;
    cbn [after due post_render frameCount Z.b2z]; rewrite ?E;
    cbn [Z.b2z]; rewrite ?u16_add_l, ?Z.add_0_r; reflexivity.
Qed.

Lemma run_counts step :
  (forall t s,
     u16 (frameCount (after (step t s)) +
          Z.b2z (post_render (after (step t s)))) =
     u16 (frameCount s + Z.b2z (post_render s) + Z.b2z (due (step t s)))) ->
  forall nows s,
    u16 (frameCount (after_run step nows s) +
         Z.b2z (post_render (after_run step nows s))) =
    u16 (frameCount s + Z.b2z (post_render s) + frames_due step nows s).
Proof.
  intros Hstep. induction nows as [|t rest IH]; intros s;
    cbn [after_run frames_due].
  - rewrite Z.add_0_r. reflexivity.
  - rewrite IH. rewrite <- u16_add_l, Hstep, u16_add_l. f_equal. lia.
Qed.

(** X24. [frameCount] counts the frames whose rendering is over: after any
    run of calls of [newFrame], or of [nextFrame], at any times,
    [frameCount] plus one if a frame is being rendered is what it was
    before the run plus the number of calls that returned true, modulo
    2^16. *)
Theorem frameCount_counts_frames (nows : list Z) (s : ArduboyBase) :
  u16 (frameCount (after_run newFrame nows s) +
       Z.b2z (post_render (after_run newFrame nows s))) =
  u16 (frameCount s + Z.b2z (post_render s) + frames_due newFrame nows s) /\
  u16 (frameCount (after_run nextFrame nows s) +
       Z.b2z (post_render (after_run nextFrame nows s))) =
  u16 (frameCount s + Z.b2z (post_render s) + frames_due nextFrame nows s).
Proof.
  split.
  - apply run_counts. exact newFrame_counts.
  - apply run_counts. exact nextFrame_counts.
Qed.

(** X25. after [nextFrame] has accepted a frame at time [t], the next frame
    is due one period after [t]: a call at a later time [t'] returns
    true exactly when [t' >= t + eachFrameMillis], whatever the frame
    before. *)
Theorem nextFrame_spacing (s : ArduboyBase) (t t' : Z) :
  0 <= eachFrameMillis s <= 255 ->
  0 <= t <= t' -> t' < 2147483648 - 255 ->
  due (nextFrame t s) = true ->
  lastFrameStart (after (nextFrame t s)) = t /\
  nextFrameStart (after (nextFrame t s)) = t + eachFrameMillis s /\
  due (nextFrame t' (after (nextFrame t s))) = (t + eachFrameMillis s <=? t').
Proof.
  intros He Ht Ht' Hdue.
  assert (E : after (nextFrame t s) =
              {| frameRate := frameRate s;
                 frameCount := if post_render s then u16 (frameCount s + 1)
                               else frameCount s;
                 eachFrameMillis := eachFrameMillis s;
                 lastFrameStart := t;
                 nextFrameStart := t + eachFrameMillis s;
                 post_render := true;
                 lastFrameDurationMs :=
                   if post_render s then u8 (t - lastFrameStart s)
                   else lastFrameDurationMs s |}).
  { revert Hdue. unfold nextFrame. rewrite (i32_small t) by lia.
    destruct (post_render s);
      cbn [post_render frameCount nextFrameStart eachFrameMillis
           frameRate lastFrameStart lastFrameDurationMs];
      destruct (t <? nextFrameStart s); cbn [due after];
      try discriminate; intros _;
      rewrite (i32_small (t + eachFrameMillis s)) by lia; reflexivity. }
  rewrite E. cbn [lastFrameStart nextFrameStart].
  split; [reflexivity|]. split; [reflexivity|].
  unfold nextFrame. rewrite (i32_small t') by lia.
  cbn [post_render frameCount nextFrameStart eachFrameMillis
       frameRate lastFrameStart lastFrameDurationMs].
  destruct (Z.ltb_spec t' (t + eachFrameMillis s)),
    (Z.leb_spec (t + eachFrameMillis s) t'); cbn [due]; try reflexivity; lia.
Qed.

(** The period [setFrameRate] stores is never 0. *)
Lemma period_positive rate :
  1 <= rate <= 255 -> 1 <= u8 (Z.quot 1000 rate) <= 255.
Proof.
  intros Hr. rewrite Z.quot_div_nonneg by lia.
  destruct (Z_lt_ge_dec rate 4) as [Hs|Hs].
  - assert (H : rate = 1 \/ rate = 2 \/ rate = 3) by lia.
    destruct H as [->|[->| ->]]; vm_compute; split; discriminate.
  - assert (3 <= 1000 / rate <= 250).
    { split.
      - apply Z.div_le_lower_bound; lia.
      - apply Z.div_le_upper_bound; lia. }
    rewrite u8_small by lia. lia.
Qed.

(** X26. after [setFrameRate] with a rate from 1 to 255 the period is not
    0, so that [cpuLoad] divides by a number that is not 0; it returns
    the last frame's duration as a percentage of the period, rounded
    down, and that is 100 or more exactly when the frame took at least
    one period. *)
Theorem cpuLoad_after_setFrameRate (rate : Z) (s : ArduboyBase) :
  1 <= rate <= 255 -> 0 <= lastFrameDurationMs s <= 255 ->
  exists s' load,
    setFrameRate rate s = Ok s' /\ cpuLoad s' = Ok load /\
    load = lastFrameDurationMs s * 100 / eachFrameMillis s' /\
    (100 <= load <-> eachFrameMillis s' <= lastFrameDurationMs s).
Proof.
  intros Hr Hd. unfold setFrameRate.
  replace (rate =? 0) with false by (symmetry; apply Z.eqb_neq; lia).
  pose proof (period_positive rate Hr) as Hp.
  eexists. eexists. split; [reflexivity|].
  unfold cpuLoad. cbn [eachFrameMillis lastFrameDurationMs].
  set (p := u8 (Z.quot 1000 rate)) in *.
  set (d := lastFrameDurationMs s) in *.
  replace (p =? 0) with false by (symmetry; apply Z.eqb_neq; lia).
  rewrite (i16_small (d * 100)) by lia.
  rewrite Z.quot_div_nonneg by lia.
  assert (Hq : 0 <= d * 100 / p <= d * 100).
  { split; [apply Z.div_pos; lia|].
    apply Z.div_le_upper_bound; [lia|]. nia. }
  rewrite (i16_small (d * 100 / p)) by lia.
  split; [reflexivity|]. split; [reflexivity|].
  split; intros H.
  - change (100 <= d * 100 / p) in H.
    destruct (Z_le_gt_dec p d) as [Hl|Hg]; [exact Hl|].
    assert (d * 100 / p < 100); [|lia].
    apply Z.div_lt_upper_bound; lia.
  - apply Z.div_le_lower_bound; lia.
Qed.

(** X23. [setFrameRate] divides by the rate, so a rate of 0 is a division
    by zero; for the rates from 1 to 255 it stores the rate and a period
    that is not 0, and the period is [1000 / rate] exactly for the
    rates of 4 and more: below, [1000 / rate] does not fit the
    [uint8_t] member.  It changes nothing else. *)
Theorem setFrameRate_period_fits (rate : Z) (s : ArduboyBase) :
  0 <= rate <= 255 ->
  (rate = 0 -> setFrameRate rate s = Fault) /\
  (1 <= rate ->
   exists s',
     setFrameRate rate s = Ok s' /\
     frameRate s' = rate /\
     1 <= eachFrameMillis s' <= 255 /\
     (eachFrameMillis s' = 1000 / rate <-> 4 <= rate) /\
     frameCount s' = frameCount s /\
     lastFrameStart s' = lastFrameStart s /\
     nextFrameStart s' = nextFrameStart s /\
     post_render s' = post_render s /\
     lastFrameDurationMs s' = lastFrameDurationMs s).
Proof.
  intros Hr. split.
  - intros ->. reflexivity.
  - intros H1. unfold setFrameRate.
    replace (rate =? 0) with false by (symmetry; apply Z.eqb_neq; lia).
    eexists. split; [reflexivity|].
    cbn [frameRate eachFrameMillis frameCount lastFrameStart nextFrameStart
         post_render lastFrameDurationMs].
    split; [reflexivity|].
    split; [apply period_positive; lia|].
    split; [|repeat split].
    rewrite Z.quot_div_nonneg by lia.
    destruct (Z_lt_ge_dec rate 4) as [Hs|Hs].
    + assert (H : rate = 1 \/ rate = 2 \/ rate = 3) by lia.
      destruct H as [->|[->| ->]]; vm_compute; split;
        first [discriminate | intros H; exfalso; apply H; reflexivity].
    + assert (3 <= 1000 / rate <= 250).
      { split.
        - apply Z.div_le_lower_bound; lia.
        - apply Z.div_le_upper_bound; lia. }
      rewrite u8_small by lia. split; [intros _; lia|reflexivity].
Qed.

(** ** Instances of the further properties *)

(** Without the bounds test the pixel (130, 3), right of the screen, is
    drawn as the pixel (2, 11). *)
Lemma drawPixel_unchecked_witness :
  (false = false /\ Z.of_nat (length blank) = buf_size) /\
  (let i := u8 3 / 8 * WIDTH + u8 130 in
   (i < buf_size ->
    on_screen (i mod WIDTH) (8 * (i / WIDTH) + u8 3 mod 8) /\
    drawPixel false 130 3 WHITE blank =
    drawPixel false (i mod WIDTH) (8 * (i / WIDTH) + u8 3 mod 8) WHITE blank) /\
   (buf_size <= i -> drawPixel false 130 3 WHITE blank = Fault)).
Proof.
  split.
  - split; reflexivity.
  - apply (drawPixel_unchecked false 130 3 WHITE blank); reflexivity.
Defined.

(** A column of height 10 from row -3: rows 0 to 6 of column 5. *)
Lemma drawFastVLine_renders_witness :
  (-32768 <= -3 <= 32767 /\ 0 <= 10 <= 255 /\
   (false = true \/ 0 <= 5 < WIDTH) /\
   Z.of_nat (length blank) = buf_size) /\
  exists b',
    drawFastVLine false 5 (-3) 10 WHITE blank = Ok b' /\
    Z.of_nat (length b') = buf_size /\
    forall px py, on_screen px py ->
      getPixel px py b' =
      if (px =? 5) && (-3 <=? py) && (py <? -3 + 10)
      then Ok (Z.b2z (truthy WHITE)) else getPixel px py blank.
Proof.
  split.
  - unfold WIDTH. repeat split; first [lia | reflexivity].
  - apply (drawFastVLine_renders false 5 (-3) 10 WHITE blank);
      unfold WIDTH; first [lia | reflexivity].
Defined.

(** A row of width 10 from column -3: columns 0 to 6 of row 2. *)
Lemma drawFastHLine_renders_witness :
  ((WHITE = WHITE \/ WHITE = BLACK) /\ -3 < WIDTH /\ 0 <= 10 <= 255 /\
   0 <= -3 + 10 /\ Z.of_nat (length blank) = buf_size) /\
  exists b',
    drawFastHLine (-3) 2 10 WHITE blank = Ok b' /\
    Z.of_nat (length b') = buf_size /\
    forall px py, on_screen px py ->
      getPixel px py b' =
      if (py =? 2) && (-3 <=? px) && (px <? -3 + 10)
      then Ok (Z.b2z (truthy WHITE)) else getPixel px py blank.
Proof.
  split.
  - unfold WIDTH.
    repeat split; first [lia | reflexivity | left; reflexivity].
  - apply (drawFastHLine_renders true (-3) 2 10 WHITE blank);
      unfold WIDTH; first [lia | reflexivity | left; reflexivity].
Defined.

(** [INVERT] is neither [WHITE] nor [BLACK]. *)
Lemma drawFastHLine_other_colour_witness :
  (INVERT <> WHITE /\ INVERT <> BLACK) /\
  drawFastHLine 0 0 10 INVERT blank = Ok blank.
Proof.
  split.
  - split; discriminate.
  - apply (drawFastHLine_other_colour 0 0 10 INVERT blank); discriminate.
Defined.

(** A box of 4 by 3 pixels at (10, 20). *)
Lemma fillRect_renders_witness :
  (-32768 <= 10 <= 32767 /\ -32768 <= 20 <= 32767 /\
   0 <= 4 <= 255 /\ 0 <= 3 <= 255 /\
   (false = true \/ (0 <= 10 /\ 10 + 4 <= WIDTH)) /\
   Z.of_nat (length blank) = buf_size) /\
  exists b',
    fillRect false 10 20 4 3 WHITE blank = Ok b' /\
    Z.of_nat (length b') = buf_size /\
    forall px py, on_screen px py ->
      getPixel px py b' =
      if (10 <=? px) && (px <? 10 + 4) && (20 <=? py) && (py <? 20 + 3)
      then Ok (Z.b2z (truthy WHITE)) else getPixel px py blank.
Proof.
  split.
  - unfold WIDTH. repeat split; first [lia | reflexivity].
  - apply (fillRect_renders false 10 20 4 3 WHITE blank);
      unfold WIDTH; first [lia | reflexivity].
Defined.

(** The border of the box of 4 by 3 pixels at (10, 20). *)
Lemma drawRect_renders_witness :
  ((WHITE = WHITE \/ WHITE = BLACK) /\ -32768 <= 10 < WIDTH /\
   0 <= 10 + 4 /\ -32768 <= 20 /\ 20 + 3 <= 32768 /\
   1 <= 4 <= 255 /\ 1 <= 3 <= 255 /\
   (false = true \/ (0 <= 10 /\ 10 + 4 <= WIDTH))) /\
  renders (drawRect false 10 20 4 3 WHITE)
          (paint (fun px py =>
                    (10 <=? px) && (px <? 10 + 4) &&
                    (20 <=? py) && (py <? 20 + 3) &&
                    ((px =? 10) || (px =? 10 + 4 - 1) ||
                     (py =? 20) || (py =? 20 + 3 - 1)))
             (truthy WHITE)).
Proof.
  split.
  - unfold WIDTH. repeat split; first [lia | left; reflexivity].
  - apply (drawRect_renders false 10 20 4 3 WHITE); unfold WIDTH;
      first [lia | left; reflexivity].
Defined.

(** The line from (3, 4) to (10, 1) and the line from (10, 1) to
    (3, 4). *)
Lemma drawLine_symmetric_witness :
  (-16384 <= 3 < 16384 /\ -16384 <= 4 < 16384 /\
   -16384 <= 10 < 16384 /\ -16384 <= 1 < 16384) /\
  drawLine true 20 3 4 10 1 WHITE = drawLine true 20 10 1 3 4 WHITE.
Proof.
  split.
  - lia.
  - apply (drawLine_symmetric true 20 3 4 10 1 WHITE); lia.
Defined.

(** The row 5 from column 9 back to column 2. *)
Lemma drawLine_horizontal_witness :
  (-16384 <= 9 < 16384 /\ -16384 <= 2 < 16384 /\
   (Z.to_nat (Z.abs (2 - 9)) < 8)%nat /\
   (false = true \/
    (0 <= Z.min 9 2 /\ Z.max 9 2 < WIDTH /\ 0 <= 5 < HEIGHT))) /\
  renders (drawLine false 8 9 5 2 5 WHITE)
          (paint (fun px py => (py =? 5) && (Z.min 9 2 <=? px) &&
                               (px <=? Z.max 9 2))
             (truthy WHITE)).
Proof.
  split.
  - unfold WIDTH, HEIGHT. lia.
  - apply (drawLine_horizontal false 8 9 2 5 WHITE);
      unfold WIDTH, HEIGHT; lia.
Defined.

(** The column 5 from row 2 to row 9. *)
Lemma drawLine_vertical_witness :
  (-16384 <= 5 < 16384 /\ -16384 <= 2 < 16384 /\ -16384 <= 9 < 16384 /\
   (Z.to_nat (Z.abs (9 - 2)) < 8)%nat /\
   (false = true \/
    (0 <= 5 < WIDTH /\ 0 <= Z.min 2 9 /\ Z.max 2 9 < HEIGHT))) /\
  renders (drawLine false 8 5 2 5 9 WHITE)
          (paint (fun px py => (px =? 5) && (Z.min 2 9 <=? py) &&
                               (py <=? Z.max 2 9))
             (truthy WHITE)).
Proof.
  split.
  - unfold WIDTH, HEIGHT. lia.
  - apply (drawLine_vertical false 8 5 2 9 WHITE);
      unfold WIDTH, HEIGHT; lia.
Defined.

(** The line from (3, 40) to (100, 1). *)
Lemma drawLine_sets_witness :
  (-16384 <= 3 < 16384 /\ -16384 <= 40 < 16384 /\
   -16384 <= 100 < 16384 /\ -16384 <= 1 < 16384 /\
   Z.max (Z.abs (100 - 3)) (Z.abs (1 - 40)) < Z.of_nat 98 /\
   (false = true \/ (on_screen 3 40 /\ on_screen 100 1))) /\
  exists P : Z -> Z -> bool,
    P 3 40 = true /\ P 100 1 = true /\
    (forall px py, P px py = true ->
       Z.min 3 100 <= px <= Z.max 3 100 /\
       Z.min 40 1 <= py <= Z.max 40 1) /\
    forall b : Buf, Z.of_nat (length b) = buf_size ->
      exists b',
        drawLine false 98 3 40 100 1 WHITE b = Ok b' /\
        Z.of_nat (length b') = buf_size /\
        forall px py, on_screen px py ->
          getPixel px py b' =
          if P px py then Ok (Z.b2z (truthy WHITE)) else getPixel px py b.
Proof.
  split.
  - unfold on_screen, WIDTH, HEIGHT. lia.
  - apply (drawLine_sets false 98 3 40 100 1 WHITE);
      unfold on_screen, WIDTH, HEIGHT; lia.
Defined.

(** The triangle (3, 40), (100, 1), (60, 63). *)
Lemma drawTriangle_sets_witness :
  (-16384 <= 3 < 16384 /\ -16384 <= 40 < 16384 /\
   -16384 <= 100 < 16384 /\ -16384 <= 1 < 16384 /\
   -16384 <= 60 < 16384 /\ -16384 <= 63 < 16384 /\
   Z.max (Z.max 3 100) 60 - Z.min (Z.min 3 100) 60 < Z.of_nat 98 /\
   Z.max (Z.max 40 1) 63 - Z.min (Z.min 40 1) 63 < Z.of_nat 98 /\
   (false = true \/
    (on_screen 3 40 /\ on_screen 100 1 /\ on_screen 60 63))) /\
  sets (drawTriangle false 98 3 40 100 1 60 63 WHITE) (truthy WHITE)
       (fun px py => ((px =? 3) && (py =? 40)) ||
                     ((px =? 100) && (py =? 1)) ||
                     ((px =? 60) && (py =? 63)))
       (fun px py =>
          Z.min (Z.min 3 100) 60 <= px <= Z.max (Z.max 3 100) 60 /\
          Z.min (Z.min 40 1) 63 <= py <= Z.max (Z.max 40 1) 63).
Proof.
  split.
  - unfold on_screen, WIDTH, HEIGHT. lia.
  - apply (drawTriangle_sets false 98 3 40 100 1 60 63 WHITE);
      unfold on_screen, WIDTH, HEIGHT; lia.
Defined.

(** The circle of radius 20 around (64, 32). *)
Lemma drawCircle_sets_witness :
  (0 <= 20 <= 255 /\ -32768 <= 64 - 20 /\ 64 + 20 <= 32767 /\
   -32768 <= 32 - 20 /\ 32 + 20 <= 32767 /\
   (false = true \/
    (0 <= 64 - 20 /\ 64 + 20 < WIDTH /\ 0 <= 32 - 20 /\
     32 + 20 < HEIGHT))) /\
  sets (drawCircle false 64 32 20 WHITE) (truthy WHITE)
       (fun px py => ((px =? 64) && ((py =? 32 + 20) || (py =? 32 - 20))) ||
                     ((py =? 32) && ((px =? 64 + 20) || (px =? 64 - 20))))
       (in_square 64 32 20).
Proof.
  split.
  - unfold WIDTH, HEIGHT. lia.
  - apply (drawCircle_sets false 64 32 20 WHITE); unfold WIDTH, HEIGHT; lia.
Defined.

(** A bitmap of two columns drawn twice in [INVERT] on the cleared
    screen. *)
Lemma drawBitmap_twice_witness :
  (Z.of_nat (length blank) = buf_size /\ bytes blank) /\
  exists b1,
    drawBitmap 2 3 (pgm_of_list [255; 129]) 2 8 INVERT blank = Ok b1 /\
    Z.of_nat (length b1) = buf_size /\ bytes b1 /\
    drawBitmap 2 3 (pgm_of_list [255; 129]) 2 8 INVERT b1 =
    Ok (if (INVERT =? WHITE) || (INVERT =? BLACK) then b1 else blank).
Proof.
  split.
  - split; [reflexivity|exact blank_bytes].
  - apply (drawBitmap_twice 2 3 (pgm_of_list [255; 129]) 2 8 INVERT blank);
      [reflexivity|exact blank_bytes].
Defined.

(** An image of 10 by 2 pixels, two bytes to a row, at (4, 6). *)
Lemma drawSlowXYBitmap_renders_witness :
  (-32768 <= 4 /\ 4 + 10 <= 32767 /\ -32768 <= 6 /\ 6 + 2 <= 32767 /\
   0 <= 10 <= 255 /\ 0 <= 2 <= 255 /\
   (false = true \/
    (0 <= 4 /\ 4 + 10 <= WIDTH /\ 0 <= 6 /\ 6 + 2 <= HEIGHT))) /\
  renders (drawSlowXYBitmap false 4 6 (pgm_of_list [255; 192; 129; 64])
             10 2 WHITE)
    (paint (fun px py =>
              (4 <=? px) && (px <? 4 + 10) && (6 <=? py) && (py <? 6 + 2) &&
              Z.testbit (pgm_read_byte (pgm_of_list [255; 192; 129; 64])
                           ((py - 6) * ((10 + 7) / 8) + (px - 4) / 8))
                (7 - (px - 4) mod 8))
       (truthy WHITE)).
Proof.
  split.
  - unfold WIDTH, HEIGHT. lia.
  - apply (drawSlowXYBitmap_renders false 4 6
             (pgm_of_list [255; 192; 129; 64]) 10 2 WHITE);
      unfold WIDTH, HEIGHT; lia.
Defined.

(** The glyph 1 of a font of two glyphs, at size 2, white on black at
    (10, 8). *)
Lemma drawChar_renders_witness :
  (-32768 <= 10 /\ -32768 <= 8 /\ 1 <= 2 <= 255 /\
   (false = true \/ cell_on_screen 10 8 2) /\
   Z.of_nat (length blank) = buf_size) /\
  exists b',
    drawChar false (pgm_of_list [0; 0; 0; 0; 0; 62; 81; 73; 69; 62])
      10 8 1 WHITE BLACK 2 blank = Ok b' /\
    Z.of_nat (length b') = buf_size /\
    forall px py, on_screen px py ->
      getPixel px py b' =
      if (10 + 5 * 2 <=? 0) then getPixel px py blank
      else if (10 <=? px) && (px <? 10 + 6 * 2) &&
              (8 <=? py) && (py <? 8 + 8 * 2)
      then
        let i := (px - 10) / 2 in
        let j := (py - 8) / 2 in
        let draw_color :=
          if (i <? 5) &&
             Z.testbit
               (pgm_read_byte
                  (pgm_of_list [0; 0; 0; 0; 0; 62; 81; 73; 69; 62])
                  (5 * 1 + i)) j
          then WHITE else BLACK in
        if truthy draw_color || negb (BLACK =? WHITE)
        then Ok (Z.b2z (truthy draw_color)) else getPixel px py blank
      else getPixel px py blank.
Proof.
  split.
  - unfold cell_on_screen, WIDTH, HEIGHT.
    repeat split; first [lia | reflexivity].
  - apply (drawChar_renders false
             (pgm_of_list [0; 0; 0; 0; 0; 62; 81; 73; 69; 62])
             10 8 1 WHITE BLACK 2 blank);
      unfold cell_on_screen, WIDTH, HEIGHT; first [lia | reflexivity].
Defined.

(** The letter A written at (120, 0) at size 1. *)
Lemma write_keeps_other_pixels_witness :
  (Z.of_nat (length (sBuffer
      (mkArduboy (mkBase 60 0 16 0 0 false 0) blank 120 0 1 0 1 true)))
   = buf_size /\
   -32768 <= 120 /\ -32768 <= 0 /\ 1 <= 1 <= 255 /\
   (false = true \/ cell_on_screen 120 0 1)) /\
  exists s',
    write false (pgm_of_list []) 65
      (mkArduboy (mkBase 60 0 16 0 0 false 0) blank 120 0 1 0 1 true)
    = Ok s' /\
    Z.of_nat (length (sBuffer s')) = buf_size /\
    forall px py, on_screen px py ->
      ~ (120 <= px < 120 + 6 * 1 /\ 0 <= py < 0 + 8 * 1) ->
      getPixel px py (sBuffer s') = getPixel px py blank.
Proof.
  split.
  - unfold cell_on_screen, WIDTH, HEIGHT.
    repeat split; first [reflexivity | lia].
  - apply (write_keeps_other_pixels false (pgm_of_list []) 65
             (mkArduboy (mkBase 60 0 16 0 0 false 0) blank 120 0 1 0 1
                true)); cbn [cursor_x cursor_y textSize sBuffer];
      unfold cell_on_screen, WIDTH, HEIGHT; first [reflexivity | lia].
Defined.

(** [clear] on an object whose cursor is at (120, 8). *)
Lemma Arduboy_clear_blanks_witness :
  Z.of_nat (length (sBuffer
     (mkArduboy (mkBase 60 0 16 0 0 false 0) blank 120 8 1 0 2 true)))
  = buf_size /\
  exists s',
    Arduboy_clear
      (mkArduboy (mkBase 60 0 16 0 0 false 0) blank 120 8 1 0 2 true)
    = Ok s' /\
    cursor_x s' = 0 /\ cursor_y s' = 0 /\
    (forall px py, on_screen px py ->
       getPixel px py (sBuffer s') = Ok BLACK) /\
    textColor s' = 1 /\ textBackground s' = 0 /\
    textSize s' = 2 /\ textWrap s' = true /\
    base s' = mkBase 60 0 16 0 0 false 0.
Proof.
  split.
  - reflexivity.
  - apply (Arduboy_clear_blanks
             (mkArduboy (mkBase 60 0 16 0 0 false 0) blank 120 8 1 0 2
                true)). reflexivity.
Defined.

(** A frame accepted at 100 ms at a period of 16 ms, and a call at
    110 ms. *)
Lemma nextFrame_spacing_witness :
  (0 <= eachFrameMillis (mkBase 60 7 16 80 96 true 0) <= 255 /\
   0 <= 100 <= 110 /\ 110 < 2147483648 - 255 /\
   due (nextFrame 100 (mkBase 60 7 16 80 96 true 0)) = true) /\
  lastFrameStart (after (nextFrame 100 (mkBase 60 7 16 80 96 true 0)))
  = 100 /\
  nextFrameStart (after (nextFrame 100 (mkBase 60 7 16 80 96 true 0)))
  = 100 + eachFrameMillis (mkBase 60 7 16 80 96 true 0) /\
  due (nextFrame 110 (after (nextFrame 100 (mkBase 60 7 16 80 96 true 0))))
  = (100 + eachFrameMillis (mkBase 60 7 16 80 96 true 0) <=? 110).
Proof.
  split.
  - cbn [eachFrameMillis]. repeat split; try lia.
  - apply (nextFrame_spacing (mkBase 60 7 16 80 96 true 0) 100 110);
      cbn [eachFrameMillis]; try lia. reflexivity.
Defined.

(** The rate 60 and a last frame of 20 ms. *)
Lemma cpuLoad_after_setFrameRate_witness :
  (1 <= 60 <= 255 /\
   0 <= lastFrameDurationMs (mkBase 30 7 33 80 96 false 20) <= 255) /\
  exists s' load,
    setFrameRate 60 (mkBase 30 7 33 80 96 false 20) = Ok s' /\
    cpuLoad s' = Ok load /\
    load = lastFrameDurationMs (mkBase 30 7 33 80 96 false 20) * 100
           / eachFrameMillis s' /\
    (100 <= load <->
     eachFrameMillis s' <=
     lastFrameDurationMs (mkBase 30 7 33 80 96 false 20)).
Proof.
  split.
  - cbn [lastFrameDurationMs]. lia.
  - apply (cpuLoad_after_setFrameRate 60 (mkBase 30 7 33 80 96 false 20));
      cbn [lastFrameDurationMs]; lia.
Defined.

(** The rate 2: the period stored is 500 mod 256. *)
Lemma setFrameRate_period_fits_witness :
  0 <= 2 <= 255 /\
  (2 = 0 -> setFrameRate 2 (mkBase 60 7 16 80 96 false 20) = Fault) /\
  (1 <= 2 ->
   exists s',
     setFrameRate 2 (mkBase 60 7 16 80 96 false 20) = Ok s' /\
     frameRate s' = 2 /\
     1 <= eachFrameMillis s' <= 255 /\
     (eachFrameMillis s' = 1000 / 2 <-> 4 <= 2) /\
     frameCount s' = frameCount (mkBase 60 7 16 80 96 false 20) /\
     lastFrameStart s' = lastFrameStart (mkBase 60 7 16 80 96 false 20) /\
     nextFrameStart s' = nextFrameStart (mkBase 60 7 16 80 96 false 20) /\
     post_render s' = post_render (mkBase 60 7 16 80 96 false 20) /\
     lastFrameDurationMs s' =
     lastFrameDurationMs (mkBase 60 7 16 80 96 false 20)).
Proof.
  split.
  - lia.
  - apply (setFrameRate_period_fits 2 (mkBase 60 7 16 80 96 false 20)). lia.
Defined.

(** The disc of radius 40 around (64, 32); its rows reach beyond the
    screen. *)
Lemma fillCircle_sets_witness :
  (0 <= 40 <= 127 /\ -32768 <= 64 - 40 /\ 64 + 40 <= 32767 /\
   -32768 <= 32 - 40 /\ 32 + 40 <= 32767 /\
   (false = true \/ (0 <= 64 - 40 /\ 64 + 40 < WIDTH))) /\
  sets (fillCircle false 64 32 40 WHITE) (truthy WHITE)
       (fun px py => (px =? 64) && (32 - 40 <=? py) && (py <=? 32 + 40))
       (in_square 64 32 40).
Proof.
  split.
  - unfold WIDTH. lia.
  - apply (fillCircle_sets false 64 32 40 WHITE); unfold WIDTH; lia.
Defined.

(** A box of 30 by 20 pixels at (10, 8) with corners of radius 5. *)
Lemma fillRoundRect_sets_witness :
  (-32768 < 10 /\ 10 + 30 <= 32767 /\ -32768 <= 8 /\ 8 + 20 <= 32767 /\
   1 <= 30 <= 255 /\ 1 <= 20 <= 255 /\
   0 <= 5 /\ 2 * 5 <= 30 /\ 2 * 5 <= 20 /\
   (false = true \/ (0 <= 10 /\ 10 + 30 <= WIDTH))) /\
  sets (fillRoundRect false 10 8 30 20 5 WHITE) (truthy WHITE)
       (fun px py => (10 + 5 <=? px) && (px <? 10 + 30 - 5) &&
                     (8 <=? py) && (py <? 8 + 20))
       (fun px py => 10 <= px < 10 + 30 /\ 8 <= py < 8 + 20).
Proof.
  split.
  - unfold WIDTH. lia.
  - apply (fillRoundRect_sets false 10 8 30 20 5 WHITE); unfold WIDTH; lia.
Defined.

(** The border of the same box. *)
Lemma drawRoundRect_sets_witness :
  ((WHITE = WHITE \/ WHITE = BLACK) /\
   -32768 < 10 /\ 10 + 5 < WIDTH /\ 0 <= 10 + 30 - 5 /\
   -32768 < 8 /\ 8 + 20 <= 32767 /\
   1 <= 30 <= 255 /\ 1 <= 20 <= 255 /\
   0 <= 5 /\ 2 * 5 <= 30 /\ 2 * 5 <= 20 /\
   (false = true \/
    (0 <= 10 /\ 10 + 30 <= WIDTH /\ 0 <= 8 /\ 8 + 20 <= HEIGHT))) /\
  sets (drawRoundRect false 10 8 30 20 5 WHITE) (truthy WHITE)
       (fun px py =>
          (((py =? 8) || (py =? 8 + 20 - 1)) &&
           (10 + 5 <=? px) && (px <? 10 + 30 - 5)) ||
          (((px =? 10) || (px =? 10 + 30 - 1)) &&
           (8 + 5 <=? py) && (py <? 8 + 20 - 5)))
       (fun px py => 10 <= px < 10 + 30 /\ 8 <= py < 8 + 20).
Proof.
  split.
  - unfold WIDTH, HEIGHT. repeat split; first [lia | left; reflexivity].
  - apply (drawRoundRect_sets false 10 8 30 20 5 WHITE);
      unfold WIDTH, HEIGHT; first [lia | left; reflexivity].
Defined.

(** The pixel (130, 3), right of the screen, is read as the pixel
    (2, 11). *)
Lemma getPixel_unchecked_witness :
  Z.of_nat (length blank) = buf_size /\
  (let i := u8 3 / 8 * WIDTH + u8 130 in
   (i < buf_size ->
    on_screen (i mod WIDTH) (8 * (i / WIDTH) + u8 3 mod 8) /\
    getPixel 130 3 blank =
    getPixel (i mod WIDTH) (8 * (i / WIDTH) + u8 3 mod 8) blank) /\
   (buf_size <= i -> getPixel 130 3 blank = Fault)).
Proof.
  split.
  - reflexivity.
  - apply (getPixel_unchecked 130 3 blank). reflexivity.
Defined.
